(** * Sports2D motion-analysis viewer: a shallow embedding of [sports2d_ui.py]

    The development follows the source file top-down: the trajectory loader
    ([Sports2DLoader.load_trc]), the smoothing helper ([smooth]), and the
    methods of [Sports2DApp] that hold the application logic (calibration,
    frame rendering and overlays, click selection, kinematics, playback).

    Numbers.  Python and NumPy floats are modelled by [float]: not-a-number or
    a real number.  Arithmetic is exact real arithmetic, so rounding, overflow
    and the infinities are outside the model; equalities proved here hold in
    the program up to floating-point tolerance.  Python integers are [Z].

    Exceptions.  A computation that can raise returns a [result]; methods of
    the application object thread the object through a state-and-exception
    monad in which the mutations made before a raise persist, as they do on a
    Python object. *)

From Stdlib Require Import String Ascii Reals Lra Lia ZArith Bool List.
Import ListNotations.

(* ------------------------------------------------------------------ *)
(** * Exceptions and results *)

Inductive exn : Type :=
| IndexError | KeyError | ValueError | ZeroDivisionError | OSError.

Inductive result (A : Type) : Type :=
| Ok (a : A)
| Raise (e : exn).

Arguments Ok {A} a.
Arguments Raise {A} e.

Definition rbind {A B} (r : result A) (k : A -> result B) : result B :=
  match r with
  | Ok a => k a
  | Raise e => Raise e
  end.

Declare Scope result_scope.
Delimit Scope result_scope with result.
Notation "x <- r ;; k" := (rbind r (fun x => k))
  (at level 61, r at next level, right associativity) : result_scope.

(** [try: ... except Exception: return None] *)
Definition except_None {A} (r : result A) : option A :=
  match r with
  | Ok a => Some a
  | Raise _ => None
  end.

(* ------------------------------------------------------------------ *)
(** * Floats *)

Inductive float : Type :=
| NaN
| Fin (r : R).

Definition Rltb (a b : R) : bool := if Rlt_dec a b then true else false.
Definition Rleb (a b : R) : bool := if Rle_dec a b then true else false.
Definition Reqb (a b : R) : bool := if Req_dec_T a b then true else false.

Lemma Rltb_true a b : Rltb a b = true <-> (a < b)%R.
Proof. unfold Rltb; destruct (Rlt_dec a b); split; auto; discriminate. Qed.

Lemma Rltb_false a b : Rltb a b = false <-> (b <= a)%R.
Proof.
  unfold Rltb; destruct (Rlt_dec a b); split; auto; try discriminate; lra.
Qed.

Lemma Rleb_true a b : Rleb a b = true <-> (a <= b)%R.
Proof. unfold Rleb; destruct (Rle_dec a b); split; auto; discriminate. Qed.

Lemma Rleb_false a b : Rleb a b = false <-> (b < a)%R.
Proof.
  unfold Rleb; destruct (Rle_dec a b); split; auto; try discriminate; lra.
Qed.

Lemma Reqb_true a b : Reqb a b = true <-> a = b.
Proof. unfold Reqb; destruct (Req_dec_T a b); split; auto; discriminate. Qed.

Lemma Reqb_false a b : Reqb a b = false <-> a <> b.
Proof.
  unfold Reqb; destruct (Req_dec_T a b); split; auto; try discriminate.
  intros H; contradiction.
Qed.

Module F.

(** [np.isnan] *)
Definition isnan (a : float) : bool :=
  match a with NaN => true | Fin _ => false end.

Definition lift2 (op : R -> R -> R) (a b : float) : float :=
  match a, b with
  | Fin x, Fin y => Fin (op x y)
  | _, _ => NaN
  end.

Definition add := lift2 Rplus.
Definition sub := lift2 Rminus.
Definition mul := lift2 Rmult.

(** NumPy division.  A zero divisor yields an infinity or not-a-number in
    NumPy; the infinities are not represented, and every divisor met in the
    program is shown to be non-zero where it matters. *)
Definition div (a b : float) : float :=
  match a, b with
  | Fin x, Fin y => if Reqb y 0 then NaN else Fin (x / y)
  | _, _ => NaN
  end.

(** [np.sqrt]: not-a-number on a negative argument. *)
Definition sqrt (a : float) : float :=
  match a with
  | Fin x => if Rltb x 0 then NaN else Fin (R_sqrt.sqrt x)
  | NaN => NaN
  end.

(** Comparisons: every comparison with not-a-number is false. *)
Definition lt (a b : float) : bool :=
  match a, b with Fin x, Fin y => Rltb x y | _, _ => false end.
Definition le (a b : float) : bool :=
  match a, b with Fin x, Fin y => Rleb x y | _, _ => false end.
Definition gt (a b : float) : bool := lt b a.
Definition ge (a b : float) : bool := le b a.

(** Python truthiness of a float: anything but zero. *)
Definition truthy (a : float) : bool :=
  match a with Fin x => negb (Reqb x 0) | NaN => true end.

Definition of_Z (z : Z) : float := Fin (IZR z).

(** Python float division [a / b]: raises on a zero divisor. *)
Definition pydiv (a b : float) : result float :=
  match b with
  | Fin y => if Reqb y 0 then Raise ZeroDivisionError else Ok (div a b)
  | NaN => Ok NaN
  end.

(** Truncation toward zero of a real number. *)
Definition trunc (x : R) : Z :=
  if Rleb 0 x then Int_part x else (- Int_part (- x))%Z.

(** Python [int(a)]: truncation toward zero; raises on not-a-number. *)
Definition to_int (a : float) : result Z :=
  match a with
  | Fin x => Ok (trunc x)
  | NaN => Raise ValueError
  end.

End F.

Declare Scope float_scope.
Delimit Scope float_scope with float.
Infix "+" := F.add : float_scope.
Infix "-" := F.sub : float_scope.
Infix "*" := F.mul : float_scope.
Infix "/" := F.div : float_scope.

(* ------------------------------------------------------------------ *)
(** * Python sequences *)

(** [arr[i]] for a Python integer index: a negative index counts from the
    end, an index out of range raises. *)
Definition getitem {A} (arr : list A) (i : Z) : result A :=
  let n := Z.of_nat (length arr) in
  let j := if (i <? 0)%Z then (i + n)%Z else i in
  if ((0 <=? j) && (j <? n))%Z
  then match nth_error arr (Z.to_nat j) with
       | Some a => Ok a
       | None => Raise IndexError
       end
  else Raise IndexError.

Definition len {A} (arr : list A) : Z := Z.of_nat (length arr).

(** [range(a, b)] *)
Definition range (a b : Z) : list Z :=
  map (fun k => (a + Z.of_nat k)%Z) (seq 0 (Z.to_nat (b - a))).

Lemma getitem_Ok {A} (arr : list A) (i : Z) :
  (0 <= i < len arr)%Z ->
  exists a, getitem arr i = Ok a /\ nth_error arr (Z.to_nat i) = Some a.
Proof.
  intros [H0 H1]. unfold getitem, len in *.
  destruct (Z.ltb_spec i 0); [lia|].
  destruct (Z.leb_spec 0 i); [|lia].
  destruct (Z.ltb_spec i (Z.of_nat (length arr))); [|lia]. simpl.
  destruct (nth_error arr (Z.to_nat i)) eqn:E.
  - eauto.
  - apply nth_error_None in E. lia.
Qed.

Lemma in_range a b i : In i (range a b) <-> (a <= i < b)%Z.
Proof.
  unfold range. rewrite in_map_iff. split.
  - intros [k [<- Hk]]. apply in_seq in Hk. lia.
  - intros H. exists (Z.to_nat (i - a)). split; [lia|].
    apply in_seq. lia.
Qed.

(** Element-wise arithmetic on two arrays: NumPy raises on a shape mismatch
    (no array of a single element meets one of another length here). *)
Definition zip_with {A B C} (op : A -> B -> C) (u : list A) (v : list B)
  : result (list C) :=
  if Nat.eqb (length u) (length v)
  then Ok (map (fun p => op (fst p) (snd p)) (combine u v))
  else Raise ValueError.

(* ------------------------------------------------------------------ *)
(** * Python strings and dictionaries *)

Open Scope string_scope.

(** ASCII white space, as [str.split()] and [str.strip()] see it. *)
Definition isspace (c : ascii) : bool :=
  let n := nat_of_ascii c in
  ((9 <=? n) && (n <=? 13) || (28 <=? n) && (n <=? 32))%nat.

(** [s.split()]: the maximal runs of characters that are not white space *)
Fixpoint split_ws (s : string) : list string :=
  match s with
  | EmptyString => []
  | String c s' =>
      if isspace c then split_ws s'
      else match s' with
           | EmptyString => [String c EmptyString]
           | String c' _ =>
               if isspace c' then String c EmptyString :: split_ws s'
               else match split_ws s' with
                    | w :: ws => String c w :: ws
                    | [] => [String c EmptyString]
                    end
           end
  end.

(** [s.split(sep)] for a one-character separator *)
Fixpoint split_on (sep : ascii) (s : string) : list string :=
  match s with
  | EmptyString => [EmptyString]
  | String c s' =>
      if Ascii.eqb c sep then EmptyString :: split_on sep s'
      else match split_on sep s' with
           | w :: ws => String c w :: ws
           | [] => [String c EmptyString]
           end
  end.

Fixpoint lstrip (s : string) : string :=
  match s with
  | EmptyString => EmptyString
  | String c s' => if isspace c then lstrip s' else s
  end.

Fixpoint rstrip (s : string) : string :=
  match s with
  | EmptyString => EmptyString
  | String c s' =>
      match rstrip s' with
      | EmptyString => if isspace c then EmptyString else String c EmptyString
      | r => String c r
      end
  end.

(** [s.strip()] *)
Definition strip (s : string) : string := lstrip (rstrip s).

(** [f.readlines()]: the lines of a text, each with its line end *)
Fixpoint readlines (s : string) : list string :=
  match s with
  | EmptyString => []
  | String c s' =>
      if Ascii.eqb c "010" then String c EmptyString :: readlines s'
      else match readlines s' with
           | l :: ls => String c l :: ls
           | [] => [String c EmptyString]
           end
  end.

(** truthiness of a string: it is not empty *)
Definition nonempty (s : string) : bool :=
  match s with EmptyString => false | String _ _ => true end.

Definition str_in (s : string) (l : list string) : bool :=
  existsb (String.eqb s) l.

(** A Python dictionary with string keys: the items in insertion order, a
    key at most once. *)
Definition dict (V : Type) : Type := list (string * V).

(** [d[k] = v]: a key already present keeps its place *)
Fixpoint dict_set {V} (d : dict V) (k : string) (v : V) : dict V :=
  match d with
  | [] => [(k, v)]
  | (k', v') :: d' =>
      if String.eqb k' k then (k, v) :: d' else (k', v') :: dict_set d' k v
  end.

(** [d.get(k)] *)
Fixpoint dict_get {V} (d : dict V) (k : string) : option V :=
  match d with
  | [] => None
  | (k', v) :: d' => if String.eqb k' k then Some v else dict_get d' k
  end.

(** [d[k]] *)
Definition dict_getitem {V} (d : dict V) (k : string) : result V :=
  match dict_get d k with
  | Some v => Ok v
  | None => Raise KeyError
  end.

(** [k in d] *)
Definition dict_in {V} (k : string) (d : dict V) : bool :=
  match dict_get d k with Some _ => true | None => false end.

(* ------------------------------------------------------------------ *)
(** * Data loaders: [Sports2DLoader.load_trc] *)

(** [{'x': ..., 'y': ...}] of one marker *)
Module Marker.
Record t : Type := mk { x : list float; y : list float }.
End Marker.

(** the dictionary returned by [load_trc] *)
Module Trc.
Record t : Type := mk {
  frame_count : Z;
  data_rate : float;
  markers : dict Marker.t;
  marker_list : list string;
  time : list float
}.
End Trc.

Section Loader.

Open Scope result_scope.

(** The file system and the parsers of Python and pandas are library
    routines; the loader is parametric in them. *)

(** [open(filepath, 'r')] followed by reading the whole text *)
Variable open_read : string -> result string.
(** [float(s)] and [int(s)] on a string *)
Variable float_of_string : string -> result float.
Variable int_of_string : string -> result Z.
(** [pd.read_csv(filepath, sep='\t', skiprows=n, header=None)]: the columns
    of the table *)
Variable column : Type.
Variable read_csv : string -> nat -> result (list column).
(** [col.values.astype(float)] *)
Variable astype_float : column -> result (list float).

(** [data.iloc[:, c].values.astype(float)] *)
Definition iloc_float (data : list column) (c : Z) : result (list float) :=
  col <- getitem data c ;; astype_float col.

(** [[n.strip() for n in raw if n.strip() and n.strip() not in
     ['Frame#', 'Time']]] *)
Definition marker_names_of (marker_names_raw : list string) : list string :=
  map strip
    (filter (fun n => nonempty (strip n)
                      && negb (str_in (strip n) ["Frame#"; "Time"]))
            marker_names_raw).

(** [for i, name in enumerate(marker_names): ...], from position [i] on *)
Fixpoint load_markers (data : list column) (names : list string) (i : Z)
  (markers_data : dict Marker.t) : result (dict Marker.t) :=
  match names with
  | [] => Ok markers_data
  | name :: rest =>
      let x_col := (i * 3 + 2)%Z in
      let y_col := (i * 3 + 3)%Z in
      xs <- iloc_float data x_col ;;
      ys <- iloc_float data y_col ;;
      load_markers data rest (i + 1)
        (dict_set markers_data name (Marker.mk xs ys))
  end.

Definition load_trc (filepath : string) : option Trc.t :=
  except_None
    (content <- open_read filepath ;;
     let lines := readlines content in
     line2 <- getitem lines 2 ;;
     let header_vals := split_ws line2 in
     tok0 <- getitem header_vals 0 ;;
     data_rate <- float_of_string tok0 ;;
     tok2 <- getitem header_vals 2 ;;
     num_frames <- int_of_string tok2 ;;
     line3 <- getitem lines 3 ;;
     let marker_names_raw := split_on "009" line3 in
     let marker_names := marker_names_of marker_names_raw in
     data <- read_csv filepath 5 ;;
     markers_data <- load_markers data marker_names 0 [] ;;
     time <- iloc_float data 1 ;;
     Ok (Trc.mk num_frames data_rate markers_data marker_names time)).

End Loader.

Close Scope string_scope.

(* ------------------------------------------------------------------ *)
(** * Numerical routines of NumPy and SciPy *)

Module Np.

(** [np.gradient(f, dt)] on a one-dimensional array with uniform spacing:
    central differences inside, one-sided differences at both ends; fewer
    than two samples raise. *)
Definition gradient (f : list float) (dt : float) : result (list float) :=
  let n := length f in
  if (n <? 2)%nat then Raise ValueError
  else Ok (map (fun i =>
         if (i =? 0)%nat
         then ((nth 1 f NaN - nth 0 f NaN) / dt)%float
         else if (i =? n - 1)%nat
         then ((nth (n - 1) f NaN - nth (n - 2) f NaN) / dt)%float
         else ((nth (i + 1) f NaN - nth (i - 1) f NaN) / (Fin 2 * dt))%float)
       (seq 0 n)).

(** [np.sqrt(u**2 + v**2)] *)
Definition magnitude (u v : list float) : result (list float) :=
  zip_with (fun a b => F.sqrt (a * a + b * b)%float) u v.

(** [np.hypot(a, b)] *)
Definition hypot (a b : float) : float := F.sqrt (a * a + b * b)%float.

End Np.

(** [scipy.signal.savgol_filter(x, 11, 3)] with its default mode: every
    output sample is the value of the least-squares cubic fitted to an
    11-sample window.  Inside, the window is centred on the sample and the
    value is the convolution with the filter coefficients; for the first and
    the last five samples the cubic is fitted to the first, respectively the
    last, eleven samples and evaluated at the sample's position.  The fit is
    written in a basis of cubics that are orthogonal over the window
    positions, so that its coefficients are plain projections.  The window
    length 11 and the degree 3 are the arguments of the repository's only
    call; the model is of the filter at these arguments. *)
Module SciPy.

(** weighted sum of a window *)
Definition dot (c : list R) (w : list float) : float :=
  fold_right F.add (Fin 0)
    (map (fun p => (Fin (fst p) * snd p)%float) (combine c w)).

(** [savgol_coeffs(11, 3)] *)
Definition coeffs : list R :=
  map (fun c => (IZR c / 429)%R) [-36; 9; 44; 69; 84; 89; 84; 69; 44; 9; -36]%Z.

(** orthogonal basis over the window positions 0 .. 10 *)
Definition basis (k : nat) (p : nat) : R :=
  let t := (IZR (Z.of_nat p) - 5)%R in
  match k with
  | 0 => 1
  | 1 => t
  | 2 => t * t - 10
  | _ => 5 * t * t * t - 89 * t
  end%R.

Definition norm2 (k : nat) : R :=
  match k with
  | 0 => 11
  | 1 => 110
  | 2 => 858
  | _ => 154440
  end%R.

Definition positions : list nat := seq 0 11.

(** least-squares cubic through a window: its coefficients in [basis] *)
Definition polyfit (w : list float) : list float :=
  map (fun k => (dot (map (basis k) positions) w / Fin (norm2 k))%float)
      (seq 0 4).

(** value of the fitted cubic at window position [p] *)
Definition polyval (c : list float) (p : nat) : float :=
  dot (map (fun k => basis k p) (seq 0 4)) c.

Definition savgol_filter (x : list float) (window_length polyorder : nat)
  : list float :=
  let n := length x in
  let head := polyfit (firstn 11 x) in
  let tail := polyfit (skipn (n - 11) x) in
  map (fun i =>
         if (i <? 5)%nat then polyval head i
         else if (n - 5 <=? i)%nat then polyval tail (i - (n - 11))
         else dot coeffs (firstn 11 (skipn (i - 5) x)))
      (seq 0 n).

End SciPy.

(* ------------------------------------------------------------------ *)
(** * Marker-to-angle mapping and smoothing *)

Definition MARKER_TO_ANGLE : list (string * string) :=
  [ ("RAnkle", "right ankle"); ("LAnkle", "left ankle");
    ("RKnee", "right knee"); ("LKnee", "left knee");
    ("RHip", "right hip"); ("LHip", "left hip");
    ("RShoulder", "right shoulder"); ("LShoulder", "left shoulder");
    ("RElbow", "right elbow"); ("LElbow", "left elbow");
    ("RWrist", "right forearm"); ("LWrist", "left forearm");
    ("RBigToe", "right foot"); ("RSmallToe", "right foot");
    ("RHeel", "right foot");
    ("LBigToe", "left foot"); ("LSmallToe", "left foot");
    ("LHeel", "left foot");
    ("Hip", "pelvis"); ("Neck", "trunk"); ("Head", "head");
    ("Nose", "head") ]%string.

Section Smooth.

(** SciPy's filter is a library routine; [smooth] is parametric in it. *)
Variable savgol_filter : list float -> nat -> nat -> list float.

(** [def smooth(arr, win=11, poly=3)] *)
Definition smooth (arr : list float) (win poly : nat) : list float :=
  if (win <? length arr)%nat
  then savgol_filter arr win poly
  else arr.

(** a call [smooth(arr)] with the default arguments *)
Definition smooth_default (arr : list float) : list float := smooth arr 11 3.

End Smooth.

(* ------------------------------------------------------------------ *)
(** * The application object: [Sports2DApp] *)

Open Scope string_scope.
Open Scope list_scope.

(** the dictionary returned by [load_mot] *)
Module Mot.
Record t : Type := mk {
  angles : dict (list float);
  angle_list : list string;
  time : list float
}.
End Mot.

(** A decoded frame, of which only the shape is used, and an opened video
    ([cv2.VideoCapture]): [read_at idx] is the outcome of positioning the
    capture on frame [idx] and reading, [None] when the read fails. *)
Record Frame : Type := mkFrame { frame_h : Z; frame_w : Z }.

Record VideoCapture : Type := mkCap { read_at : Z -> option Frame }.

(** [QPoint] *)
Definition QPoint : Type := (Z * Z)%type.

Definition color : Type := (Z * Z * Z)%type.

(** text drawn on a frame: a marker name, or an angle in degrees *)
Inductive caption : Type :=
| Name (s : string)
| Degrees (ang : R).

(** the drawing calls made on a frame, in order *)
Inductive prim : Type :=
| Line (p1 p2 : Z * Z) (clr : color) (thickness : Z)
| Circle (center : Z * Z) (radius : Z) (clr : color)
| PutText (text : caption) (org : Z * Z) (clr : color).

(** texts of the status label that the modelled methods set *)
Inductive status : Type :=
| StatusOther
| LineTooShort
| Calibrated (px_per_m : float)
| CalibrationCancelled.

Inductive cache_key : Type :=
| k_time | k_vx | k_vy | k_vtotal | k_ax | k_ay | k_atotal
| k_angle | k_ang_vel | k_ang_acc.

Definition cache_key_eqb (a b : cache_key) : bool :=
  match a, b with
  | k_time, k_time | k_vx, k_vx | k_vy, k_vy | k_vtotal, k_vtotal
  | k_ax, k_ax | k_ay, k_ay | k_atotal, k_atotal
  | k_angle, k_angle | k_ang_vel, k_ang_vel | k_ang_acc, k_ang_acc => true
  | _, _ => false
  end.

(** The attributes of the object that the application logic reads or
    writes.  Widgets whose content no computation reads back (graphs, stat
    labels, the time label, the calibration line painted on the label) are
    left out. *)
Record app : Type := mkApp {
  trc_data : option Trc.t;
  mot_data : option Mot.t;
  current_frame : Z;
  total_frames : Z;
  fps : float;
  cap : option VideoCapture;
  (** the interval, in milliseconds, while the timer is active *)
  timer : option Z;
  selected_joint : option string;
  px_per_unit : option float;
  unit_name : string;
  show_trajectory : bool;
  show_relative_trajectory : bool;
  (** the cached kinematics series, [None] when unset *)
  _cache : cache_key -> option (list float);
  _cache_angle_name : option string;
  scale_factor : float;
  offset_x : Z;
  offset_y : Z;
  (** text of the status label *)
  status_lbl : status;
  (** value of the frame slider *)
  slider : Z;
  (** overlay drawn on the frame shown in the video label *)
  pixmap : option (list prim);
  (** width and height of the video label *)
  label_size : Z * Z
}.

(** Attribute assignment [self.f = v], one function per assigned attribute. *)

Definition set_current_frame (v : Z) (s : app) : app :=
  mkApp (trc_data s) (mot_data s) v (total_frames s) (fps s) (cap s)
    (timer s) (selected_joint s) (px_per_unit s) (unit_name s)
    (show_trajectory s) (show_relative_trajectory s) (_cache s)
    (_cache_angle_name s) (scale_factor s) (offset_x s) (offset_y s)
    (status_lbl s) (slider s) (pixmap s) (label_size s).

Definition set_timer (v : option Z) (s : app) : app :=
  mkApp (trc_data s) (mot_data s) (current_frame s) (total_frames s) (fps s)
    (cap s) v (selected_joint s) (px_per_unit s) (unit_name s)
    (show_trajectory s) (show_relative_trajectory s) (_cache s)
    (_cache_angle_name s) (scale_factor s) (offset_x s) (offset_y s)
    (status_lbl s) (slider s) (pixmap s) (label_size s).

Definition set_selected_joint (v : option string) (s : app) : app :=
  mkApp (trc_data s) (mot_data s) (current_frame s) (total_frames s) (fps s)
    (cap s) (timer s) v (px_per_unit s) (unit_name s) (show_trajectory s)
    (show_relative_trajectory s) (_cache s) (_cache_angle_name s)
    (scale_factor s) (offset_x s) (offset_y s) (status_lbl s) (slider s)
    (pixmap s) (label_size s).

Definition set_px_per_unit (v : option float) (s : app) : app :=
  mkApp (trc_data s) (mot_data s) (current_frame s) (total_frames s) (fps s)
    (cap s) (timer s) (selected_joint s) v (unit_name s) (show_trajectory s)
    (show_relative_trajectory s) (_cache s) (_cache_angle_name s)
    (scale_factor s) (offset_x s) (offset_y s) (status_lbl s) (slider s)
    (pixmap s) (label_size s).

Definition set_unit_name (v : string) (s : app) : app :=
  mkApp (trc_data s) (mot_data s) (current_frame s) (total_frames s) (fps s)
    (cap s) (timer s) (selected_joint s) (px_per_unit s) v
    (show_trajectory s) (show_relative_trajectory s) (_cache s)
    (_cache_angle_name s) (scale_factor s) (offset_x s) (offset_y s)
    (status_lbl s) (slider s) (pixmap s) (label_size s).

Definition set_cache (v : cache_key -> option (list float)) (s : app) : app :=
  mkApp (trc_data s) (mot_data s) (current_frame s) (total_frames s) (fps s)
    (cap s) (timer s) (selected_joint s) (px_per_unit s) (unit_name s)
    (show_trajectory s) (show_relative_trajectory s) v (_cache_angle_name s)
    (scale_factor s) (offset_x s) (offset_y s) (status_lbl s) (slider s)
    (pixmap s) (label_size s).

Definition set_cache_angle_name (v : option string) (s : app) : app :=
  mkApp (trc_data s) (mot_data s) (current_frame s) (total_frames s) (fps s)
    (cap s) (timer s) (selected_joint s) (px_per_unit s) (unit_name s)
    (show_trajectory s) (show_relative_trajectory s) (_cache s) v
    (scale_factor s) (offset_x s) (offset_y s) (status_lbl s) (slider s)
    (pixmap s) (label_size s).

Definition set_scale_factor (v : float) (s : app) : app :=
  mkApp (trc_data s) (mot_data s) (current_frame s) (total_frames s) (fps s)
    (cap s) (timer s) (selected_joint s) (px_per_unit s) (unit_name s)
    (show_trajectory s) (show_relative_trajectory s) (_cache s)
    (_cache_angle_name s) v (offset_x s) (offset_y s) (status_lbl s)
    (slider s) (pixmap s) (label_size s).

Definition set_offset_x (v : Z) (s : app) : app :=
  mkApp (trc_data s) (mot_data s) (current_frame s) (total_frames s) (fps s)
    (cap s) (timer s) (selected_joint s) (px_per_unit s) (unit_name s)
    (show_trajectory s) (show_relative_trajectory s) (_cache s)
    (_cache_angle_name s) (scale_factor s) v (offset_y s) (status_lbl s)
    (slider s) (pixmap s) (label_size s).

Definition set_offset_y (v : Z) (s : app) : app :=
  mkApp (trc_data s) (mot_data s) (current_frame s) (total_frames s) (fps s)
    (cap s) (timer s) (selected_joint s) (px_per_unit s) (unit_name s)
    (show_trajectory s) (show_relative_trajectory s) (_cache s)
    (_cache_angle_name s) (scale_factor s) (offset_x s) v (status_lbl s)
    (slider s) (pixmap s) (label_size s).

Definition set_status_lbl (v : status) (s : app) : app :=
  mkApp (trc_data s) (mot_data s) (current_frame s) (total_frames s) (fps s)
    (cap s) (timer s) (selected_joint s) (px_per_unit s) (unit_name s)
    (show_trajectory s) (show_relative_trajectory s) (_cache s)
    (_cache_angle_name s) (scale_factor s) (offset_x s) (offset_y s) v
    (slider s) (pixmap s) (label_size s).

Definition set_slider (v : Z) (s : app) : app :=
  mkApp (trc_data s) (mot_data s) (current_frame s) (total_frames s) (fps s)
    (cap s) (timer s) (selected_joint s) (px_per_unit s) (unit_name s)
    (show_trajectory s) (show_relative_trajectory s) (_cache s)
    (_cache_angle_name s) (scale_factor s) (offset_x s) (offset_y s)
    (status_lbl s) v (pixmap s) (label_size s).

Definition set_pixmap (v : option (list prim)) (s : app) : app :=
  mkApp (trc_data s) (mot_data s) (current_frame s) (total_frames s) (fps s)
    (cap s) (timer s) (selected_joint s) (px_per_unit s) (unit_name s)
    (show_trajectory s) (show_relative_trajectory s) (_cache s)
    (_cache_angle_name s) (scale_factor s) (offset_x s) (offset_y s)
    (status_lbl s) (slider s) v (label_size s).
Definition _cache_time (s : app) := _cache s k_time.
Definition _cache_vx (s : app) := _cache s k_vx.
Definition _cache_vy (s : app) := _cache s k_vy.
Definition _cache_vtotal (s : app) := _cache s k_vtotal.
Definition _cache_ax (s : app) := _cache s k_ax.
Definition _cache_ay (s : app) := _cache s k_ay.
Definition _cache_atotal (s : app) := _cache s k_atotal.
Definition _cache_angle (s : app) := _cache s k_angle.
Definition _cache_ang_vel (s : app) := _cache s k_ang_vel.
Definition _cache_ang_acc (s : app) := _cache s k_ang_acc.

(** [self._cache_k = v] *)
Definition assign_cache (k : cache_key) (v : option (list float)) (s : app)
  : app :=
  set_cache (fun k' => if cache_key_eqb k' k then v else _cache s k') s.

(** ** Methods: state with exceptions *)

Definition M (A : Type) : Type := app -> app * result A.

Definition ret {A} (a : A) : M A := fun s => (s, Ok a).

Definition bind {A B} (m : M A) (k : A -> M B) : M B :=
  fun s =>
    match m s with
    | (s', Ok a) => k a s'
    | (s', Raise e) => (s', Raise e)
    end.

Definition get : M app := fun s => (s, Ok s).
Definition modify (f : app -> app) : M unit := fun s => (f s, Ok tt).
Definition lift {A} (r : result A) : M A := fun s => (s, r).

Declare Scope method_scope.
Delimit Scope method_scope with method.
Notation "x <- m ;; k" := (bind m (fun x => k))
  (at level 61, m at next level, right associativity) : method_scope.
Notation "m ;; k" := (bind m (fun _ => k))
  (at level 61, right associativity) : method_scope.

(** a [for] loop whose body appends drawing calls and may raise *)
Fixpoint for_each {A B} (l : list A) (body : A -> result (list B))
  : result (list B) :=
  match l with
  | [] => Ok []
  | a :: l' =>
      (out <- body a ;; rest <- for_each l' body ;; Ok (out ++ rest))%result
  end.

(** ** Calibration: [_scale_val] *)

Definition calibrated (s : app) : option float :=
  match px_per_unit s with
  | Some p => if F.truthy p then Some p else None
  | None => None
  end.

Definition _scale_val (s : app) (px_val : float) : float :=
  match calibrated s with
  | Some p => (px_val / p)%float
  | None => px_val
  end.

(** ** Frame rendering: [_draw_overlays] *)

Definition SKELETON_CONNECTIONS : list (string * string) :=
  [ ("Nose", "Neck"); ("Neck", "Head");
    ("Neck", "RShoulder"); ("RShoulder", "RElbow"); ("RElbow", "RWrist");
    ("Neck", "LShoulder"); ("LShoulder", "LElbow"); ("LElbow", "LWrist");
    ("Neck", "Hip");
    ("Hip", "RHip"); ("RHip", "RKnee"); ("RKnee", "RAnkle");
    ("RAnkle", "RHeel"); ("RAnkle", "RBigToe"); ("RAnkle", "RSmallToe");
    ("Hip", "LHip"); ("LHip", "LKnee"); ("LKnee", "LAnkle");
    ("LAnkle", "LHeel"); ("LAnkle", "LBigToe"); ("LAnkle", "LSmallToe") ].

Definition CLR_BONE : color := (180, 180, 180)%Z.
Definition CLR_DOT : color := (255, 255, 255)%Z.
Definition CLR_SEL : color := (80, 255, 80)%Z.

(** [(int(x), int(y))] *)
Definition int_point (x y : float) : result (Z * Z) :=
  (xi <- F.to_int x ;; yi <- F.to_int y ;; Ok (xi, yi))%result.

(** [x1 > 0 and x2 > 0 and not (np.isnan(x1) or np.isnan(x2))] *)
Definition both_present (x1 x2 : float) : bool :=
  F.gt x1 (Fin 0) && F.gt x2 (Fin 0) && negb (F.isnan x1 || F.isnan x2).

(** [x <= 0 or np.isnan(x)] *)
Definition absent (x : float) : bool := F.le x (Fin 0) || F.isnan x.

(** the selected joint, when it is set and one of the markers *)
Definition selected_marker (s : app) (markers : dict Marker.t)
  : option (string * Marker.t) :=
  match selected_joint s with
  | Some j =>
      if nonempty j
      then match dict_get markers j with
           | Some c => Some (j, c)
           | None => None
           end
      else None
  | None => None
  end.

Section Overlays.

Open Scope result_scope.
Open Scope Z_scope.

(** one iteration of the absolute-trail loop *)
Definition trail_step (c : Marker.t) (idx trail_len i : Z)
  : result (list prim) :=
  if (i <? len (Marker.x c)) && (i + 1 <? len (Marker.x c)) then
    x1 <- getitem (Marker.x c) i ;;
    y1 <- getitem (Marker.y c) i ;;
    x2 <- getitem (Marker.x c) (i + 1) ;;
    y2 <- getitem (Marker.y c) (i + 1) ;;
    if both_present x1 x2 then
      let alpha :=
        Z.quot (255 * (i - (idx - trail_len))) (Z.max trail_len 1) in
      let clr := (Z.min 255 alpha, 200, 80) in
      p1 <- int_point x1 y1 ;;
      p2 <- int_point x2 y2 ;;
      Ok [Line p1 p2 clr 2]
    else Ok []
  else Ok [].

Definition draw_trajectory (c : Marker.t) (idx : Z) : result (list prim) :=
  let trail_len := Z.min 60 idx in
  for_each (range (Z.max 0 (idx - trail_len)) idx)
           (trail_step c idx trail_len).

(** the two recentred end points of one relative-trail segment, before
    conversion to pixels; [None] when the iteration is skipped *)
Definition relative_points (c hip : Marker.t) (hip_x hip_y : float) (i : Z)
  : result (option ((float * float) * (float * float))) :=
  if (i >=? len (Marker.x c)) || (i + 1 >=? len (Marker.x c))
     || (i >=? len (Marker.x hip))
  then Ok None
  else
    hx_i <- getitem (Marker.x hip) i ;;
    hy_i <- getitem (Marker.y hip) i ;;
    if absent hx_i then Ok None
    else
      cx_i <- getitem (Marker.x c) i ;;
      let rx1 := (cx_i - hx_i + hip_x)%float in
      cy_i <- getitem (Marker.y c) i ;;
      let ry1 := (cy_i - hy_i + hip_y)%float in
      let j := Z.min (i + 1) (len (Marker.x c) - 1) in
      hx_j <- getitem (Marker.x hip) (Z.min j (len (Marker.x hip) - 1)) ;;
      hy_j <- getitem (Marker.y hip) (Z.min j (len (Marker.y hip) - 1)) ;;
      cx_j <- getitem (Marker.x c) j ;;
      let rx2 := (cx_j - hx_j + hip_x)%float in
      cy_j <- getitem (Marker.y c) j ;;
      let ry2 := (cy_j - hy_j + hip_y)%float in
      Ok (Some ((rx1, ry1), (rx2, ry2))).

(** one iteration of the relative-trail loop *)
Definition relative_step (c hip : Marker.t) (hip_x hip_y : float) (i : Z)
  : result (list prim) :=
  pts <- relative_points c hip hip_x hip_y i ;;
  match pts with
  | None => Ok []
  | Some ((rx1, ry1), (rx2, ry2)) =>
      p1 <- int_point rx1 ry1 ;;
      p2 <- int_point rx2 ry2 ;;
      Ok [Line p1 p2 (80, 200, 255) 2]
  end.

Definition draw_relative_trajectory (markers : dict Marker.t) (c : Marker.t)
  (idx : Z) : result (list prim) :=
  match dict_get markers "Hip" with
  | None => Ok []
  | Some hip =>
      if idx <? len (Marker.x hip) then
        hip_x <- getitem (Marker.x hip) idx ;;
        hip_y <- getitem (Marker.y hip) idx ;;
        if F.gt hip_x (Fin 0) && negb (F.isnan hip_x) then
          let trail_len := Z.min 60 idx in
          for_each (range (Z.max 0 (idx - trail_len)) idx)
                   (relative_step c hip hip_x hip_y)
        else Ok []
      else Ok []
  end.

(** one iteration of the skeleton loop *)
Definition bone_step (markers : dict Marker.t) (idx : Z)
  (bone : string * string) : result (list prim) :=
  let (a, b) := bone in
  match dict_get markers a, dict_get markers b with
  | Some ma, Some mb =>
      if (idx <? len (Marker.x ma)) && (idx <? len (Marker.x mb)) then
        x1 <- getitem (Marker.x ma) idx ;;
        y1 <- getitem (Marker.y ma) idx ;;
        x2 <- getitem (Marker.x mb) idx ;;
        y2 <- getitem (Marker.y mb) idx ;;
        if both_present x1 x2 then
          p1 <- int_point x1 y1 ;;
          p2 <- int_point x2 y2 ;;
          Ok [Line p1 p2 CLR_BONE 2]
        else Ok []
      else Ok []
  | _, _ => Ok []
  end.

Definition draw_skeleton (markers : dict Marker.t) (idx : Z)
  : result (list prim) :=
  for_each SKELETON_CONNECTIONS (bone_step markers idx).

(** the angle caption of the selected marker *)
Definition angle_text (s : app) (idx : Z) (xi yi : Z) : result (list prim) :=
  match _cache_angle s with
  | Some angle =>
      if idx <? len angle then
        ang <- getitem angle idx ;;
        match ang with
        | Fin a => Ok [PutText (Degrees a) (xi + 14, yi + 18) (80, 200, 255)]
        | NaN => Ok []
        end
      else Ok []
  | None => Ok []
  end.

(** one iteration of the dots-and-labels loop *)
Definition dot_step (s : app) (idx : Z) (item : string * Marker.t)
  : result (list prim) :=
  let (name, c) := item in
  if idx <? len (Marker.x c) then
    x <- getitem (Marker.x c) idx ;;
    y <- getitem (Marker.y c) idx ;;
    if absent x then Ok []
    else
      match selected_joint s with
      | Some j =>
          if String.eqb name j then
            xi <- F.to_int x ;;
            yi <- F.to_int y ;;
            txt <- angle_text s idx xi yi ;;
            Ok (Circle (xi, yi) 9 CLR_SEL
                  :: PutText (Name name) (xi + 14, yi - 14) CLR_SEL :: txt)
          else
            p <- int_point x y ;; Ok [Circle p 4 CLR_DOT]
      | None =>
          p <- int_point x y ;; Ok [Circle p 4 CLR_DOT]
      end
  else Ok [].

Definition draw_dots (s : app) (markers : dict Marker.t) (idx : Z)
  : result (list prim) :=
  for_each markers (dot_step s idx).

(** [_draw_overlays(frame, idx)]: the drawing calls made on the frame *)
Definition _draw_overlays (s : app) (idx : Z) : result (list prim) :=
  match trc_data s with
  | None => Ok []
  | Some trc =>
      let markers := Trc.markers trc in
      trails <-
        match selected_marker s markers with
        | Some (_, c) =>
            t1 <- (if show_trajectory s then draw_trajectory c idx
                   else Ok []) ;;
            t2 <- (if show_relative_trajectory s
                   then draw_relative_trajectory markers c idx
                   else Ok []) ;;
            Ok (t1 ++ t2)
        | None => Ok []
        end ;;
      bones <- draw_skeleton markers idx ;;
      dots <- draw_dots s markers idx ;;
      Ok (trails ++ bones ++ dots)
  end.

End Overlays.

Section Methods.

(** SciPy's filter, as in [smooth]. *)
Variable savgol_filter : list float -> nat -> nat -> list float.

Open Scope method_scope.
Open Scope Z_scope.

(** ** Frame rendering: [_set_frame] *)

(** the size of the picture scaled to fit the label, from the frame shape
    [(h, w)] and the label size *)
Definition fit_to_label (h w lw lh : Z) : result (Z * Z) :=
  (ia <- F.pydiv (F.of_Z w) (F.of_Z h) ;;
   la <- F.pydiv (F.of_Z lw) (F.of_Z lh) ;;
   if F.gt ia la then
     q <- F.pydiv (F.of_Z lw) ia ;;
     sh <- F.to_int q ;;
     Ok (lw, sh)
   else
     sw <- F.to_int (F.of_Z lh * ia)%float ;;
     Ok (sw, lh))%result.

(** The time label, the graph cursors and [_update_stats] only write to
    widgets and are not modelled. *)
Definition _set_frame (idx : Z) : M unit :=
  s <- get ;;
  match cap s with
  | None => ret tt
  | Some video =>
      if (idx <? 0) || (idx >=? total_frames s) then ret tt
      else
        modify (set_current_frame idx) ;;
        match read_at video idx with
        | None => ret tt
        | Some frame =>
            s <- get ;;
            drawn <- lift (_draw_overlays s idx) ;;
            let h := frame_h frame in
            let w := frame_w frame in
            let (lw, lh) :=
              let (lw, lh) := label_size s in
              if (lw <=? 0) || (lh <=? 0) then (750, 480) else (lw, lh) in
            sz <- lift (fit_to_label h w lw lh) ;;
            let (sw, sh) := sz in
            sf <- lift (F.pydiv (F.of_Z sw) (F.of_Z w)) ;;
            modify (set_scale_factor sf) ;;
            modify (set_offset_x ((lw - sw) / 2)) ;;
            modify (set_offset_y ((lh - sh) / 2)) ;;
            modify (set_pixmap (Some drawn)) ;;
            modify (set_slider idx)
        end
  end.

(** ** Kinematics: [_compute_kinematics] *)

Definition _compute_kinematics : M unit :=
  s <- get ;;
  match selected_joint s, trc_data s with
  | Some joint, Some trc =>
      if negb (nonempty joint) then ret tt
      else
        c <- lift (dict_getitem (Trc.markers trc) joint) ;;
        dt <- lift (F.pydiv (Fin 1) (Trc.data_rate trc)) ;;
        let t := Trc.time trc in
        modify (assign_cache k_time (Some t)) ;;
        let sc :=
          match calibrated s with
          | Some p => (Fin 1 / p)%float
          | None => Fin 1
          end in
        vx <- lift (Np.gradient (map (fun a => a * sc)%float (Marker.x c)) dt) ;;
        vy <- lift (Np.gradient (map (fun a => a * sc)%float (Marker.y c)) dt) ;;
        let cache_vx := smooth_default savgol_filter vx in
        let cache_vy := smooth_default savgol_filter vy in
        modify (assign_cache k_vx (Some cache_vx)) ;;
        modify (assign_cache k_vy (Some cache_vy)) ;;
        vmag <- lift (Np.magnitude vx vy) ;;
        modify (assign_cache k_vtotal
                  (Some (smooth_default savgol_filter vmag))) ;;
        ax <- lift (Np.gradient cache_vx dt) ;;
        ay <- lift (Np.gradient cache_vy dt) ;;
        modify (assign_cache k_ax (Some (smooth_default savgol_filter ax))) ;;
        modify (assign_cache k_ay (Some (smooth_default savgol_filter ay))) ;;
        amag <- lift (Np.magnitude ax ay) ;;
        modify (assign_cache k_atotal
                  (Some (smooth_default savgol_filter amag))) ;;
        let angle_col := dict_get MARKER_TO_ANGLE joint in
        match angle_col, mot_data s with
        | Some col, Some mot =>
            match (if nonempty col then dict_get (Mot.angles mot) col
                   else None) with
            | Some raw_angle =>
                modify (set_cache_angle_name (Some col)) ;;
                let n := Z.min (len t) (len raw_angle) in
                let angle := firstn (Z.to_nat n) raw_angle in
                modify (assign_cache k_angle (Some angle)) ;;
                ang_vel <- lift (Np.gradient angle dt) ;;
                let cache_ang_vel := smooth_default savgol_filter ang_vel in
                modify (assign_cache k_ang_vel (Some cache_ang_vel)) ;;
                ang_acc <- lift (Np.gradient cache_ang_vel dt) ;;
                modify (assign_cache k_ang_acc
                          (Some (smooth_default savgol_filter ang_acc)))
            | None =>
                modify (set_cache_angle_name None) ;;
                modify (assign_cache k_angle None) ;;
                modify (assign_cache k_ang_vel None) ;;
                modify (assign_cache k_ang_acc None)
            end
        | _, _ =>
            modify (set_cache_angle_name None) ;;
            modify (assign_cache k_angle None) ;;
            modify (assign_cache k_ang_vel None) ;;
            modify (assign_cache k_ang_acc None)
        end
  | _, _ => ret tt
  end.

(** ** Click to select: [_on_video_click] *)

(** display coordinate to frame-pixel coordinate:
    [(p - offset) / self.scale_factor] *)
Definition to_frame (s : app) (p offset : Z) : result float :=
  F.pydiv (F.of_Z (p - offset)) (scale_factor s).

(** one iteration of the scan over the markers: [best] and [best_d] *)
Definition click_step (frame : Z) (vx vy : float)
  (acc : option string * float) (item : string * Marker.t)
  : result (option string * float) :=
  let (best, best_d) := acc in
  let (name, c) := item in
  if frame <? len (Marker.x c) then
    (mx <- getitem (Marker.x c) frame ;;
     my <- getitem (Marker.y c) frame ;;
     if absent mx then Ok (best, best_d)
     else
       let d := Np.hypot (mx - vx)%float (my - vy)%float in
       if F.lt d best_d then Ok (Some name, d) else Ok (best, best_d))%result
  else Ok (best, best_d).

Fixpoint click_scan (items : dict Marker.t) (frame : Z) (vx vy : float)
  (acc : option string * float) : result (option string * float) :=
  match items with
  | [] => Ok acc
  | item :: rest =>
      (acc' <- click_step frame vx vy acc item ;;
       click_scan rest frame vx vy acc')%result
  end.

(** The header label and [_update_all_graphs] only write to widgets and are
    not modelled. *)
Definition _on_video_click (pos : QPoint) : M unit :=
  s <- get ;;
  match trc_data s with
  | None => ret tt
  | Some trc =>
      vx <- lift (to_frame s (fst pos) (offset_x s)) ;;
      vy <- lift (to_frame s (snd pos) (offset_y s)) ;;
      found <- lift (click_scan (Trc.markers trc) (current_frame s) vx vy
                       (None, Fin 50)) ;;
      match fst found with
      | Some best =>
          if nonempty best then
            modify (set_selected_joint (Some best)) ;;
            _compute_kinematics ;;
            s' <- get ;;
            _set_frame (current_frame s')
          else ret tt
      | None => ret tt
      end
  end.

(** ** Calibration: [_on_calibration_line] *)

(** [getDouble] is the answer of the input dialog: the value entered and
    whether the dialog was accepted.  The text on the calibration line,
    [_update_unit_labels] and [_update_all_graphs] only write to widgets and
    are not modelled. *)
Definition _on_calibration_line (p1 p2 : QPoint) (getDouble : float * bool)
  : M unit :=
  s <- get ;;
  vx1 <- lift (to_frame s (fst p1) (offset_x s)) ;;
  vy1 <- lift (to_frame s (snd p1) (offset_y s)) ;;
  vx2 <- lift (to_frame s (fst p2) (offset_x s)) ;;
  vy2 <- lift (to_frame s (snd p2) (offset_y s)) ;;
  let px_dist :=
    F.sqrt ((vx2 - vx1) * (vx2 - vx1) + (vy2 - vy1) * (vy2 - vy1))%float in
  if F.lt px_dist (Fin 5) then
    modify (set_status_lbl LineTooShort)
  else
    let (val, ok) := getDouble in
    if ok && F.gt val (Fin 0) then
      modify (set_px_per_unit (Some (px_dist / val)%float)) ;;
      modify (set_unit_name "m") ;;
      modify (set_status_lbl (Calibrated (px_dist / val)%float)) ;;
      match selected_joint s with
      | Some joint =>
          if nonempty joint then
            _compute_kinematics ;;
            s' <- get ;;
            _set_frame (current_frame s')
          else ret tt
      | None => ret tt
      end
    else
      modify (set_status_lbl CalibrationCancelled).

(** ** Playback: [_toggle_play], [_advance_frame], [_seek] *)

Definition _toggle_play : M unit :=
  s <- get ;;
  match timer s with
  | Some _ => modify (set_timer None)
  | None =>
      match cap s with
      | None => ret tt
      | Some _ =>
          q <- lift (F.pydiv (Fin 1000) (fps s)) ;;
          interval <- lift (F.to_int q) ;;
          modify (set_timer (Some interval))
      end
  end.

(** the slot of the timer's [timeout] signal *)
Definition _advance_frame : M unit :=
  s <- get ;;
  if current_frame s <? total_frames s - 1
  then _set_frame (current_frame s + 1)
  else modify (set_timer None).

Definition _seek (val : Z) : M unit := _set_frame val.

End Methods.

Close Scope string_scope.

(* ------------------------------------------------------------------ *)
(** * Further loaders and methods *)

Open Scope string_scope.

(** ** Data loaders: [Sports2DLoader.load_mot] *)

(** [needle in s] *)
Fixpoint contains (needle s : string) : bool :=
  String.prefix needle s
  || match s with
     | EmptyString => false
     | String _ s' => contains needle s'
     end.

(** The search for the end of the header, from line [i] on: the row after
    the first line that contains "endheader", and 0 when there is none. *)
Fixpoint find_start_row (lines : list string) (i : nat) : nat :=
  match lines with
  | [] => 0
  | line :: rest =>
      if contains "endheader" line then i + 1
      else find_start_row rest (i + 1)
  end.

Section MotLoader.

Open Scope result_scope.

Variable open_read : string -> result string.
Variable column : Type.
(** [pd.read_csv(filepath, sep='\t', skiprows=n)]: the columns of the table
    under the names of its header row, which pandas keeps distinct *)
Variable read_csv_header : string -> nat -> result (list (string * column)).
Variable astype_float : column -> result (list float).

(** [data[header].values.astype(float)] *)
Definition named_float (data : list (string * column)) (header : string)
  : result (list float) :=
  col <- dict_getitem data header ;; astype_float col.

(** [for header in headers[1:]: angles_data[header] = ...] *)
Fixpoint load_angles (data : list (string * column)) (headers : list string)
  (angles_data : dict (list float)) : result (dict (list float)) :=
  match headers with
  | [] => Ok angles_data
  | header :: rest =>
      values <- named_float data header ;;
      load_angles data rest (dict_set angles_data header values)
  end.

Definition load_mot (filepath : string) : option Mot.t :=
  except_None
    (content <- open_read filepath ;;
     let lines := readlines content in
     let start_row := find_start_row lines 0 in
     data <- read_csv_header filepath start_row ;;
     let headers := map fst data in
     angles_data <- load_angles data (tl headers) [] ;;
     header0 <- getitem headers 0 ;;
     time <- named_float data header0 ;;
     Ok (Mot.mk angles_data (tl headers) time)).

End MotLoader.

(** ** Attribute assignment, continued *)

Definition set_trc_data (v : option Trc.t) (s : app) : app :=
  mkApp v (mot_data s) (current_frame s) (total_frames s) (fps s) (cap s)
    (timer s) (selected_joint s) (px_per_unit s) (unit_name s)
    (show_trajectory s) (show_relative_trajectory s) (_cache s)
    (_cache_angle_name s) (scale_factor s) (offset_x s) (offset_y s)
    (status_lbl s) (slider s) (pixmap s) (label_size s).

Definition set_mot_data (v : option Mot.t) (s : app) : app :=
  mkApp (trc_data s) v (current_frame s) (total_frames s) (fps s) (cap s)
    (timer s) (selected_joint s) (px_per_unit s) (unit_name s)
    (show_trajectory s) (show_relative_trajectory s) (_cache s)
    (_cache_angle_name s) (scale_factor s) (offset_x s) (offset_y s)
    (status_lbl s) (slider s) (pixmap s) (label_size s).

Definition set_total_frames (v : Z) (s : app) : app :=
  mkApp (trc_data s) (mot_data s) (current_frame s) v (fps s) (cap s)
    (timer s) (selected_joint s) (px_per_unit s) (unit_name s)
    (show_trajectory s) (show_relative_trajectory s) (_cache s)
    (_cache_angle_name s) (scale_factor s) (offset_x s) (offset_y s)
    (status_lbl s) (slider s) (pixmap s) (label_size s).

Definition set_fps (v : float) (s : app) : app :=
  mkApp (trc_data s) (mot_data s) (current_frame s) (total_frames s) v
    (cap s) (timer s) (selected_joint s) (px_per_unit s) (unit_name s)
    (show_trajectory s) (show_relative_trajectory s) (_cache s)
    (_cache_angle_name s) (scale_factor s) (offset_x s) (offset_y s)
    (status_lbl s) (slider s) (pixmap s) (label_size s).

Definition set_cap (v : option VideoCapture) (s : app) : app :=
  mkApp (trc_data s) (mot_data s) (current_frame s) (total_frames s) (fps s)
    v (timer s) (selected_joint s) (px_per_unit s) (unit_name s)
    (show_trajectory s) (show_relative_trajectory s) (_cache s)
    (_cache_angle_name s) (scale_factor s) (offset_x s) (offset_y s)
    (status_lbl s) (slider s) (pixmap s) (label_size s).

Definition set_show_trajectory (v : bool) (s : app) : app :=
  mkApp (trc_data s) (mot_data s) (current_frame s) (total_frames s) (fps s)
    (cap s) (timer s) (selected_joint s) (px_per_unit s) (unit_name s) v
    (show_relative_trajectory s) (_cache s) (_cache_angle_name s)
    (scale_factor s) (offset_x s) (offset_y s) (status_lbl s) (slider s)
    (pixmap s) (label_size s).

Definition set_show_relative_trajectory (v : bool) (s : app) : app :=
  mkApp (trc_data s) (mot_data s) (current_frame s) (total_frames s) (fps s)
    (cap s) (timer s) (selected_joint s) (px_per_unit s) (unit_name s)
    (show_trajectory s) v (_cache s) (_cache_angle_name s) (scale_factor s)
    (offset_x s) (offset_y s) (status_lbl s) (slider s) (pixmap s)
    (label_size s).

Section FurtherMethods.

Open Scope method_scope.
Open Scope Z_scope.

(** ** Trajectory toggles: [_toggle_trajectory],
    [_toggle_relative_trajectory] *)

(** The text and style of the buttons are not modelled. *)
Definition _toggle_trajectory : M unit :=
  s <- get ;;
  modify (set_show_trajectory (negb (show_trajectory s))) ;;
  s' <- get ;;
  _set_frame (current_frame s').

Definition _toggle_relative_trajectory : M unit :=
  s <- get ;;
  modify (set_show_relative_trajectory (negb (show_relative_trajectory s))) ;;
  s' <- get ;;
  _set_frame (current_frame s').

(** ** Data loading: [_load_video_from_path] *)

(** [cv2.VideoCapture(path)] and its properties *)
Variable VideoCapture_open : string -> VideoCapture.
Variable get_frame_count : VideoCapture -> float.
Variable get_fps : VideoCapture -> float.
(** [os.path]: [basename], [dirname], [splitext(p)[0]], [join], [exists] *)
Variable basename : string -> string.
Variable dirname : string -> string.
Variable splitext_root : string -> string.
Variable join : string -> string -> string.
Variable exists_ : string -> bool.
(** the two loaders, on the file system at hand *)
Variable load_trc_file : string -> option Trc.t.
Variable load_mot_file : string -> option Mot.t.
(** [slider.setMaximum(m)]: the value of the slider afterwards, which Qt
    bounds by the new range *)
Variable slider_value_after_setMaximum : Z -> Z -> Z.

(** [self.video_path] and the calibration line painted on the label are
    not modelled. *)
Definition _load_video_from_path (path : string) : M unit :=
  let video := VideoCapture_open path in
  modify (set_cap (Some video)) ;;
  frames <- lift (F.to_int (get_frame_count video)) ;;
  modify (set_total_frames frames) ;;
  modify (set_fps (if F.truthy (get_fps video) then get_fps video
                   else Fin 30)) ;;
  s <- get ;;
  modify (set_slider (slider_value_after_setMaximum (frames - 1) (slider s))) ;;
  modify (set_trc_data None) ;;
  modify (set_mot_data None) ;;
  modify (set_selected_joint None) ;;
  let base := splitext_root (basename path) in
  let d := dirname path in
  let analysis := join d (base ++ "_Sports2D") in
  (if exists_ analysis then
     let trc := join analysis (base ++ "_Sports2D_px_person00.trc") in
     let mot := join analysis (base ++ "_Sports2D_angles_person00.mot") in
     (if exists_ trc then modify (set_trc_data (load_trc_file trc))
      else ret tt) ;;
     (if exists_ mot then modify (set_mot_data (load_mot_file mot))
      else ret tt) ;;
     modify (set_status_lbl StatusOther)
   else modify (set_status_lbl StatusOther)) ;;
  _set_frame 0.

(** [_load_video]: [path] is the answer of the file dialog, empty when the
    dialog is dismissed *)
Definition _load_video (path : string) : M unit :=
  if nonempty path then _load_video_from_path path else ret tt.

(** ** The slots of the window *)

Variable savgol_filter : list float -> nat -> nat -> list float.

(** The signals that the window connects to the methods above, each with
    what it carries; a slot that opens a dialog carries the dialog's
    answer. *)
Inductive slot : Type :=
| VideoClicked (pos : QPoint)
| CalibrationDone (p1 p2 : QPoint) (getDouble : float * bool)
| PlayClicked
| TimerTimeout
| SliderMoved (val : Z)
| SliderPressed
| TrajectoryClicked
| RelativeTrajectoryClicked
| LoadClicked (path : string).

Definition handle (e : slot) : M unit :=
  match e with
  | VideoClicked pos => _on_video_click savgol_filter pos
  | CalibrationDone p1 p2 getDouble =>
      _on_calibration_line savgol_filter p1 p2 getDouble
  | PlayClicked => _toggle_play
  | TimerTimeout => _advance_frame
  | SliderMoved val => _seek val
  | SliderPressed => modify (set_timer None)
  | TrajectoryClicked => _toggle_trajectory
  | RelativeTrajectoryClicked => _toggle_relative_trajectory
  | LoadClicked path => _load_video path
  end.

End FurtherMethods.

Close Scope string_scope.

(* ================================================================== *)
(** * Properties *)

(** ** Reasoning about methods *)

(** [keeps f m]: running [m] leaves the attribute (or any function of the
    object) [f] as it was, whether [m] returns or raises. *)
Definition keeps {A X} (f : app -> X) (m : M A) : Prop :=
  forall s, f (fst (m s)) = f s.

Lemma keeps_ret {A X} (f : app -> X) (a : A) : keeps f (ret a).
Proof. intros s. reflexivity. Qed.

Lemma keeps_get {X} (f : app -> X) : keeps f get.
Proof. intros s. reflexivity. Qed.

Lemma keeps_lift {A X} (f : app -> X) (r : result A) : keeps f (lift r).
Proof. intros s. reflexivity. Qed.

Lemma keeps_modify {X} (f : app -> X) (g : app -> app) :
  (forall s, f (g s) = f s) -> keeps f (modify g).
Proof. intros H s. apply H. Qed.

Lemma keeps_bind {A B X} (f : app -> X) (m : M A) (k : A -> M B) :
  keeps f m -> (forall a, keeps f (k a)) -> keeps f (bind m k).
Proof.
  intros Hm Hk s. unfold bind.
  specialize (Hm s). destruct (m s) as [s1 [a|e]]; simpl in *.
  - rewrite Hk. exact Hm.
  - exact Hm.
Qed.

Lemma bind_modify {B} (g : app -> app) (k : unit -> M B) s :
  bind (modify g) k s = k tt (g s).
Proof. reflexivity. Qed.

Lemma bind_get {B} (k : app -> M B) s : bind get k s = k s s.
Proof. reflexivity. Qed.

Lemma bind_lift_Ok {A B} (a : A) (k : A -> M B) s :
  bind (lift (Ok a)) k s = k a s.
Proof. reflexivity. Qed.

Lemma bind_lift_Raise {A B} (e : exn) (k : A -> M B) s :
  bind (lift (Raise e)) k s = (s, Raise e).
Proof. reflexivity. Qed.

(** a method that returns normally and leaves the object untouched *)
Definition skips (m : M unit) (s : app) : Prop := m s = (s, Ok tt).

Ltac keeps_step :=
  match goal with
  | |- keeps _ (bind _ _) => apply keeps_bind; [|intros ?]
  | |- keeps _ (ret _) => apply keeps_ret
  | |- keeps _ get => apply keeps_get
  | |- keeps _ (lift _) => apply keeps_lift
  | |- keeps _ (modify _) => apply keeps_modify; intros ?; reflexivity
  | |- keeps _ (match ?x with _ => _ end) => destruct x
  | |- keeps _ (if ?b then _ else _) => destruct b
  | |- keeps _ (let (_, _) := ?p in _) => destruct p
  end.

Ltac keeps_tac := repeat keeps_step.

Section MethodFacts.

Variable savgol_filter : list float -> nat -> nat -> list float.

(** Rendering a frame touches neither the calibration, nor the selection,
    nor the timer, nor the frame count, nor the capture. *)
Lemma set_frame_keeps_px_per_unit idx : keeps px_per_unit (_set_frame idx).
Proof. unfold _set_frame. keeps_tac. Qed.

Lemma set_frame_keeps_unit_name idx : keeps unit_name (_set_frame idx).
Proof. unfold _set_frame. keeps_tac. Qed.

Lemma set_frame_keeps_selected_joint idx :
  keeps selected_joint (_set_frame idx).
Proof. unfold _set_frame. keeps_tac. Qed.

Lemma set_frame_keeps_timer idx : keeps timer (_set_frame idx).
Proof. unfold _set_frame. keeps_tac. Qed.

Lemma set_frame_keeps_total_frames idx : keeps total_frames (_set_frame idx).
Proof. unfold _set_frame. keeps_tac. Qed.

Lemma set_frame_keeps_cap idx : keeps cap (_set_frame idx).
Proof. unfold _set_frame. keeps_tac. Qed.

Lemma set_frame_keeps_cache idx : keeps _cache (_set_frame idx).
Proof. unfold _set_frame. keeps_tac. Qed.

(** Recomputing the kinematics touches only the cache. *)
Lemma compute_kinematics_keeps_px_per_unit :
  keeps px_per_unit (_compute_kinematics savgol_filter).
Proof. unfold _compute_kinematics. keeps_tac. Qed.

Lemma compute_kinematics_keeps_unit_name :
  keeps unit_name (_compute_kinematics savgol_filter).
Proof. unfold _compute_kinematics. keeps_tac. Qed.

Lemma compute_kinematics_keeps_selected_joint :
  keeps selected_joint (_compute_kinematics savgol_filter).
Proof. unfold _compute_kinematics. keeps_tac. Qed.

Lemma compute_kinematics_keeps_current_frame :
  keeps current_frame (_compute_kinematics savgol_filter).
Proof. unfold _compute_kinematics. keeps_tac. Qed.

(** What [_set_frame] does to the frame index: a capture is open and the
    index is in range, and the index becomes current; or nothing changes. *)
Lemma set_frame_current_frame idx s :
  current_frame (fst (_set_frame idx s)) =
  match cap s with
  | Some _ =>
      if ((idx <? 0) || (idx >=? total_frames s))%Z then current_frame s
      else idx
  | None => current_frame s
  end.
Proof.
  unfold _set_frame, bind at 1, get at 1. simpl.
  destruct (cap s) as [video|]; [|reflexivity].
  destruct ((idx <? 0)%Z || (idx >=? total_frames s)%Z); [reflexivity|].
  unfold bind at 1, modify at 1. simpl.
  assert (K : forall m : M unit, keeps current_frame m ->
              current_frame (fst (m (set_current_frame idx s))) = idx).
  { intros m Hm. rewrite Hm. reflexivity. }
  apply K. keeps_tac.
Qed.

Lemma set_frame_out_of_range idx s :
  cap s = None \/ (idx < 0)%Z \/ (total_frames s <= idx)%Z ->
  skips (_set_frame idx) s.
Proof.
  intros H. unfold skips, _set_frame, bind, get. simpl.
  destruct (cap s) as [video|]; [|reflexivity].
  destruct H as [H|H]; [discriminate|].
  destruct (Z.ltb_spec idx 0); [reflexivity|].
  destruct (Z.geb_spec idx (total_frames s)); [reflexivity|]. lia.
Qed.

End MethodFacts.

(* ------------------------------------------------------------------ *)
(** ** Example objects *)

Module Examples.

Open Scope string_scope.

(** the object as [__init__] leaves it *)
Definition fresh : app :=
  mkApp None None 0 0 (Fin 30) None None None None "px" false false
        (fun _ => None) None (Fin 1) 0 0 StatusOther 0 None (750, 480)%Z.

(** a capture of 640 by 480 pixel frames, every frame readable *)
Definition video100 : VideoCapture :=
  mkCap (fun _ => Some (mkFrame 480 640)).

Definition with_video (frames current : Z) (playing : option Z) : app :=
  mkApp None None current frames (Fin 30) (Some video100) playing None None
        "px" false false (fun _ => None) None (Fin 1) 0 0 StatusOther 0 None
        (750, 480)%Z.

End Examples.

(* ------------------------------------------------------------------ *)
(** ** Smoothing *)

(** C5.  [smooth] returns a sequence no longer than the window unchanged and
    applies the Savitzky-Golay filter, with the window and degree it was
    given, to every longer one; with the default arguments the window is 11
    samples and the degree 3. *)
Theorem smooth_identity_or_savgol
  (savgol_filter : list float -> nat -> nat -> list float)
  (arr : list float) (win poly : nat) :
  ((length arr <= win)%nat -> smooth savgol_filter arr win poly = arr) /\
  ((win < length arr)%nat ->
   smooth savgol_filter arr win poly = savgol_filter arr win poly) /\
  ((length arr <= 11)%nat -> smooth_default savgol_filter arr = arr) /\
  ((11 < length arr)%nat ->
   smooth_default savgol_filter arr = savgol_filter arr 11 3).
Proof.
  unfold smooth_default, smooth. repeat split; intros H.
  - destruct (Nat.ltb_spec win (length arr)); [lia|reflexivity].
  - destruct (Nat.ltb_spec win (length arr)); [reflexivity|lia].
  - destruct (Nat.ltb_spec 11 (length arr)); [lia|reflexivity].
  - destruct (Nat.ltb_spec 11 (length arr)); [reflexivity|lia].
Qed.

Lemma smooth_identity_or_savgol_witness :
  smooth_default SciPy.savgol_filter (map Fin (repeat 1%R 11))
  = map Fin (repeat 1%R 11) /\
  smooth_default SciPy.savgol_filter (map Fin (repeat 1%R 12))
  = SciPy.savgol_filter (map Fin (repeat 1%R 12)) 11 3.
Proof.
  split.
  - apply (smooth_identity_or_savgol
             SciPy.savgol_filter (map Fin (repeat 1%R 11)) 11 3).
    simpl. lia.
  - apply (smooth_identity_or_savgol
             SciPy.savgol_filter (map Fin (repeat 1%R 12)) 11 3).
    simpl. lia.
Defined.

(* ------------------------------------------------------------------ *)
(** ** Playback and frame setting *)

(** [n] ticks of the playback timer *)
Fixpoint ticks (n : nat) (s : app) : app :=
  match n with
  | O => s
  | S n' => ticks n' (fst (_advance_frame s))
  end.

Lemma advance_frame_eq s :
  _advance_frame s =
  if (current_frame s <? total_frames s - 1)%Z
  then _set_frame (current_frame s + 1) s
  else (set_timer None s, Ok tt).
Proof.
  unfold _advance_frame, bind, get. simpl.
  destruct (current_frame s <? total_frames s - 1)%Z; reflexivity.
Qed.

Lemma advance_frame_step s :
  cap s <> None -> (0 <= current_frame s)%Z ->
  let s' := fst (_advance_frame s) in
  total_frames s' = total_frames s /\ cap s' = cap s /\
  ((current_frame s < total_frames s - 1)%Z ->
   current_frame s' = (current_frame s + 1)%Z /\ timer s' = timer s) /\
  ((total_frames s - 1 <= current_frame s)%Z ->
   current_frame s' = current_frame s /\ timer s' = None).
Proof.
  intros Hcap H0. cbv zeta. rewrite advance_frame_eq.
  destruct (Z.ltb_spec (current_frame s) (total_frames s - 1)) as [Hlt|Hge].
  - rewrite set_frame_keeps_total_frames, set_frame_keeps_cap,
      set_frame_keeps_timer, set_frame_current_frame.
    destruct (cap s); [|contradiction].
    destruct (Z.ltb_spec (current_frame s + 1) 0); [lia|].
    destruct (Z.geb_spec (current_frame s + 1) (total_frames s)); [lia|].
    simpl. repeat split; try reflexivity; intros; lia.
  - simpl. repeat split; try reflexivity; intros; lia.
Qed.

Lemma ticks_bounded n : forall s,
  cap s <> None ->
  (0 <= current_frame s <= total_frames s - 1)%Z ->
  (0 <= current_frame (ticks n s) <= total_frames (ticks n s) - 1)%Z.
Proof.
  induction n as [|n IH]; intros s Hcap Hb; simpl; [exact Hb|].
  destruct (advance_frame_step s Hcap (proj1 Hb)) as [Ht [Hc [Hlt Hge]]].
  apply IH.
  - rewrite Hc. exact Hcap.
  - rewrite Ht.
    destruct (Z.lt_ge_cases (current_frame s) (total_frames s - 1)) as [L|G].
    + destruct (Hlt L) as [E _]. rewrite E. lia.
    + destruct (Hge G) as [E _]. rewrite E. lia.
Qed.

(** C9.  While the timer runs on a loaded video, a tick at a frame before the
    last one makes the next frame current and leaves the timer running; a
    tick at the last frame stops the timer and leaves the frame as it is; so
    no number of ticks takes the current frame past [total_frames - 1]. *)
Theorem advance_frame_tick (s : app) (interval : Z) :
  timer s = Some interval ->
  cap s <> None ->
  (0 <= current_frame s <= total_frames s - 1)%Z ->
  let s' := fst (_advance_frame s) in
  ((current_frame s < total_frames s - 1)%Z ->
   current_frame s' = (current_frame s + 1)%Z /\ timer s' = Some interval) /\
  (current_frame s = (total_frames s - 1)%Z ->
   current_frame s' = current_frame s /\ timer s' = None) /\
  (forall n, (current_frame (ticks n s) <= total_frames s - 1)%Z).
Proof.
  intros Ht Hcap Hb s'.
  destruct (advance_frame_step s Hcap (proj1 Hb)) as [_ [_ [Hlt Hge]]].
  repeat split.
  - apply Hlt. assumption.
  - destruct (Hlt H) as [_ E]. fold s'. rewrite <- Ht. exact E.
  - apply Hge. lia.
  - apply Hge. lia.
  - intros n.
    assert (T : forall m s0, total_frames (ticks m s0) = total_frames s0
                             \/ cap s0 = None \/ (current_frame s0 < 0)%Z).
    { induction m as [|m IH]; intros s0; simpl; [left; reflexivity|].
      destruct (cap s0) eqn:Ec; [|right; left; reflexivity].
      destruct (Z.lt_ge_cases (current_frame s0) 0) as [L|G];
        [right; right; exact L|].
      assert (Hc0 : cap s0 <> None) by (rewrite Ec; discriminate).
      destruct (advance_frame_step s0 Hc0 G) as [Et [Ecap [Hl Hg]]].
      destruct (IH (fst (_advance_frame s0))) as [E|[E|E]].
      - left. rewrite E. exact Et.
      - rewrite Ecap, Ec in E. discriminate.
      - destruct (Z.lt_ge_cases (current_frame s0) (total_frames s0 - 1))
          as [L|G'].
        + destruct (Hl L) as [E' _]. lia.
        + destruct (Hg G') as [E' _]. lia. }
    pose proof (ticks_bounded n s Hcap Hb) as B.
    destruct (T n s) as [E|[E|E]]; [rewrite <- E; lia|contradiction|lia].
Qed.

Lemma advance_frame_tick_witness :
  let s := Examples.with_video 100 98 (Some 33%Z) in
  current_frame (fst (_advance_frame s)) = 99%Z /\
  timer (fst (_advance_frame s)) = Some 33%Z.
Proof.
  apply (advance_frame_tick (Examples.with_video 100 98 (Some 33%Z)) 33%Z).
  - reflexivity.
  - discriminate.
  - simpl. lia.
  - simpl. lia.
Defined.

(** The timer is started with the truncated number of milliseconds per
    frame, and only on a loaded video. *)
Lemma toggle_play_starts s rate :
  timer s = None -> fps s = Fin rate -> rate <> 0%R ->
  timer (fst (_toggle_play s)) =
  match cap s with
  | Some _ => Some (F.trunc (1000 / rate))
  | None => None
  end.
Proof.
  intros Ht Hf Hr. unfold _toggle_play, bind at 1, get at 1. simpl.
  rewrite Ht. destruct (cap s); [|simpl; exact Ht].
  unfold bind, lift, modify, F.pydiv. rewrite Hf.
  assert (E : Reqb rate 0 = false) by (apply Reqb_false; exact Hr).
  rewrite E. simpl. rewrite E. reflexivity.
Qed.

(** C10.  Setting or seeking to a frame index that is negative or not below
    [total_frames], or doing so with no video loaded, returns at once and
    leaves every attribute of the object as it was; and every frame-setting
    operation preserves [0 <= current_frame < total_frames]. *)
Theorem set_frame_guard (idx : Z) (s : app) :
  (cap s = None \/ (idx < 0)%Z \/ (total_frames s <= idx)%Z ->
   _set_frame idx s = (s, Ok tt) /\ _seek idx s = (s, Ok tt)) /\
  ((0 <= current_frame s < total_frames s)%Z ->
   let s1 := fst (_set_frame idx s) in
   let s2 := fst (_seek idx s) in
   let s3 := fst (_advance_frame s) in
   (0 <= current_frame s1 < total_frames s1)%Z /\
   (0 <= current_frame s2 < total_frames s2)%Z /\
   (0 <= current_frame s3 < total_frames s3)%Z).
Proof.
  split.
  - intros H. split; apply set_frame_out_of_range; exact H.
  - intros Hb.
    assert (K : forall i,
              (0 <= current_frame (fst (_set_frame i s))
               < total_frames (fst (_set_frame i s)))%Z).
    { intros i. rewrite set_frame_keeps_total_frames, set_frame_current_frame.
      destruct (cap s); [|exact Hb].
      destruct (Z.ltb_spec i 0); [exact Hb|].
      destruct (Z.geb_spec i (total_frames s)); [exact Hb|]. simpl. lia. }
    simpl. repeat split; try apply K.
    + rewrite advance_frame_eq.
      destruct (current_frame s <? total_frames s - 1)%Z; [apply K|].
      simpl. lia.
    + rewrite advance_frame_eq.
      destruct (current_frame s <? total_frames s - 1)%Z; [apply K|].
      simpl. lia.
Qed.

Lemma set_frame_guard_witness :
  let s := Examples.with_video 100 7 None in
  _set_frame 100 s = (s, Ok tt) /\
  (0 <= current_frame (fst (_set_frame 42 s))
   < total_frames (fst (_set_frame 42 s)))%Z.
Proof.
  split.
  - apply (proj1 (set_frame_guard 100 (Examples.with_video 100 7 None))).
    right. right. simpl. lia.
  - apply (proj2 (set_frame_guard 42 (Examples.with_video 100 7 None))).
    simpl. lia.
Defined.

(* ------------------------------------------------------------------ *)
(** ** Calibration *)

(** a display coordinate in frame pixels: [(display - offset) / scale] *)
Definition frame_coord (sf : R) (p offset : Z) : R :=
  (IZR (p - offset) / sf)%R.

(** Euclidean distance, in frame pixels, of two display points *)
Definition px_distance (sf : R) (ox oy : Z) (p1 p2 : QPoint) : R :=
  let dx := (frame_coord sf (fst p2) ox - frame_coord sf (fst p1) ox)%R in
  let dy := (frame_coord sf (snd p2) oy - frame_coord sf (snd p1) oy)%R in
  sqrt (dx * dx + dy * dy).

Lemma to_frame_Fin s sf p o :
  scale_factor s = Fin sf -> sf <> 0%R ->
  to_frame s p o = Ok (Fin (frame_coord sf p o)).
Proof.
  intros H Hsf. unfold to_frame, F.pydiv. rewrite H.
  assert (E : Reqb sf 0 = false) by (apply Reqb_false; exact Hsf).
  rewrite E. unfold F.of_Z, F.div. rewrite E. reflexivity.
Qed.

Lemma sqrt_sum_squares_Fin a b :
  F.sqrt (Fin a * Fin a + Fin b * Fin b)%float = Fin (sqrt (a * a + b * b)).
Proof.
  simpl. assert (E : Rltb (a * a + b * b) 0 = false).
  { apply Rltb_false. nra. }
  rewrite E. reflexivity.
Qed.

Section Calibration.

Variable savgol_filter : list float -> nat -> nat -> list float.

Open Scope method_scope.

(** With a usable display scale, the method measures the line and then
    either rejects it, or asks for its length. *)
Lemma on_calibration_line_measured s sf p1 p2 answer :
  scale_factor s = Fin sf -> sf <> 0%R ->
  let d := px_distance sf (offset_x s) (offset_y s) p1 p2 in
  _on_calibration_line savgol_filter p1 p2 answer s =
  if Rltb d 5 then (set_status_lbl LineTooShort s, Ok tt)
  else
    (let (val, ok) := answer in
     if ok && F.gt val (Fin 0) then
       modify (set_px_per_unit (Some (Fin d / val)%float)) ;;
       modify (set_unit_name "m"%string) ;;
       modify (set_status_lbl (Calibrated (Fin d / val)%float)) ;;
       match selected_joint s with
       | Some joint =>
           if nonempty joint then
             _compute_kinematics savgol_filter ;;
             s' <- get ;;
             _set_frame (current_frame s')
           else ret tt
       | None => ret tt
       end
     else modify (set_status_lbl CalibrationCancelled)) s.
Proof.
  intros Hs Hsf d. unfold _on_calibration_line.
  unfold bind at 1, get at 1.
  do 4 (unfold bind at 1, lift at 1; rewrite (to_frame_Fin s sf _ _ Hs Hsf)).
  cbv beta iota. cbn [F.sub F.lift2].
  rewrite sqrt_sum_squares_Fin. fold (px_distance sf (offset_x s) (offset_y s) p1 p2).
  fold d. cbn [F.lt]. destruct (Rltb d 5); reflexivity.
Qed.

Lemma accepted_tail_keeps {X} (f : app -> X) (s0 : app) :
  keeps f (_compute_kinematics savgol_filter) ->
  (forall idx, keeps f (_set_frame idx)) ->
  keeps f
    (match selected_joint s0 with
     | Some joint =>
         if nonempty joint then
           _compute_kinematics savgol_filter ;;
           s' <- get ;;
           _set_frame (current_frame s')
         else ret tt
     | None => ret tt
     end).
Proof.
  intros H1 H2. destruct (selected_joint s0) as [j|]; [|apply keeps_ret].
  destruct (nonempty j); [|apply keeps_ret].
  apply keeps_bind; [exact H1|intros _].
  apply keeps_bind; [apply keeps_get|intros s']. apply H2.
Qed.

(** C4.  A calibration line whose end points, converted from display to
    frame-pixel coordinates, are less than 5 pixels apart is rejected: the
    method only sets the status text, so [px_per_unit], [unit_name] and every
    other attribute keep their prior values. *)
Theorem calibration_line_too_short
  (s : app) (sf : R) (p1 p2 : QPoint) (answer : float * bool) :
  scale_factor s = Fin sf -> sf <> 0%R ->
  (px_distance sf (offset_x s) (offset_y s) p1 p2 < 5)%R ->
  let out := _on_calibration_line savgol_filter p1 p2 answer s in
  out = (set_status_lbl LineTooShort s, Ok tt) /\
  px_per_unit (fst out) = px_per_unit s /\
  unit_name (fst out) = unit_name s.
Proof.
  intros Hs Hsf Hd out. subst out.
  rewrite (on_calibration_line_measured s sf p1 p2 answer Hs Hsf).
  apply Rltb_true in Hd. rewrite Hd. repeat split.
Qed.

(** C3.  An accepted calibration (a line of at least 5 frame pixels, a
    confirmed positive length) sets [px_per_unit] to the pixel distance
    divided by the length, and then [_scale_val] maps the pixel distance back
    to the length; without calibration [_scale_val] is the identity. *)
Theorem calibration_accepted
  (s : app) (sf : R) (p1 p2 : QPoint) (length_m : R) :
  scale_factor s = Fin sf -> sf <> 0%R ->
  let d := px_distance sf (offset_x s) (offset_y s) p1 p2 in
  (5 <= d)%R -> (0 < length_m)%R ->
  let s' :=
    fst (_on_calibration_line savgol_filter p1 p2 (Fin length_m, true) s) in
  px_per_unit s' = Some (Fin (d / length_m)) /\
  unit_name s' = "m"%string /\
  _scale_val s' (Fin d) = Fin length_m /\
  (forall s0 v, px_per_unit s0 = None -> _scale_val s0 v = v).
Proof.
  intros Hs Hsf d Hd Hl s'.
  assert (Hq : Reqb length_m 0 = false) by (apply Reqb_false; lra).
  assert (P : px_per_unit s' = Some (Fin (d / length_m))
              /\ unit_name s' = "m"%string).
  { subst s'. rewrite (on_calibration_line_measured s sf p1 p2 _ Hs Hsf).
    fold d. assert (E : Rltb d 5 = false) by (apply Rltb_false; exact Hd).
    rewrite E. cbn [andb F.gt F.lt].
    assert (E' : Rltb 0 length_m = true) by (apply Rltb_true; exact Hl).
    rewrite E'.
    rewrite !bind_modify.
    split.
    - rewrite (accepted_tail_keeps px_per_unit s
                 (compute_kinematics_keeps_px_per_unit savgol_filter)
                 set_frame_keeps_px_per_unit).
      simpl. rewrite Hq. reflexivity.
    - rewrite (accepted_tail_keeps unit_name s
                 (compute_kinematics_keeps_unit_name savgol_filter)
                 set_frame_keeps_unit_name).
      reflexivity. }
  destruct P as [P1 P2]. repeat split; try assumption.
  - unfold _scale_val, calibrated. rewrite P1. simpl.
    assert (Hne : (d / length_m)%R <> 0%R).
    { apply Rgt_not_eq. apply Rdiv_lt_0_compat; lra. }
    assert (E : Reqb (d / length_m) 0 = false) by (apply Reqb_false; exact Hne).
    rewrite E. simpl. rewrite E. f_equal. field. split; lra.
  - intros s0 v H0. unfold _scale_val, calibrated. rewrite H0. reflexivity.
Qed.

End Calibration.

Lemma calibration_line_too_short_witness :
  let out :=
    _on_calibration_line SciPy.savgol_filter (0, 0)%Z (3, 0)%Z
      (Fin 2, true) Examples.fresh in
  out = (set_status_lbl LineTooShort Examples.fresh, Ok tt) /\
  px_per_unit (fst out) = None /\
  unit_name (fst out) = "px"%string.
Proof.
  apply (calibration_line_too_short SciPy.savgol_filter
           Examples.fresh 1%R (0, 0)%Z (3, 0)%Z (Fin 2, true)).
  - reflexivity.
  - lra.
  - unfold px_distance, frame_coord. simpl.
    replace ((3 / 1 - 0 / 1) * (3 / 1 - 0 / 1)
             + (0 / 1 - 0 / 1) * (0 / 1 - 0 / 1))%R with (3 * 3)%R by field.
    rewrite sqrt_square; lra.
Defined.

(** End-to-end scenario: a line from (0,0) to (100,0) of entered length 2
    gives 50 pixels per unit, and 100 pixels scale to 2. *)
Lemma calibration_accepted_witness :
  let s' :=
    fst (_on_calibration_line SciPy.savgol_filter (0, 0)%Z (100, 0)%Z
           (Fin 2, true) Examples.fresh) in
  px_per_unit s' = Some (Fin 50) /\ _scale_val s' (Fin 100) = Fin 2.
Proof.
  assert (D : px_distance 1 0 0 (0, 0)%Z (100, 0)%Z = 100%R).
  { unfold px_distance, frame_coord. simpl.
    replace ((100 / 1 - 0 / 1) * (100 / 1 - 0 / 1)
             + (0 / 1 - 0 / 1) * (0 / 1 - 0 / 1))%R
      with (100 * 100)%R by field.
    rewrite sqrt_square; lra. }
  destruct (calibration_accepted SciPy.savgol_filter
              Examples.fresh 1%R (0, 0)%Z (100, 0)%Z 2%R)
    as [H1 [_ [H3 _]]].
  - reflexivity.
  - lra.
  - simpl. rewrite D. lra.
  - lra.
  - simpl in H1, H3. rewrite D in H1, H3. split.
    + rewrite H1. do 2 f_equal. lra.
    + exact H3.
Defined.

(* ------------------------------------------------------------------ *)
(** ** The trajectory loader *)

Lemma dict_get_set_same {V} (d : dict V) k v :
  dict_get (dict_set d k v) k = Some v.
Proof.
  induction d as [|[k' v'] d IH]; simpl.
  - rewrite String.eqb_refl. reflexivity.
  - destruct (String.eqb k' k) eqn:E; simpl.
    + rewrite String.eqb_refl. reflexivity.
    + rewrite E. exact IH.
Qed.

Lemma dict_get_set_other {V} (d : dict V) k v k0 :
  k0 <> k -> dict_get (dict_set d k v) k0 = dict_get d k0.
Proof.
  intros Hne. induction d as [|[k' v'] d IH]; simpl.
  - destruct (String.eqb_spec k k0); [congruence|reflexivity].
  - destruct (String.eqb_spec k' k) as [->|Hk]; simpl.
    + destruct (String.eqb_spec k k0); [congruence|reflexivity].
    + destruct (String.eqb_spec k' k0); [reflexivity|exact IH].
Qed.

Section LoaderFacts.

Variable open_read : string -> result string.
Variable float_of_string : string -> result float.
Variable int_of_string : string -> result Z.
Variable column : Type.
Variable read_csv : string -> nat -> result (list column).
Variable astype_float : column -> result (list float).

Let iloc := iloc_float column astype_float.

(** The marker loop succeeds when every column it reads is there; a name
    then maps to the columns of its last position in the list. *)
Lemma load_markers_columns data : forall names i acc,
  (forall k, (k < length names)%nat ->
     exists xs ys,
       iloc data ((i + Z.of_nat k) * 3 + 2)%Z = Ok xs /\
       iloc data ((i + Z.of_nat k) * 3 + 3)%Z = Ok ys) ->
  exists d,
    load_markers column astype_float data names i acc = Ok d /\
    (forall name, ~ In name names -> dict_get d name = dict_get acc name) /\
    (forall k name,
       nth_error names k = Some name ->
       ~ In name (skipn (S k) names) ->
       exists xs ys,
         iloc data ((i + Z.of_nat k) * 3 + 2)%Z = Ok xs /\
         iloc data ((i + Z.of_nat k) * 3 + 3)%Z = Ok ys /\
         dict_get d name = Some (Marker.mk xs ys)).
Proof.
  induction names as [|n names IH]; intros i acc Hcols.
  - exists acc. repeat split; auto.
    intros k name H. destruct k; discriminate.
  - destruct (Hcols 0%nat) as [xs [ys [Hx Hy]]]; [simpl; lia|].
    rewrite Z.add_0_r in Hx, Hy.
    destruct (IH (i + 1)%Z (dict_set acc n (Marker.mk xs ys))) as [d [Hd [Hout Hin]]].
    { intros k Hk. destruct (Hcols (S k)) as [xs' [ys' [Hx' Hy']]];
        [simpl; lia|].
      exists xs', ys'.
      replace (i + 1 + Z.of_nat k)%Z with (i + Z.of_nat (S k))%Z by lia.
      split; assumption. }
    exists d. split; [|split].
    + simpl. fold iloc. rewrite Hx. simpl. rewrite Hy. simpl. exact Hd.
    + intros name Hn. rewrite Hout.
      * apply dict_get_set_other. intros ->. apply Hn. left. reflexivity.
      * intros H. apply Hn. right. exact H.
    + intros k name Hk Hlast. destruct k as [|k].
      * simpl in Hk. injection Hk as ->. exists xs, ys.
        rewrite Z.add_0_r. repeat split; try assumption.
        rewrite Hout; [apply dict_get_set_same|exact Hlast].
      * simpl in Hk. destruct (Hin k name Hk Hlast) as [xs' [ys' [A [B C]]]].
        exists xs', ys'.
        replace (i + Z.of_nat (S k))%Z with (i + 1 + Z.of_nat k)%Z by lia.
        repeat split; assumption.
Qed.

(** C7.  On a well-formed file the loader returns: the rate parsed from token
    0 and the frame count from token 2 of the white-space-split third line;
    the marker names of the tab-split fourth line, stripped, without blank
    entries and without "Frame#" and "Time", in order; the time series from
    column 1 of the table read after 5 skipped lines; and, for the marker at
    position [i] of the list, column [2 + 3 i] as x and column [2 + 3 i + 1]
    as y (a name listed more than once keeps the columns of its last
    position). *)
Theorem load_trc_fields
  (filepath content line2 line3 tok0 tok2 : string)
  (rate : float) (frames : Z) (data : list column) (time : list float) :
  open_read filepath = Ok content ->
  getitem (readlines content) 2 = Ok line2 ->
  getitem (readlines content) 3 = Ok line3 ->
  getitem (split_ws line2) 0 = Ok tok0 ->
  getitem (split_ws line2) 2 = Ok tok2 ->
  float_of_string tok0 = Ok rate ->
  int_of_string tok2 = Ok frames ->
  read_csv filepath 5 = Ok data ->
  iloc data 1 = Ok time ->
  let names := marker_names_of (split_on "009" line3) in
  (forall i, (i < length names)%nat ->
     exists xs ys,
       iloc data (2 + 3 * Z.of_nat i)%Z = Ok xs /\
       iloc data (2 + 3 * Z.of_nat i + 1)%Z = Ok ys) ->
  exists trc,
    load_trc open_read float_of_string int_of_string column read_csv
             astype_float filepath = Some trc /\
    Trc.data_rate trc = rate /\
    Trc.frame_count trc = frames /\
    Trc.marker_list trc = names /\
    Trc.time trc = time /\
    (forall name, In name names ->
       nonempty name = true /\ name <> "Frame#"%string
       /\ name <> "Time"%string) /\
    (forall i name,
       nth_error names i = Some name ->
       ~ In name (skipn (S i) names) ->
       exists xs ys,
         iloc data (2 + 3 * Z.of_nat i)%Z = Ok xs /\
         iloc data (2 + 3 * Z.of_nat i + 1)%Z = Ok ys /\
         dict_get (Trc.markers trc) name = Some (Marker.mk xs ys)).
Proof.
  intros Hopen H2 H3 Ht0 Ht2 Hrate Hframes Hcsv Htime names Hcols.
  destruct (load_markers_columns data names 0 []) as [d [Hd [_ Hin]]].
  { intros k Hk. destruct (Hcols k Hk) as [xs [ys [Hx Hy]]].
    exists xs, ys.
    replace ((0 + Z.of_nat k) * 3 + 2)%Z with (2 + 3 * Z.of_nat k)%Z by lia.
    replace ((0 + Z.of_nat k) * 3 + 3)%Z
      with (2 + 3 * Z.of_nat k + 1)%Z by lia.
    split; assumption. }
  exists (Trc.mk frames rate d names time).
  split; [|repeat split].
  - unfold load_trc. rewrite Hopen. simpl. rewrite H2. simpl.
    rewrite Ht0. simpl. rewrite Hrate. simpl. rewrite Ht2. simpl.
    rewrite Hframes. simpl. rewrite H3. simpl. rewrite Hcsv. simpl.
    fold names. rewrite Hd. simpl. fold iloc. rewrite Htime. reflexivity.
  - unfold names, marker_names_of in H. apply in_map_iff in H.
    destruct H as [raw [<- Hraw]]. apply filter_In in Hraw.
    destruct Hraw as [_ Hk]. apply andb_true_iff in Hk. apply Hk.
  - unfold names, marker_names_of in H. apply in_map_iff in H.
    destruct H as [raw [<- Hraw]]. apply filter_In in Hraw.
    destruct Hraw as [_ Hk]. apply andb_true_iff in Hk.
    destruct Hk as [_ Hk]. intros E. rewrite E in Hk. discriminate.
  - unfold names, marker_names_of in H. apply in_map_iff in H.
    destruct H as [raw [<- Hraw]]. apply filter_In in Hraw.
    destruct Hraw as [_ Hk]. apply andb_true_iff in Hk.
    destruct Hk as [_ Hk]. intros E. rewrite E in Hk. discriminate.
  - intros i name Hi Hlast.
    destruct (Hin i name Hi Hlast) as [xs [ys [A [B C]]]].
    exists xs, ys.
    replace (2 + 3 * Z.of_nat i)%Z with ((0 + Z.of_nat i) * 3 + 2)%Z by lia.
    replace ((0 + Z.of_nat i) * 3 + 2 + 1)%Z
      with ((0 + Z.of_nat i) * 3 + 3)%Z by lia.
    repeat split; assumption.
Qed.

End LoaderFacts.

(** A two-frame file with the single marker "Hip", and stand-ins for the
    library parsers on it. *)
Module TrcExample.

Open Scope string_scope.

Definition tab : string := String "009" EmptyString.
Definition nl : string := String "010" EmptyString.

Definition content : string :=
  "PathFileType" ++ tab ++ "4" ++ nl ++
  "DataRate" ++ tab ++ "CameraRate" ++ tab ++ "NumFrames" ++ nl ++
  "30.0" ++ tab ++ "30.0" ++ tab ++ "2" ++ tab ++ "1" ++ nl ++
  "Frame#" ++ tab ++ "Time" ++ tab ++ "Hip" ++ tab ++ tab ++ tab ++ nl ++
  tab ++ tab ++ "X1" ++ tab ++ "Y1" ++ tab ++ "Z1" ++ nl ++
  "0" ++ tab ++ "0.0" ++ tab ++ "100" ++ tab ++ "200" ++ tab ++ "0" ++ nl ++
  "1" ++ tab ++ "0.5" ++ tab ++ "101" ++ tab ++ "200" ++ tab ++ "0" ++ nl.

(** line [k] of the file *)
Definition content_line (k : nat) : string :=
  nth k (readlines content) EmptyString.

Definition open_read (path : string) : result string := Ok content.

Definition float_of_string (s : string) : result float :=
  if String.eqb s "30.0" then Ok (Fin 30) else Raise ValueError.

Definition int_of_string (s : string) : result Z :=
  if String.eqb s "2" then Ok 2%Z else Raise ValueError.

Definition table : list (list float) :=
  [ [Fin 0; Fin 1]; [Fin 0; Fin (1 / 2)];
    [Fin 100; Fin 101]; [Fin 200; Fin 200]; [Fin 0; Fin 0] ].

Definition read_csv (path : string) (skiprows : nat)
  : result (list (list float)) :=
  if Nat.eqb skiprows 5 then Ok table else Raise ValueError.

Definition astype_float (col : list float) : result (list float) := Ok col.

Definition load (path : string) : option Trc.t :=
  load_trc open_read float_of_string int_of_string (list float) read_csv
           astype_float path.

End TrcExample.

Lemma load_trc_fields_witness :
  exists trc,
    TrcExample.load "walk.trc" = Some trc /\
    Trc.data_rate trc = Fin 30 /\
    Trc.frame_count trc = 2%Z /\
    Trc.marker_list trc = ["Hip"%string] /\
    Trc.time trc = [Fin 0; Fin (1 / 2)] /\
    exists xs ys,
      dict_get (Trc.markers trc) "Hip" = Some (Marker.mk xs ys) /\
      Ok xs = Ok [Fin 100; Fin 101] /\ Ok ys = Ok [Fin 200; Fin 200].
Proof.
  destruct (load_trc_fields
              TrcExample.open_read TrcExample.float_of_string
              TrcExample.int_of_string (list float) TrcExample.read_csv
              TrcExample.astype_float
              "walk.trc" TrcExample.content
              (TrcExample.content_line 2) (TrcExample.content_line 3)
              "30.0" "2" (Fin 30) 2%Z TrcExample.table
              [Fin 0; Fin (1 / 2)])
    as [trc [A [B [C [D [E [_ G]]]]]]].
  - reflexivity.
  - reflexivity.
  - reflexivity.
  - reflexivity.
  - reflexivity.
  - reflexivity.
  - reflexivity.
  - reflexivity.
  - reflexivity.
  - intros i Hi. destruct i as [|i]; [|simpl in Hi; lia].
    exists [Fin 100; Fin 101], [Fin 200; Fin 200]. split; reflexivity.
  - exists trc. repeat split; try assumption.
    destruct (G 0%nat "Hip"%string) as [xs [ys [X [Y Z]]]].
    + reflexivity.
    + simpl. intros [].
    + exists xs, ys. repeat split.
      * exact Z.
      * rewrite <- X. reflexivity.
      * rewrite <- Y. reflexivity.
Defined.

(* ------------------------------------------------------------------ *)
(** ** Click selection *)

(** the two coordinate arrays of a marker have one length, as the columns of
    one table do *)
Definition aligned (c : Marker.t) : Prop :=
  length (Marker.y c) = length (Marker.x c).

(** Distance from the click to a marker at a frame, for a marker that the
    scan of a click takes into account there: the frame is within its
    series, its x coordinate is a positive number, and its y coordinate is a
    number (a distance that is not a number is never below the best one).
    The scan does not compare the y coordinate with 0. *)
Definition click_distance (frame : Z) (vx vy : R) (c : Marker.t) : option R :=
  match getitem (Marker.x c) frame, getitem (Marker.y c) frame with
  | Ok (Fin mx), Ok (Fin my) =>
      if Rleb mx 0 then None
      else Some (sqrt ((mx - vx) * (mx - vx) + (my - vy) * (my - vy)))
  | _, _ => None
  end.

(** [name] is the nearest valid marker, at distance [d]: every valid marker
    before it in the scan is strictly farther, every one after it is at
    least as far. *)
Definition nearest (items : dict Marker.t) (frame : Z) (vx vy : R)
  (name : string) (d : R) : Prop :=
  exists before c after,
    items = before ++ (name, c) :: after /\
    click_distance frame vx vy c = Some d /\
    (forall it d', In it before ->
       click_distance frame vx vy (snd it) = Some d' -> (d < d')%R) /\
    (forall it d', In it after ->
       click_distance frame vx vy (snd it) = Some d' -> (d <= d')%R).

(** no valid marker is closer than [r] *)
Definition none_within (items : dict Marker.t) (frame : Z) (vx vy : R)
  (r : R) : Prop :=
  forall it d, In it items ->
    click_distance frame vx vy (snd it) = Some d -> (r <= d)%R.

Lemma getitem_range {A} (arr : list A) (i : Z) :
  (0 <= i)%Z ->
  (exists a, getitem arr i = Ok a /\ (i < len arr)%Z) \/
  (getitem arr i = Raise IndexError /\ (len arr <= i)%Z).
Proof.
  intros H0. destruct (Z.lt_ge_cases i (len arr)) as [L|G].
  - left. destruct (getitem_Ok arr i) as [a [E _]]; [lia|]. eauto.
  - right. split; [|exact G]. unfold getitem, len in *.
    destruct (Z.ltb_spec i 0); [lia|].
    destruct (Z.ltb_spec i (Z.of_nat (length arr))); [lia|].
    rewrite andb_false_r. reflexivity.
Qed.

(** On data in which a missing sample is flagged in both coordinates, the
    markers that the scan takes for valid are those with both coordinates
    present. *)
Lemma click_distance_both_present frame vx vy c mx my :
  getitem (Marker.x c) frame = Ok mx ->
  getitem (Marker.y c) frame = Ok my ->
  (absent my = true -> absent mx = true) ->
  click_distance frame vx vy c =
  match mx, my with
  | Fin a, Fin b =>
      if absent mx || absent my then None
      else Some (sqrt ((a - vx) * (a - vx) + (b - vy) * (b - vy)))
  | _, _ => None
  end.
Proof.
  intros Ex Ey Hxy. unfold click_distance. rewrite Ex, Ey.
  destruct mx as [|a]; [reflexivity|]. destruct my as [|b]; [reflexivity|].
  destruct (absent (Fin b)) eqn:Eb.
  - rewrite (Hxy eq_refl) in *. unfold absent in Hxy. simpl in Hxy.
    rewrite orb_false_r in Hxy. rewrite (Hxy eq_refl). reflexivity.
  - rewrite orb_false_r. unfold absent. simpl. rewrite orb_false_r.
    reflexivity.
Qed.

Lemma click_step_distance frame vx vy best bd name c :
  (0 <= frame)%Z -> aligned c ->
  click_step frame (Fin vx) (Fin vy) (best, Fin bd) (name, c) =
  Ok (match click_distance frame vx vy c with
      | Some d => if Rltb d bd then (Some name, Fin d) else (best, Fin bd)
      | None => (best, Fin bd)
      end).
Proof.
  intros H0 Hal. unfold click_step, click_distance.
  destruct (getitem_range (Marker.x c) frame H0) as [[mx [Ex Lx]]|[Ex Gx]].
  - destruct (getitem_range (Marker.y c) frame H0) as [[my [Ey _]]|[_ Gy]].
    + destruct (Z.ltb_spec frame (len (Marker.x c))); [|lia].
      rewrite Ex, Ey. simpl.
      destruct mx as [|mx]; [reflexivity|].
      unfold absent. simpl. rewrite orb_false_r.
      destruct (Rleb mx 0); [destruct my; reflexivity|].
      destruct my as [|my]; [reflexivity|].
      unfold Np.hypot. cbn [F.sub F.lift2].
      rewrite sqrt_sum_squares_Fin. cbn [F.lt].
      destruct (Rltb _ bd); reflexivity.
    + unfold aligned, len in *. lia.
  - destruct (Z.ltb_spec frame (len (Marker.x c))); [lia|].
    rewrite Ex. reflexivity.
Qed.

(** what the scan knows after a prefix of the markers *)
Definition scanned (items : dict Marker.t) (frame : Z) (vx vy : R)
  (best : option string) (bd : R) : Prop :=
  match best with
  | None => bd = 50%R /\ none_within items frame vx vy 50
  | Some name => (bd < 50)%R /\ nearest items frame vx vy name bd
  end.

Lemma scanned_step items frame vx vy best bd name c :
  scanned items frame vx vy best bd ->
  scanned (items ++ [(name, c)]) frame vx vy
    (fst (match click_distance frame vx vy c with
          | Some d => if Rltb d bd then (Some name, d) else (best, bd)
          | None => (best, bd)
          end))
    (snd (match click_distance frame vx vy c with
          | Some d => if Rltb d bd then (Some name, d) else (best, bd)
          | None => (best, bd)
          end)).
Proof.
  intros Hs.
  assert (Hle : (bd <= 50)%R).
  { destruct best; simpl in Hs; destruct Hs; lra. }
  assert (Hall : forall it d', In it items ->
            click_distance frame vx vy (snd it) = Some d' -> (bd <= d')%R).
  { intros it d' Hin Hd. destruct best as [nm|]; simpl in Hs.
    - destruct Hs as [_ [before [c0 [after [E [D0 [Hb Ha]]]]]]].
      subst items. apply in_app_or in Hin. destruct Hin as [Hin|[<-|Hin]].
      + left. eapply Hb; eauto.
      + simpl in Hd. rewrite D0 in Hd. injection Hd as <-. lra.
      + eapply Ha; eauto.
    - destruct Hs as [-> Hn]. eapply Hn; eauto. }
  destruct (click_distance frame vx vy c) as [d|] eqn:Ed.
  - destruct (Rltb d bd) eqn:El; simpl.
    + apply Rltb_true in El. split; [lra|].
      exists items, c, []. repeat split; auto.
      * intros it d' Hin Hd. specialize (Hall it d' Hin Hd). lra.
      * intros it d' [].
    + apply Rltb_false in El. destruct best as [nm|]; simpl in *.
      * destruct Hs as [Hlt [before [c0 [after [E [D0 [Hb Ha]]]]]]].
        split; [exact Hlt|].
        exists before, c0, (after ++ [(name, c)]). repeat split; auto.
        -- subst items. rewrite <- app_assoc. reflexivity.
        -- intros it d' Hin Hd. apply in_app_or in Hin.
           destruct Hin as [Hin|[<-|[]]]; [eapply Ha; eauto|].
           simpl in Hd. rewrite Ed in Hd. injection Hd as <-. exact El.
      * destruct Hs as [-> Hn]. split; [reflexivity|].
        intros it d' Hin Hd. apply in_app_or in Hin.
        destruct Hin as [Hin|[<-|[]]]; [eapply Hn; eauto|].
        simpl in Hd. rewrite Ed in Hd. injection Hd as <-. exact El.
  - simpl. destruct best as [nm|]; simpl in *.
    + destruct Hs as [Hlt [before [c0 [after [E [D0 [Hb Ha]]]]]]].
      split; [exact Hlt|].
      exists before, c0, (after ++ [(name, c)]). repeat split; auto.
      * subst items. rewrite <- app_assoc. reflexivity.
      * intros it d' Hin Hd. apply in_app_or in Hin.
        destruct Hin as [Hin|[<-|[]]]; [eapply Ha; eauto|].
        simpl in Hd. rewrite Ed in Hd. discriminate.
    + destruct Hs as [-> Hn]. split; [reflexivity|].
      intros it d' Hin Hd. apply in_app_or in Hin.
      destruct Hin as [Hin|[<-|[]]]; [eapply Hn; eauto|].
      simpl in Hd. rewrite Ed in Hd. discriminate.
Qed.

Lemma click_scan_scanned frame vx vy : forall rest done best bd,
  (0 <= frame)%Z ->
  (forall it, In it rest -> aligned (snd it)) ->
  scanned done frame vx vy best bd ->
  exists best' bd',
    click_scan rest frame (Fin vx) (Fin vy) (best, Fin bd)
    = Ok (best', Fin bd') /\
    scanned (done ++ rest) frame vx vy best' bd'.
Proof.
  induction rest as [|[name c] rest IH]; intros done best bd H0 Hal Hs.
  - exists best, bd. rewrite app_nil_r. split; [reflexivity|exact Hs].
  - cbn [click_scan]. rewrite click_step_distance;
      [|exact H0|apply (Hal (name, c)); left; reflexivity].
    cbn [rbind].
    pose proof (scanned_step done frame vx vy best bd name c Hs) as Hs'.
    destruct (IH (done ++ [(name, c)])
                 (fst (match click_distance frame vx vy c with
                       | Some d =>
                           if Rltb d bd then (Some name, d) else (best, bd)
                       | None => (best, bd)
                       end))
                 (snd (match click_distance frame vx vy c with
                       | Some d =>
                           if Rltb d bd then (Some name, d) else (best, bd)
                       | None => (best, bd)
                       end)) H0)
      as [best' [bd' [E S]]];
      [intros it Hin; apply Hal; right; exact Hin|exact Hs'|].
    exists best', bd'. rewrite <- app_assoc in S. simpl in S.
    split; [|exact S]. rewrite <- E. f_equal.
    destruct (click_distance frame vx vy c) as [d|]; [|reflexivity].
    destruct (Rltb d bd); reflexivity.
Qed.

Section Click.

Variable savgol_filter : list float -> nat -> nat -> list float.

Open Scope method_scope.

(** C6 (as amended).  A click is converted to frame pixels and the markers
    are scanned at the current frame; a marker takes part when the frame is
    within its series, its x coordinate there is a positive number and its y
    coordinate is a number, whatever the sign of y.  Either no such marker
    is closer than 50 pixels, and the method returns leaving the object, and
    so the selection, untouched; or the nearest such marker is closer than
    50 pixels and becomes the selection, where on equal distances the marker
    scanned first is the nearest. *)
Theorem on_video_click_nearest
  (s : app) (trc : Trc.t) (sf : R) (pos : QPoint) :
  trc_data s = Some trc ->
  scale_factor s = Fin sf -> sf <> 0%R ->
  (0 <= current_frame s)%Z ->
  (forall it, In it (Trc.markers trc) ->
     aligned (snd it) /\ nonempty (fst it) = true) ->
  let vx := frame_coord sf (fst pos) (offset_x s) in
  let vy := frame_coord sf (snd pos) (offset_y s) in
  let out := _on_video_click savgol_filter pos s in
  (none_within (Trc.markers trc) (current_frame s) vx vy 50 /\
   out = (s, Ok tt)) \/
  (exists name d,
     nearest (Trc.markers trc) (current_frame s) vx vy name d /\
     (d < 50)%R /\
     selected_joint (fst out) = Some name).
Proof.
  intros Htrc Hsf Hne H0 Hwf vx vy out.
  destruct (click_scan_scanned (current_frame s) vx vy
              (Trc.markers trc) [] None 50 H0) as [best [bd [E S]]].
  { intros it Hin. apply Hwf. exact Hin. }
  { split; [reflexivity|]. intros it d []. }
  simpl in S.
  assert (Eout : out =
    match best with
    | Some b =>
        if nonempty b then
          (modify (set_selected_joint (Some b)) ;;
           _compute_kinematics savgol_filter ;;
           s' <- get ;;
           _set_frame (current_frame s')) s
        else (s, Ok tt)
    | None => (s, Ok tt)
    end).
  { subst out. unfold _on_video_click. rewrite bind_get. rewrite Htrc.
    rewrite (to_frame_Fin s sf _ _ Hsf Hne). rewrite bind_lift_Ok.
    rewrite (to_frame_Fin s sf _ _ Hsf Hne). rewrite bind_lift_Ok.
    fold vx vy. rewrite E. rewrite bind_lift_Ok. simpl.
    destruct best as [b|]; [|reflexivity].
    destruct (nonempty b); reflexivity. }
  destruct best as [b|]; simpl in S.
  - right. destruct S as [Hlt Hn]. exists b, bd. repeat split; auto.
    assert (Hb : nonempty b = true).
    { destruct Hn as [before [c [after [Ei _]]]].
      apply (Hwf (b, c)). rewrite Ei. apply in_or_app. right. left.
      reflexivity. }
    rewrite Eout, Hb, bind_modify.
    assert (K : keeps selected_joint
                  (_compute_kinematics savgol_filter ;;
                   s' <- get ;; _set_frame (current_frame s'))).
    { apply keeps_bind; [apply compute_kinematics_keeps_selected_joint|].
      intros _. apply keeps_bind; [apply keeps_get|].
      intros s'. apply set_frame_keeps_selected_joint. }
    rewrite K. reflexivity.
  - left. destruct S as [_ Hn]. split; assumption.
Qed.

End Click.

Module ClickExample.

Open Scope string_scope.

(** two markers on one frame; "Hip" is 5 pixels from the point (105, 100),
    "RKnee" 15 pixels *)
Definition trc : Trc.t :=
  Trc.mk 1 (Fin 30)
    [ ("Hip", Marker.mk [Fin 100] [Fin 100]);
      ("RKnee", Marker.mk [Fin 120] [Fin 100]) ]
    ["Hip"; "RKnee"] [Fin 0].

Definition loaded : app :=
  mkApp (Some trc) None 0 1 (Fin 30) (Some Examples.video100) None None None
        "px" false false (fun _ => None) None (Fin 1) 0 0 StatusOther 0 None
        (750, 480)%Z.

End ClickExample.

Lemma click_example_distance (mx r : R) :
  (0 < mx)%R -> (0 <= r)%R -> (mx - 105 = r \/ mx - 105 = - r)%R ->
  click_distance 0 (frame_coord 1 105 0) (frame_coord 1 100 0)
    (Marker.mk [Fin mx] [Fin 100]) = Some r.
Proof.
  intros Hx Hr Hd. unfold click_distance. cbn [Marker.x Marker.y].
  change (getitem [Fin mx] 0) with (Ok (Fin mx)).
  change (getitem [Fin 100] 0) with (Ok (Fin 100)).
  cbv beta iota.
  rewrite (proj2 (Rleb_false mx 0) Hx). f_equal.
  unfold frame_coord. simpl.
  replace ((mx - 105 / 1) * (mx - 105 / 1)
           + (100 - 100 / 1) * (100 - 100 / 1))%R with (r * r)%R
    by (destruct Hd as [E|E]; field_simplify; nra).
  apply sqrt_square. exact Hr.
Qed.

(** A click at (105, 100) selects "Hip", 5 pixels away, not "RKnee", 15
    pixels away. *)
Lemma on_video_click_nearest_witness :
  selected_joint
    (fst (_on_video_click SciPy.savgol_filter (105, 100)%Z
            ClickExample.loaded)) = Some "Hip"%string.
Proof.
  assert (DH : click_distance 0 (frame_coord 1 105 0) (frame_coord 1 100 0)
                 (Marker.mk [Fin 100] [Fin 100]) = Some 5%R).
  { apply click_example_distance; lra. }
  assert (DK : click_distance 0 (frame_coord 1 105 0) (frame_coord 1 100 0)
                 (Marker.mk [Fin 120] [Fin 100]) = Some 15%R).
  { apply click_example_distance; lra. }
  destruct (on_video_click_nearest SciPy.savgol_filter ClickExample.loaded
              ClickExample.trc 1%R (105, 100)%Z)
    as [[Hnone _]|[name [d [Hn [_ Hsel]]]]].
  - reflexivity.
  - reflexivity.
  - lra.
  - simpl. lia.
  - intros it Hin. simpl in Hin.
    destruct Hin as [<-|[<-|[]]]; split; reflexivity.
  - exfalso.
    specialize (Hnone ("Hip"%string, Marker.mk [Fin 100] [Fin 100]) 5%R).
    simpl in Hnone. specialize (Hnone (or_introl eq_refl) DH). lra.
  - rewrite Hsel. f_equal.
    destruct Hn as [before [c [after [E [D [Hb _]]]]]].
    simpl in E. destruct before as [|b0 before].
    + simpl in E. injection E as <- _ _. reflexivity.
    + exfalso. simpl in E. injection E as <- E.
      destruct before as [|b1 before].
      * simpl in E. injection E as _ <- _.
        simpl in D. rewrite DK in D. injection D as <-.
        specialize (Hb _ 5%R (or_introl eq_refl) DH). lra.
      * simpl in E. injection E as _ E. destruct before; discriminate.
Defined.

(* ------------------------------------------------------------------ *)
(** ** Arithmetic on arrays of numbers *)

Lemma div_Fin a b : b <> 0%R -> (Fin a / Fin b)%float = Fin (a / b).
Proof.
  intros H. unfold F.div.
  assert (E : Reqb b 0 = false) by (apply Reqb_false; exact H).
  rewrite E. reflexivity.
Qed.

Lemma pydiv_Fin a b : b <> 0%R -> F.pydiv (Fin a) (Fin b) = Ok (Fin (a / b)).
Proof.
  intros H. unfold F.pydiv.
  assert (E : Reqb b 0 = false) by (apply Reqb_false; exact H).
  rewrite E, div_Fin by exact H. reflexivity.
Qed.

Lemma nth_map_Fin (rs : list R) k :
  (k < length rs)%nat -> nth k (map Fin rs) NaN = Fin (nth k rs 0%R).
Proof.
  intros H. rewrite (nth_indep _ NaN (Fin 0%R)) by (rewrite length_map; exact H).
  apply (map_nth Fin).
Qed.

(** [np.gradient] on an array of numbers *)
Definition gradient_R (f : list R) (dt : R) : list R :=
  let n := length f in
  map (fun i =>
         if (i =? 0)%nat then ((nth 1 f 0 - nth 0 f 0) / dt)%R
         else if (i =? n - 1)%nat
         then ((nth (n - 1) f 0 - nth (n - 2) f 0) / dt)%R
         else ((nth (i + 1) f 0 - nth (i - 1) f 0) / (2 * dt))%R)
      (seq 0 n).

(** [np.sqrt(u**2 + v**2)] on arrays of numbers *)
Definition magnitude_R (u v : list R) : list R :=
  map (fun p => sqrt (fst p * fst p + snd p * snd p)) (combine u v).

Lemma length_gradient_R f dt : length (gradient_R f dt) = length f.
Proof. unfold gradient_R. rewrite length_map, length_seq. reflexivity. Qed.

Lemma gradient_Fin (f : list R) (dt : R) :
  (2 <= length f)%nat -> dt <> 0%R ->
  Np.gradient (map Fin f) (Fin dt) = Ok (map Fin (gradient_R f dt)).
Proof.
  intros Hn Hdt. unfold Np.gradient, gradient_R. rewrite length_map.
  destruct (Nat.ltb_spec (length f) 2); [lia|].
  f_equal. rewrite map_map. apply map_ext_in. intros i Hi.
  apply in_seq in Hi.
  destruct (Nat.eqb_spec i 0).
  - rewrite !nth_map_Fin by lia. cbn [F.sub F.lift2].
    apply div_Fin. exact Hdt.
  - destruct (Nat.eqb_spec i (length f - 1)).
    + rewrite !nth_map_Fin by lia. cbn [F.sub F.lift2].
      apply div_Fin. exact Hdt.
    + rewrite !nth_map_Fin by lia. cbn [F.sub F.mul F.lift2].
      apply div_Fin. lra.
Qed.

Lemma magnitude_Fin (u v : list R) :
  length u = length v ->
  Np.magnitude (map Fin u) (map Fin v) = Ok (map Fin (magnitude_R u v)).
Proof.
  intros H. unfold Np.magnitude, zip_with, magnitude_R.
  rewrite !length_map, H, Nat.eqb_refl. f_equal.
  rewrite map_map. clear H. revert v.
  induction u as [|a u IH]; intros [|b v]; simpl; try reflexivity.
  f_equal; [|apply IH].
  assert (E : Rltb (a * a + b * b) 0 = false) by (apply Rltb_false; nra).
  rewrite E. reflexivity.
Qed.

Lemma length_magnitude_R u v :
  length u = length v -> length (magnitude_R u v) = length u.
Proof.
  intros H. unfold magnitude_R. rewrite length_map, length_combine, H.
  apply Nat.min_id.
Qed.

Lemma magnitude_R_nonneg u v :
  Forall (fun m => (0 <= m)%R) (magnitude_R u v).
Proof.
  unfold magnitude_R. apply Forall_forall. intros m Hm.
  apply in_map_iff in Hm. destruct Hm as [p [<- _]]. apply sqrt_pos.
Qed.

Lemma scale_Fin (xs : list R) (sc : R) :
  map (fun a => (a * Fin sc)%float) (map Fin xs)
  = map Fin (map (fun a => (a * sc)%R) xs).
Proof. rewrite !map_map. reflexivity. Qed.

(* ------------------------------------------------------------------ *)
(** ** Kinematics *)

(** scale of positions: [1 / px_per_unit] when calibrated, else 1 *)
Definition unit_scale (ppu : option R) : R :=
  match ppu with Some p => (1 / p)%R | None => 1%R end.

Lemma calibrated_scale s ppu :
  calibrated s = option_map Fin ppu ->
  match calibrated s with
  | Some p => (Fin 1 / p)%float
  | None => Fin 1
  end = Fin (unit_scale ppu).
Proof.
  intros H. pose proof H as H'. unfold calibrated in H'. rewrite H.
  destruct ppu as [p|]; [|reflexivity]. simpl in *.
  destruct (px_per_unit s) as [q|]; [|discriminate].
  destruct (F.truthy q) eqn:T; [|discriminate].
  injection H' as ->. simpl in T. apply negb_true_iff in T.
  rewrite T. reflexivity.
Qed.

Lemma smooth_default_short sg arr :
  (length arr <= 11)%nat -> smooth_default sg arr = arr.
Proof.
  intros H. unfold smooth_default, smooth.
  destruct (Nat.ltb_spec 11 (length arr)); [lia|reflexivity].
Qed.

Section Kinematics.

Variable savgol_filter : list float -> nat -> nat -> list float.

Open Scope method_scope.

(** The selected marker, its series of numbers, the sampling rate and the
    calibration, as [_compute_kinematics] finds them. *)
Variables (s : app) (joint : string) (trc : Trc.t) (c : Marker.t).
Variables (xs ys : list R) (rate : R) (ppu : option R).

Hypothesis selected : selected_joint s = Some joint.
Hypothesis selected_named : nonempty joint = true.
Hypothesis loaded : trc_data s = Some trc.
Hypothesis tracked : dict_get (Trc.markers trc) joint = Some c.
Hypothesis x_numbers : Marker.x c = map Fin xs.
Hypothesis y_numbers : Marker.y c = map Fin ys.
Hypothesis rate_number : Trc.data_rate trc = Fin rate.
Hypothesis rate_nonzero : rate <> 0%R.
Hypothesis scale_number : calibrated s = option_map Fin ppu.
Hypothesis two_samples : (2 <= length xs)%nat.
Hypothesis same_length : length ys = length xs.

Let sc : R := unit_scale ppu.
Let dt : R := (1 / rate)%R.
Let vx : list R := gradient_R (map (fun a => a * sc)%R xs) dt.
Let vy : list R := gradient_R (map (fun a => a * sc)%R ys) dt.
Let ax : list R := gradient_R vx dt.
Let ay : list R := gradient_R vy dt.

Lemma dt_nonzero : dt <> 0%R.
Proof.
  unfold dt, Rdiv. rewrite Rmult_1_l. apply Rinv_neq_0_compat.
  exact rate_nonzero.
Qed.

Ltac run_velocity :=
  unfold _compute_kinematics;
  rewrite bind_get, selected, loaded, selected_named; cbn [negb];
  unfold dict_getitem; rewrite tracked, bind_lift_Ok;
  rewrite rate_number, (pydiv_Fin 1 rate rate_nonzero), bind_lift_Ok,
    bind_modify;
  rewrite (calibrated_scale s ppu scale_number), x_numbers, y_numbers,
    !scale_Fin;
  rewrite gradient_Fin, bind_lift_Ok
    by (try rewrite length_map; try exact dt_nonzero; lia);
  rewrite gradient_Fin, bind_lift_Ok
    by (try rewrite length_map; try exact dt_nonzero; lia);
  rewrite !bind_modify;
  rewrite magnitude_Fin, bind_lift_Ok
    by (rewrite !length_gradient_R, !length_map; lia);
  rewrite bind_modify;
  fold sc; fold dt; fold vx; fold vy.

(** The velocity caches after a recomputation, for a series of any length:
    each is the smoothing of the raw derivative, and the total velocity is
    the smoothing of the magnitude of the raw derivatives. *)
Lemma compute_kinematics_velocity :
  let s' := fst (_compute_kinematics savgol_filter s) in
  _cache_vx s' = Some (smooth_default savgol_filter (map Fin vx)) /\
  _cache_vy s' = Some (smooth_default savgol_filter (map Fin vy)) /\
  _cache_vtotal s' =
  Some (smooth_default savgol_filter (map Fin (magnitude_R vx vy))).
Proof.
  cbv zeta. run_velocity.
  match goal with
  | |- _ (fst (?m ?st)) = _ /\ _ =>
      assert (K : forall k, k = k_vx \/ k = k_vy \/ k = k_vtotal ->
                   keeps (fun a => _cache a k) m)
  end.
  { intros k [->|[->| ->]]; keeps_tac. }
  unfold _cache_vx, _cache_vy, _cache_vtotal.
  rewrite (K k_vx), (K k_vy), (K k_vtotal) by tauto.
  repeat split.
Qed.

(** The acceleration caches when the series is short enough for [smooth] to
    pass it through. *)
Lemma compute_kinematics_short :
  (length xs <= 11)%nat ->
  let s' := fst (_compute_kinematics savgol_filter s) in
  _cache_vtotal s' = Some (map Fin (magnitude_R vx vy)) /\
  _cache_atotal s' = Some (map Fin (magnitude_R ax ay)).
Proof.
  intros Hshort. cbv zeta. split.
  - destruct compute_kinematics_velocity as [_ [_ H]]. rewrite H.
    rewrite smooth_default_short; [reflexivity|].
    rewrite length_map, length_magnitude_R;
      unfold vx, vy; rewrite !length_gradient_R, !length_map; lia.
  - run_velocity.
    assert (Lx : length vx = length xs).
    { unfold vx. rewrite length_gradient_R, length_map. reflexivity. }
    assert (Ly : length vy = length xs).
    { unfold vy. rewrite length_gradient_R, length_map. lia. }
    rewrite !(smooth_default_short savgol_filter (map Fin vx))
      by (rewrite length_map; lia).
    rewrite !(smooth_default_short savgol_filter (map Fin vy))
      by (rewrite length_map; lia).
    rewrite gradient_Fin, bind_lift_Ok by (try exact dt_nonzero; lia).
    rewrite gradient_Fin, bind_lift_Ok by (try exact dt_nonzero; lia).
    rewrite !bind_modify.
    rewrite magnitude_Fin, bind_lift_Ok
      by (rewrite !length_gradient_R; lia).
    rewrite bind_modify. fold ax. fold ay.
    rewrite (smooth_default_short savgol_filter (map Fin (magnitude_R ax ay)))
      by (rewrite length_map, length_magnitude_R;
          unfold ax, ay; rewrite !length_gradient_R; lia).
    match goal with
    | |- _ (fst (?m ?st)) = _ =>
        assert (K : keeps (fun a => _cache a k_atotal) m) by keeps_tac
    end.
    unfold _cache_atotal. rewrite K. reflexivity.
Qed.

End Kinematics.

(* ------------------------------------------------------------------ *)
(** ** Overlays *)

Lemma getitem_Ok_lt {A} (arr : list A) (i : Z) (a : A) :
  (0 <= i)%Z -> getitem arr i = Ok a -> (i < len arr)%Z.
Proof.
  intros H0 E. destruct (getitem_range arr i H0) as [[b [_ L]]|[R _]].
  - exact L.
  - rewrite R in E. discriminate.
Qed.

Lemma recentre_same (a : float) (h : R) : (a - Fin h + Fin h)%float = a.
Proof. destruct a as [|r]; simpl; [reflexivity|]. f_equal. lra. Qed.

Lemma both_present_absent_l x1 x2 : absent x1 = true -> both_present x1 x2 = false.
Proof.
  unfold absent, both_present. destruct x1 as [|r]; simpl; [reflexivity|].
  rewrite orb_false_r. intros H. apply Rleb_true in H.
  assert (E : Rltb 0 r = false) by (apply Rltb_false; exact H).
  rewrite E. reflexivity.
Qed.

Lemma both_present_absent_r x1 x2 : absent x2 = true -> both_present x1 x2 = false.
Proof.
  unfold absent, both_present. destruct x2 as [|r]; simpl.
  - intros _. rewrite orb_true_r. apply andb_false_r.
  - rewrite orb_false_r. intros H. apply Rleb_true in H.
    assert (E : Rltb 0 r = false) by (apply Rltb_false; exact H).
    rewrite E. rewrite andb_false_r. reflexivity.
Qed.

(** the line that a trail draws between two points *)
Definition segment (x1 y1 x2 y2 : float) (clr : color) : result (list prim) :=
  (p1 <- int_point x1 y1 ;;
   p2 <- int_point x2 y2 ;;
   Ok [Line p1 p2 clr 2%Z])%result.

(** the colour of segment [i] of the absolute trail *)
Definition trail_colour (idx trail_len i : Z) : color :=
  (Z.min 255 (Z.quot (255 * (i - (idx - trail_len))) (Z.max trail_len 1)),
   200, 80)%Z.

(** C8.  When the reference marker "Hip" has one and the same valid position
    at every frame of the trailing window up to the current frame, the two
    recentred end points of every segment of the relative trail are the
    selected marker's own positions at the two frames, that is the end points
    of the same segment of the absolute trail; so where the absolute trail
    draws a segment, the relative trail draws a line between the same
    pixels. *)
Theorem relative_trail_stationary
  (c hip : Marker.t) (idx i : Z) (hx hy : R) :
  aligned c ->
  (Z.max 0 (idx - Z.min 60 idx) <= i < idx)%Z ->
  (i + 1 < len (Marker.x c))%Z ->
  (0 < hx)%R ->
  (forall k, (Z.max 0 (idx - Z.min 60 idx) <= k <= idx)%Z ->
     getitem (Marker.x hip) k = Ok (Fin hx) /\
     getitem (Marker.y hip) k = Ok (Fin hy)) ->
  exists x1 y1 x2 y2,
    getitem (Marker.x c) i = Ok x1 /\ getitem (Marker.y c) i = Ok y1 /\
    getitem (Marker.x c) (i + 1) = Ok x2 /\
    getitem (Marker.y c) (i + 1) = Ok y2 /\
    relative_points c hip (Fin hx) (Fin hy) i
    = Ok (Some ((x1, y1), (x2, y2))) /\
    relative_step c hip (Fin hx) (Fin hy) i
    = segment x1 y1 x2 y2 (80, 200, 255)%Z /\
    trail_step c idx (Z.min 60 idx) i
    = if both_present x1 x2
      then segment x1 y1 x2 y2 (trail_colour idx (Z.min 60 idx) i)
      else Ok [].
Proof.
  intros Hal Hi Hlen Hhx Hhip.
  assert (H0 : (0 <= i)%Z) by lia.
  assert (Ly : len (Marker.y c) = len (Marker.x c)).
  { unfold len. rewrite Hal. reflexivity. }
  destruct (getitem_Ok (Marker.x c) i) as [x1 [Ex1 _]]; [lia|].
  destruct (getitem_Ok (Marker.y c) i) as [y1 [Ey1 _]]; [lia|].
  destruct (getitem_Ok (Marker.x c) (i + 1)) as [x2 [Ex2 _]]; [lia|].
  destruct (getitem_Ok (Marker.y c) (i + 1)) as [y2 [Ey2 _]]; [lia|].
  destruct (Hhip i) as [Hxi Hyi]; [lia|].
  destruct (Hhip (i + 1)%Z) as [Hxj Hyj]; [lia|].
  pose proof (getitem_Ok_lt _ _ _ H0 Hxi) as Lhi.
  assert (Lhj : (i + 1 < len (Marker.x hip))%Z).
  { apply (getitem_Ok_lt _ _ (Fin hx)); [lia|exact Hxj]. }
  assert (Lhj' : (i + 1 < len (Marker.y hip))%Z).
  { apply (getitem_Ok_lt _ _ (Fin hy)); [lia|exact Hyj]. }
  assert (P : relative_points c hip (Fin hx) (Fin hy) i
              = Ok (Some ((x1, y1), (x2, y2)))).
  { unfold relative_points.
    destruct (Z.geb_spec i (len (Marker.x c))); [lia|].
    destruct (Z.geb_spec (i + 1) (len (Marker.x c))); [lia|].
    destruct (Z.geb_spec i (len (Marker.x hip))); [lia|].
    cbn [orb]. rewrite Hxi, Hyi. cbn [rbind].
    assert (Ea : absent (Fin hx) = false).
    { unfold absent. simpl. rewrite orb_false_r. apply Rleb_false. exact Hhx. }
    rewrite Ea, Ex1, Ey1. cbn [rbind].
    rewrite (Z.min_l (i + 1) (len (Marker.x c) - 1)) by lia.
    rewrite (Z.min_l (i + 1) (len (Marker.x hip) - 1)) by lia.
    rewrite (Z.min_l (i + 1) (len (Marker.y hip) - 1)) by lia.
    rewrite Hxj, Hyj, Ex2, Ey2. cbn [rbind].
    rewrite !recentre_same. reflexivity. }
  exists x1, y1, x2, y2. repeat split; try assumption.
  - unfold relative_step. rewrite P. reflexivity.
  - unfold trail_step.
    destruct (Z.ltb_spec i (len (Marker.x c))); [|lia].
    destruct (Z.ltb_spec (i + 1) (len (Marker.x c))); [|lia].
    cbn [andb]. rewrite Ex1, Ey1, Ex2, Ey2. cbn [rbind].
    destruct (both_present x1 x2); reflexivity.
Qed.

(** With the reference marker valid at the current frame, the relative
    trail is the loop of [relative_step] over the trailing window, recentred
    on the reference marker's current position. *)
Lemma draw_relative_trajectory_loop markers c hip idx hx hy :
  (0 <= idx)%Z -> (0 < hx)%R ->
  dict_get markers "Hip" = Some hip ->
  getitem (Marker.x hip) idx = Ok (Fin hx) ->
  getitem (Marker.y hip) idx = Ok (Fin hy) ->
  draw_relative_trajectory markers c idx =
  for_each (range (Z.max 0 (idx - Z.min 60 idx)) idx)
           (relative_step c hip (Fin hx) (Fin hy)).
Proof.
  intros H0 Hhx Hhip Ex Ey. unfold draw_relative_trajectory.
  rewrite Hhip. pose proof (getitem_Ok_lt _ _ _ H0 Ex) as L.
  destruct (Z.ltb_spec idx (len (Marker.x hip))); [|lia].
  rewrite Ex, Ey. cbn [rbind F.gt F.lt F.isnan negb].
  rewrite (proj2 (Rltb_true 0 hx) Hhx). reflexivity.
Qed.

Module TrailExample.

(** a marker moving right while the reference marker stands still *)
Definition knee : Marker.t :=
  Marker.mk [Fin 10; Fin 11; Fin 12] [Fin 20; Fin 20; Fin 20].
Definition hip : Marker.t :=
  Marker.mk [Fin 50; Fin 50; Fin 50] [Fin 60; Fin 60; Fin 60].

End TrailExample.

Lemma relative_trail_stationary_witness :
  exists x1 y1 x2 y2,
    getitem (Marker.x TrailExample.knee) 1 = Ok x1 /\
    getitem (Marker.y TrailExample.knee) 1 = Ok y1 /\
    getitem (Marker.x TrailExample.knee) (1 + 1) = Ok x2 /\
    getitem (Marker.y TrailExample.knee) (1 + 1) = Ok y2 /\
    relative_points TrailExample.knee TrailExample.hip (Fin 50) (Fin 60) 1
    = Ok (Some ((x1, y1), (x2, y2))) /\
    relative_step TrailExample.knee TrailExample.hip (Fin 50) (Fin 60) 1
    = segment x1 y1 x2 y2 (80, 200, 255)%Z /\
    trail_step TrailExample.knee 2 (Z.min 60 2) 1
    = if both_present x1 x2
      then segment x1 y1 x2 y2 (trail_colour 2 (Z.min 60 2) 1)
      else Ok [].
Proof.
  apply (relative_trail_stationary
           TrailExample.knee TrailExample.hip 2 1 50 60).
  - reflexivity.
  - simpl. lia.
  - unfold len. simpl. lia.
  - lra.
  - intros k Hk. simpl in Hk.
    assert (Ek : k = 0%Z \/ k = 1%Z \/ k = 2%Z) by lia.
    destruct Ek as [->|[->| ->]]; split; reflexivity.
Defined.

(** C2 (as amended).  A marker whose x coordinate at frame [k] is not
    positive or not a number is left out at that frame: its iteration of the
    dots loop draws nothing, both absolute-trail segments touching frame [k]
    draw nothing, and so does every bone that has the marker at an end; none
    of these raises. *)
Theorem missing_x_skipped (s : app) (name : string) (c : Marker.t) (k : Z)
  (xk : float) :
  (0 <= k)%Z -> aligned c ->
  getitem (Marker.x c) k = Ok xk -> absent xk = true ->
  dot_step s k (name, c) = Ok [] /\
  (forall idx trail_len,
     trail_step c idx trail_len k = Ok [] /\
     trail_step c idx trail_len (k - 1) = Ok []) /\
  (forall markers a b,
     (forall nm m, dict_get markers nm = Some m -> aligned m) ->
     dict_get markers a = Some c \/ dict_get markers b = Some c ->
     bone_step markers k (a, b) = Ok []).
Proof.
  intros H0 Hal Ex Hab.
  pose proof (getitem_Ok_lt _ _ _ H0 Ex) as Lk.
  assert (Ly : forall m, aligned m -> len (Marker.y m) = len (Marker.x m)).
  { intros m Hm. unfold len. rewrite Hm. reflexivity. }
  assert (Gy : forall m i, aligned m -> (0 <= i < len (Marker.x m))%Z ->
             exists v, getitem (Marker.y m) i = Ok v).
  { intros m i Hm Hi. destruct (getitem_Ok (Marker.y m) i) as [v [E _]];
      [rewrite (Ly m Hm); exact Hi|]. eauto. }
  split; [|split].
  - unfold dot_step.
    destruct (Z.ltb_spec k (len (Marker.x c))); [|lia].
    destruct (Gy c k Hal) as [yk Ey]; [lia|].
    rewrite Ex, Ey. cbn [rbind]. rewrite Hab. reflexivity.
  - intros idx trail_len. split.
    + unfold trail_step.
      destruct (Z.ltb_spec k (len (Marker.x c))); [|reflexivity].
      destruct (Z.ltb_spec (k + 1) (len (Marker.x c))); [|reflexivity].
      cbn [andb].
      destruct (Gy c k Hal) as [y1 Ey1]; [lia|].
      destruct (getitem_Ok (Marker.x c) (k + 1)) as [x2 [Ex2 _]]; [lia|].
      destruct (Gy c (k + 1)%Z Hal) as [y2 Ey2]; [lia|].
      rewrite Ex, Ey1, Ex2, Ey2. cbn [rbind].
      rewrite both_present_absent_l by exact Hab. reflexivity.
    + unfold trail_step. replace (k - 1 + 1)%Z with k by lia.
      destruct (Z.ltb_spec (k - 1) (len (Marker.x c))); [|reflexivity].
      destruct (Z.ltb_spec k (len (Marker.x c))); [|reflexivity].
      cbn [andb].
      destruct (Z.lt_ge_cases (k - 1) 0) as [Neg|Pos].
      * (* k = 0: the index -1 is the last sample *)
        assert (k = 0%Z) by lia. subst k.
        destruct (getitem_Ok (Marker.x c) (len (Marker.x c) - 1))
          as [x1 [Ex1 _]]; [lia|].
        destruct (Gy c (len (Marker.x c) - 1)%Z Hal) as [y1 Ey1]; [lia|].
        destruct (Gy c 0%Z Hal) as [y2 Ey2]; [lia|].
        assert (W : forall A (arr : list A),
                  (0 < len arr)%Z ->
                  getitem arr (0 - 1) = getitem arr (len arr - 1)).
        { intros A arr Hpos. unfold getitem, len in *.
          destruct (Z.ltb_spec (0 - 1) 0); [|lia].
          destruct (Z.ltb_spec (Z.of_nat (length arr) - 1) 0); [lia|].
          replace (0 - 1 + Z.of_nat (length arr))%Z
            with (Z.of_nat (length arr) - 1)%Z by lia.
          reflexivity. }
        rewrite (W _ (Marker.x c)) by lia.
        rewrite (W _ (Marker.y c)) by (rewrite (Ly c Hal); lia).
        rewrite (Ly c Hal), Ex1, Ey1, Ex, Ey2. cbn [rbind].
        rewrite both_present_absent_r by exact Hab. reflexivity.
      * destruct (getitem_Ok (Marker.x c) (k - 1)) as [x1 [Ex1 _]]; [lia|].
        destruct (Gy c (k - 1)%Z Hal) as [y1 Ey1]; [lia|].
        destruct (Gy c k Hal) as [y2 Ey2]; [lia|].
        rewrite Ex1, Ey1, Ex, Ey2. cbn [rbind].
        rewrite both_present_absent_r by exact Hab. reflexivity.
  - intros markers a b Hall Hc. unfold bone_step.
    destruct (dict_get markers a) as [ma|] eqn:Ea; [|reflexivity].
    destruct (dict_get markers b) as [mb|] eqn:Eb; [|reflexivity].
    destruct (Z.ltb_spec k (len (Marker.x ma))); [|reflexivity].
    destruct (Z.ltb_spec k (len (Marker.x mb))); [|reflexivity].
    cbn [andb].
    destruct (getitem_Ok (Marker.x ma) k) as [x1 [Ex1 _]]; [lia|].
    destruct (Gy ma k (Hall _ _ Ea)) as [y1 Ey1]; [lia|].
    destruct (getitem_Ok (Marker.x mb) k) as [x2 [Ex2 _]]; [lia|].
    destruct (Gy mb k (Hall _ _ Eb)) as [y2 Ey2]; [lia|].
    rewrite Ex1, Ey1, Ex2, Ey2. cbn [rbind].
    destruct Hc as [Hc|Hc]; injection Hc as ->.
    + rewrite Ex in Ex1. injection Ex1 as <-.
      rewrite both_present_absent_l by exact Hab. reflexivity.
    + rewrite Ex in Ex2. injection Ex2 as <-.
      rewrite both_present_absent_r by exact Hab. reflexivity.
Qed.

Lemma trunc_IZR (z : Z) : F.trunc (IZR z) = z.
Proof.
  assert (I : forall n, Int_part (IZR n) = n).
  { intros n. unfold Int_part.
    rewrite <- (up_tech (IZR n) n); [lia|lra|].
    rewrite plus_IZR. lra. }
  unfold F.trunc. destruct (Rleb 0 (IZR z)).
  - apply I.
  - rewrite <- opp_IZR, I. lia.
Qed.

Module MissingExample.

Open Scope string_scope.

(** a single marker "Hip" on a single frame *)
Definition one_marker (m : Marker.t) : app :=
  mkApp (Some (Trc.mk 1 (Fin 30) [("Hip", m)] ["Hip"] [Fin 0]))
        None 0 1 (Fin 30) (Some Examples.video100) None None None
        "px" false false (fun _ => None) None (Fin 1) 0 0 StatusOther 0 None
        (750, 480)%Z.

(** x detected, y flagged missing by the value -1, or not a number *)
Definition y_negative : Marker.t := Marker.mk [Fin 10] [Fin (-1)].
Definition y_nan : Marker.t := Marker.mk [Fin 10] [NaN].

(** the selected marker is not detected at the middle frame of three *)
Definition gap : app :=
  mkApp (Some (Trc.mk 3 (Fin 1)
                 [("Hip", Marker.mk [Fin 10; Fin (-1); Fin 10]
                                    [Fin 5; Fin (-1); Fin 5])]
                 ["Hip"] [Fin 0; Fin 1; Fin 2]))
        None 0 3 (Fin 1) (Some Examples.video100) None (Some "Hip") None
        "px" false false (fun _ => None) None (Fin 1) 0 0 StatusOther 0 None
        (750, 480)%Z.

(** a marker not detected at the middle frame *)
Definition x_gap : Marker.t :=
  Marker.mk [Fin 10; Fin (-1); Fin 12] [Fin 20; Fin (-1); Fin 20].

End MissingExample.

(** a coordinate that the data flags as missing: not positive, or not a
    number *)
Definition spec_missing (v : float) : bool :=
  match v with
  | NaN => true
  | Fin r => Rleb r 0
  end.

(** a marker with a valid (non-missing) coordinate at a frame, in the words
    of the specification: both x and y are there and neither is missing *)
Definition spec_valid (frame : Z) (c : Marker.t) : Prop :=
  exists mx my,
    getitem (Marker.x c) frame = Ok mx /\
    getitem (Marker.y c) frame = Ok my /\
    spec_missing mx = false /\ spec_missing my = false.

(** The markers that the scan of a click takes into account are those whose
    x coordinate is a positive number and whose y coordinate is a number. *)
Lemma click_distance_scanned frame vx vy c d :
  click_distance frame vx vy c = Some d <->
  exists mx my,
    getitem (Marker.x c) frame = Ok (Fin mx) /\
    getitem (Marker.y c) frame = Ok (Fin my) /\
    (0 < mx)%R /\
    d = sqrt ((mx - vx) * (mx - vx) + (my - vy) * (my - vy)).
Proof.
  unfold click_distance. split.
  - destruct (getitem (Marker.x c) frame) as [[|mx]|]; try discriminate.
    destruct (getitem (Marker.y c) frame) as [[|my]|]; try discriminate.
    destruct (Rleb mx 0) eqn:E; [discriminate|].
    intros H. injection H as <-. exists mx, my.
    repeat split. apply Rleb_false. exact E.
  - intros [mx [my [-> [-> [Hx ->]]]]].
    rewrite (proj2 (Rleb_false mx 0) Hx). reflexivity.
Qed.

(** C6 fails as stated.  The only marker has its y coordinate flagged
    missing by the value -1, so no marker has a valid coordinate at the
    frame and nothing should be selected; a click one pixel from it selects
    it. *)
Lemma click_selects_marker_missing_y :
  spec_missing (Fin (-1)) = true /\
  ~ spec_valid 0 MissingExample.y_negative /\
  selected_joint (MissingExample.one_marker MissingExample.y_negative)
  = None /\
  selected_joint
    (fst (_on_video_click SciPy.savgol_filter (10, 0)%Z
            (MissingExample.one_marker MissingExample.y_negative)))
  = Some "Hip"%string.
Proof.
  assert (M : spec_missing (Fin (-1)) = true).
  { unfold spec_missing. apply Rleb_true. lra. }
  split; [exact M|]. split.
  { intros [mx [my [_ [Ey [_ Hy]]]]].
    change (getitem (Marker.y MissingExample.y_negative) 0)
      with (Ok (Fin (-1))) in Ey.
    injection Ey as <-. rewrite M in Hy. discriminate Hy. }
  split; [reflexivity|].
  assert (D : click_distance 0 (frame_coord 1 10 0) (frame_coord 1 0 0)
                MissingExample.y_negative = Some 1%R).
  { apply click_distance_scanned. exists 10%R, (-1)%R.
    split; [reflexivity|]. split; [reflexivity|]. split; [lra|].
    unfold frame_coord. simpl.
    replace ((10 - 10 / 1) * (10 - 10 / 1)
             + (-1 - 0 / 1) * (-1 - 0 / 1))%R with 1%R by field.
    symmetry. apply sqrt_1. }
  unfold _on_video_click. rewrite bind_get.
  change (trc_data (MissingExample.one_marker MissingExample.y_negative))
    with (Some (Trc.mk 1 (Fin 30)
                  [("Hip"%string, MissingExample.y_negative)]
                  ["Hip"%string] [Fin 0])).
  cbv beta iota.
  assert (Hsf : (1 <> 0)%R) by lra.
  assert (Es : scale_factor
                 (MissingExample.one_marker MissingExample.y_negative)
               = Fin 1) by reflexivity.
  rewrite (to_frame_Fin _ 1 _ _ Es Hsf), bind_lift_Ok.
  rewrite (to_frame_Fin _ 1 _ _ Es Hsf), bind_lift_Ok.
  change (offset_x (MissingExample.one_marker MissingExample.y_negative))
    with 0%Z.
  change (offset_y (MissingExample.one_marker MissingExample.y_negative))
    with 0%Z.
  change (current_frame (MissingExample.one_marker MissingExample.y_negative))
    with 0%Z.
  cbn [Trc.markers click_scan fst snd].
  rewrite click_step_distance; [|lia|reflexivity].
  rewrite D. rewrite (proj2 (Rltb_true 1 50)) by lra.
  cbn [rbind]. rewrite bind_lift_Ok. cbn [fst nonempty].
  rewrite bind_modify.
  match goal with
  | |- selected_joint (fst (?m ?st)) = _ =>
      assert (K : keeps selected_joint m)
  end.
  { apply keeps_bind; [apply compute_kinematics_keeps_selected_joint|].
    intros _. apply keeps_bind; [apply keeps_get|].
    intros s'. apply set_frame_keeps_selected_joint. }
  rewrite K. reflexivity.
Qed.

Lemma absent_negative (r : R) : (r <= 0)%R -> absent (Fin r) = true.
Proof.
  intros H. unfold absent. simpl.
  rewrite (proj2 (Rleb_true r 0) H). reflexivity.
Defined.

Lemma absent_positive (r : R) : (0 < r)%R -> absent (Fin r) = false.
Proof.
  intros H. unfold absent. simpl.
  rewrite (proj2 (Rleb_false r 0) H). reflexivity.
Qed.

Lemma missing_x_skipped_witness :
  dot_step Examples.fresh 1 ("Hip"%string, MissingExample.x_gap) = Ok [] /\
  (forall idx trail_len,
     trail_step MissingExample.x_gap idx trail_len 1 = Ok [] /\
     trail_step MissingExample.x_gap idx trail_len (1 - 1) = Ok []) /\
  (forall markers a b,
     (forall nm m, dict_get markers nm = Some m -> aligned m) ->
     dict_get markers a = Some MissingExample.x_gap \/
     dict_get markers b = Some MissingExample.x_gap ->
     bone_step markers 1 (a, b) = Ok []).
Proof.
  apply (missing_x_skipped Examples.fresh "Hip"%string
           MissingExample.x_gap 1 (Fin (-1))).
  - lia.
  - reflexivity.
  - reflexivity.
  - apply absent_negative. lra.
Defined.

(** C2 fails as stated.  A marker whose y coordinate is the missing value -1
    while its x coordinate is valid is drawn as a dot; with a y coordinate
    that is not a number the renderer raises; and the kinematics differentiate
    across a missing sample: the velocity at the frames next to it is
    computed from the value -1. *)
Lemma missing_sample_not_excluded :
  absent (Fin (-1)) = true /\ absent NaN = true /\
  _draw_overlays (MissingExample.one_marker MissingExample.y_negative) 0
  = Ok [Circle (10, -1)%Z 4 CLR_DOT] /\
  _draw_overlays (MissingExample.one_marker MissingExample.y_nan) 0
  = Raise ValueError /\
  _cache_vx (fst (_compute_kinematics SciPy.savgol_filter MissingExample.gap))
  = Some [Fin (-11); Fin 0; Fin 11].
Proof.
  split; [apply absent_negative; lra|]. split; [reflexivity|].
  assert (Sk : forall m,
            draw_skeleton [("Hip"%string, m)] 0 = Ok []) by reflexivity.
  split; [|split].
  - unfold _draw_overlays, MissingExample.one_marker. cbn [trc_data Trc.markers].
    cbn [selected_marker selected_joint rbind]. rewrite Sk. cbn [rbind].
    unfold draw_dots. cbn [for_each]. unfold dot_step.
    cbn [MissingExample.y_negative Marker.x Marker.y].
    change (getitem [Fin 10] 0) with (Ok (Fin 10)).
    change (getitem [Fin (-1)] 0) with (Ok (Fin (-1))).
    change (0 <? len [Fin 10])%Z with true. cbn [rbind].
    rewrite absent_positive by lra. cbn [selected_joint].
    unfold int_point. cbn [F.to_int rbind].
    rewrite (trunc_IZR 10), (trunc_IZR (-1)). reflexivity.
  - unfold _draw_overlays, MissingExample.one_marker. cbn [trc_data Trc.markers].
    cbn [selected_marker selected_joint rbind]. rewrite Sk. cbn [rbind].
    unfold draw_dots. cbn [for_each]. unfold dot_step.
    cbn [MissingExample.y_nan Marker.x Marker.y].
    change (getitem [Fin 10] 0) with (Ok (Fin 10)).
    change (getitem [NaN] 0) with (@Ok float NaN).
    change (0 <? len [Fin 10])%Z with true. cbn [rbind].
    rewrite absent_positive by lra. cbn [selected_joint].
    unfold int_point. cbn [F.to_int rbind]. reflexivity.
  - destruct (compute_kinematics_velocity SciPy.savgol_filter
                MissingExample.gap "Hip"%string
                (Trc.mk 3 (Fin 1)
                   [("Hip"%string, Marker.mk [Fin 10; Fin (-1); Fin 10]
                                             [Fin 5; Fin (-1); Fin 5])]
                   ["Hip"%string] [Fin 0; Fin 1; Fin 2])
                (Marker.mk [Fin 10; Fin (-1); Fin 10]
                           [Fin 5; Fin (-1); Fin 5])
                [10; -1; 10]%R [5; -1; 5]%R 1%R None)
      as [H _]; try reflexivity; try lra; try (simpl; lia).
    rewrite H. rewrite smooth_default_short
      by (rewrite length_map, length_gradient_R; simpl; lia).
    cbv [gradient_R unit_scale map seq length nth Nat.eqb Nat.sub Nat.add].
    f_equal. repeat (apply f_equal2; [f_equal; field| ]); reflexivity.
Qed.

(* ------------------------------------------------------------------ *)
(** ** The Savitzky-Golay filter on arrays of numbers *)

(** weighted sum of a window of numbers *)
Definition dot_R (cs w : list R) : R :=
  fold_right Rplus 0%R (map (fun p => (fst p * snd p)%R) (combine cs w)).

(** value at position [p] of the least-squares cubic through [w] *)
Definition fit_R (w : list R) (p : nat) : R :=
  dot_R (map (fun k => SciPy.basis k p) (seq 0 4))
        (map (fun k => (dot_R (map (SciPy.basis k) SciPy.positions) w
                        / SciPy.norm2 k)%R) (seq 0 4)).

Lemma dot_Fin cs w :
  length cs = length w -> SciPy.dot cs (map Fin w) = Fin (dot_R cs w).
Proof.
  unfold SciPy.dot, dot_R. revert w.
  induction cs as [|a cs IH]; intros [|b w] H; try discriminate; simpl;
    [reflexivity|].
  rewrite IH by (simpl in H; lia). reflexivity.
Qed.

Lemma norm2_nonzero k : SciPy.norm2 k <> 0%R.
Proof. destruct k as [|[|[|k]]]; simpl; lra. Qed.

Lemma polyfit_Fin w p :
  length w = 11%nat ->
  SciPy.polyval (SciPy.polyfit (map Fin w)) p = Fin (fit_R w p).
Proof.
  intros H. unfold SciPy.polyval, SciPy.polyfit, fit_R.
  assert (E : map (fun k =>
                     (SciPy.dot (map (SciPy.basis k) SciPy.positions)
                                (map Fin w) / Fin (SciPy.norm2 k))%float)
                  (seq 0 4)
              = map Fin
                  (map (fun k =>
                          (dot_R (map (SciPy.basis k) SciPy.positions) w
                           / SciPy.norm2 k)%R) (seq 0 4))).
  { rewrite map_map. apply map_ext. intros k.
    rewrite dot_Fin
      by (rewrite length_map; unfold SciPy.positions; rewrite length_seq;
          lia).
    apply div_Fin. apply norm2_nonzero. }
  rewrite E. apply dot_Fin. rewrite !length_map. reflexivity.
Qed.

Lemma window_of_eleven (w : list R) :
  length w = 11%nat ->
  exists a0 a1 a2 a3 a4 a5 a6 a7 a8 a9 a10,
    w = [a0; a1; a2; a3; a4; a5; a6; a7; a8; a9; a10].
Proof.
  intros H. do 11 (destruct w as [|? w]; [discriminate|]).
  destruct w; [|discriminate]. repeat eexists.
Qed.

Ltac window_arith :=
  cbv [dot_R fit_R SciPy.coeffs SciPy.positions SciPy.basis SciPy.norm2
       map seq combine fold_right fst snd nth Z.of_nat Pos.of_succ_nat
       Pos.succ];
  field.

(** The fitted cubic is the least-squares one: the residual of the window is
    orthogonal to each of the four basis cubics, which span the cubics. *)
Lemma fit_normal_equations w k :
  length w = 11%nat -> (k < 4)%nat ->
  dot_R (map (SciPy.basis k) SciPy.positions)
        (map (fun p => (nth p w 0 - fit_R w p)%R) SciPy.positions) = 0%R.
Proof.
  intros H Hk.
  destruct (window_of_eleven w H)
    as (a0 & a1 & a2 & a3 & a4 & a5 & a6 & a7 & a8 & a9 & a10 & ->).
  destruct k as [|[|[|[|k]]]]; [| | | |lia]; window_arith.
Qed.

(** The filter coefficients give the fitted cubic's value at the centre. *)
Lemma coeffs_centre_fit w :
  length w = 11%nat -> dot_R SciPy.coeffs w = fit_R w 5.
Proof.
  intros H.
  destruct (window_of_eleven w H)
    as (a0 & a1 & a2 & a3 & a4 & a5 & a6 & a7 & a8 & a9 & a10 & ->).
  window_arith.
Qed.

(** A constant series is left as it is by the filter inside the series. *)
Lemma coeffs_sum_to_one : dot_R SciPy.coeffs (repeat 1%R 11) = 1%R.
Proof. cbv [repeat]. window_arith. Qed.

(* ------------------------------------------------------------------ *)
(** ** Total velocity and total acceleration *)

Module KinExample.

Open Scope string_scope.

Definition times (n : nat) : list float :=
  map (fun k => Fin (IZR (Z.of_nat k) / 30)) (seq 0 n).

(** the marker "RKnee" selected, 30 samples per second, not calibrated *)
Definition selected_knee (knee : Marker.t) : app :=
  mkApp (Some (Trc.mk (len (Marker.x knee)) (Fin 30) [("RKnee", knee)]
                 ["RKnee"] (times (length (Marker.x knee)))))
        None 0 (len (Marker.x knee)) (Fin 30) (Some Examples.video100) None
        (Some "RKnee") None
        "px" false false (fun _ => None) None (Fin 1) 0 0 StatusOther 0 None
        (750, 480)%Z.

(** twenty frames: the knee stands at x = 100 for five frames, then at
    x = 101; y is constant *)
Definition step_x : list R := repeat 100%R 5 ++ repeat 101%R 15.
Definition flat_y : list R := repeat 200%R 20.
Definition stepping : Marker.t := Marker.mk (map Fin step_x) (map Fin flat_y).

(** three frames of uniform motion *)
Definition walking : Marker.t :=
  Marker.mk (map Fin [100; 101; 102]%R) (map Fin [200; 200; 200]%R).

End KinExample.

Lemma Forall_ge_zero (m : list R) :
  Forall (fun v => (0 <= v)%R) m ->
  Forall (fun v => F.ge v (Fin 0) = true) (map Fin m).
Proof.
  intros H. apply Forall_forall. intros v Hv. apply in_map_iff in Hv.
  destruct Hv as [r [<- Hr]]. rewrite Forall_forall in H.
  unfold F.ge, F.le. apply Rleb_true. apply H. exact Hr.
Qed.

(** the factor applied to positions:
    [1.0 / self.px_per_unit if self.px_per_unit else 1.0] *)
Definition position_scale (s : app) : float :=
  match calibrated s with
  | Some p => (Fin 1 / p)%float
  | None => Fin 1
  end.

(** C1 (as amended).  For a selected marker whose samples are numbers, let
    [vx] and [vy] be the raw derivatives, [np.gradient] of the scaled x and
    y series, and [vmag] the series [sqrt (vx^2 + vy^2)].  Every entry of
    [vmag] is non-negative, and the cached total velocity is the smoothing
    filter applied to [vmag].  When the series has at most 11 samples, so
    that smoothing passes it through, the cached total velocity is [vmag]
    itself, the cached total acceleration is [sqrt (ax^2 + ay^2)] of the
    derivatives [ax], [ay] of [vx], [vy], and every entry of both is
    non-negative. *)
Theorem total_magnitudes_nonnegative
  (savgol_filter : list float -> nat -> nat -> list float)
  (s : app) (joint : string) (trc : Trc.t) (c : Marker.t)
  (xs ys : list R) (rate : R) (ppu : option R) :
  selected_joint s = Some joint ->
  nonempty joint = true ->
  trc_data s = Some trc ->
  dict_get (Trc.markers trc) joint = Some c ->
  Marker.x c = map Fin xs ->
  Marker.y c = map Fin ys ->
  Trc.data_rate trc = Fin rate ->
  rate <> 0%R ->
  calibrated s = option_map Fin ppu ->
  (2 <= length xs)%nat ->
  length ys = length xs ->
  let s' := fst (_compute_kinematics savgol_filter s) in
  exists dt vx vy vmag,
    F.pydiv (Fin 1) (Trc.data_rate trc) = Ok dt /\
    Np.gradient (map (fun a => (a * position_scale s)%float) (Marker.x c)) dt
    = Ok vx /\
    Np.gradient (map (fun a => (a * position_scale s)%float) (Marker.y c)) dt
    = Ok vy /\
    Np.magnitude vx vy = Ok vmag /\
    length vmag = length xs /\
    Forall (fun v => F.ge v (Fin 0) = true) vmag /\
    _cache_vtotal s' = Some (smooth_default savgol_filter vmag) /\
    ((length xs <= 11)%nat ->
     exists ax ay amag,
       Np.gradient vx dt = Ok ax /\
       Np.gradient vy dt = Ok ay /\
       Np.magnitude ax ay = Ok amag /\
       _cache_vtotal s' = Some vmag /\
       _cache_atotal s' = Some amag /\
       length amag = length xs /\
       Forall (fun v => F.ge v (Fin 0) = true) amag).
Proof.
  intros H1 H2 H3 H4 H5 H6 H7 H8 H9 H10 H11 s'.
  set (sc := unit_scale ppu). set (dt := (1 / rate)%R).
  set (vx := gradient_R (map (fun a => (a * sc)%R) xs) dt).
  set (vy := gradient_R (map (fun a => (a * sc)%R) ys) dt).
  assert (Hdt : dt <> 0%R).
  { unfold dt, Rdiv. rewrite Rmult_1_l. apply Rinv_neq_0_compat. exact H8. }
  assert (Lx : length vx = length xs).
  { unfold vx. rewrite length_gradient_R, length_map. reflexivity. }
  assert (Ly : length vy = length xs).
  { unfold vy. rewrite length_gradient_R, length_map. exact H11. }
  assert (Lm : length (magnitude_R vx vy) = length xs).
  { rewrite length_magnitude_R; lia. }
  exists (Fin dt), (map Fin vx), (map Fin vy), (map Fin (magnitude_R vx vy)).
  split; [rewrite H7; apply pydiv_Fin; exact H8|].
  split.
  { unfold position_scale. rewrite (calibrated_scale s ppu H9), H5, scale_Fin.
    apply gradient_Fin; [rewrite length_map; exact H10|exact Hdt]. }
  split.
  { unfold position_scale. rewrite (calibrated_scale s ppu H9), H6, scale_Fin.
    apply gradient_Fin; [rewrite length_map; lia|exact Hdt]. }
  split; [apply magnitude_Fin; lia|].
  split; [rewrite length_map; exact Lm|].
  split; [apply Forall_ge_zero, magnitude_R_nonneg|].
  split.
  - destruct (compute_kinematics_velocity savgol_filter s joint trc c xs ys
                rate ppu H1 H2 H3 H4 H5 H6 H7 H8 H9 H10 H11) as [_ [_ V]].
    exact V.
  - intros Hshort.
    destruct (compute_kinematics_short savgol_filter s joint trc c xs ys
                rate ppu H1 H2 H3 H4 H5 H6 H7 H8 H9 H10 H11 Hshort) as [V A].
    exists (map Fin (gradient_R vx dt)), (map Fin (gradient_R vy dt)),
      (map Fin (magnitude_R (gradient_R vx dt) (gradient_R vy dt))).
    split; [apply gradient_Fin; [lia|exact Hdt]|].
    split; [apply gradient_Fin; [lia|exact Hdt]|].
    split; [apply magnitude_Fin; rewrite !length_gradient_R; lia|].
    split; [exact V|]. split; [exact A|].
    split.
    + rewrite length_map, length_magnitude_R; rewrite !length_gradient_R; lia.
    + apply Forall_ge_zero, magnitude_R_nonneg.
Qed.

(** Three frames of uniform motion, one pixel per frame at 30 frames per
    second: the speed is 30 at every frame and the acceleration 0. *)
Lemma total_magnitudes_nonnegative_witness :
  exists dt vx vy vmag,
    F.pydiv (Fin 1) (Fin 30) = Ok dt /\
    Np.gradient
      (map (fun a => (a * position_scale
                            (KinExample.selected_knee KinExample.walking))%float)
           (Marker.x KinExample.walking)) dt = Ok vx /\
    Np.gradient
      (map (fun a => (a * position_scale
                            (KinExample.selected_knee KinExample.walking))%float)
           (Marker.y KinExample.walking)) dt = Ok vy /\
    Np.magnitude vx vy = Ok vmag /\
    length vmag = 3%nat /\
    Forall (fun v => F.ge v (Fin 0) = true) vmag /\
    _cache_vtotal
      (fst (_compute_kinematics SciPy.savgol_filter
              (KinExample.selected_knee KinExample.walking)))
    = Some (smooth_default SciPy.savgol_filter vmag) /\
    ((3 <= 11)%nat ->
     exists ax ay amag,
       Np.gradient vx dt = Ok ax /\
       Np.gradient vy dt = Ok ay /\
       Np.magnitude ax ay = Ok amag /\
       _cache_vtotal
         (fst (_compute_kinematics SciPy.savgol_filter
                 (KinExample.selected_knee KinExample.walking)))
       = Some vmag /\
       _cache_atotal
         (fst (_compute_kinematics SciPy.savgol_filter
                 (KinExample.selected_knee KinExample.walking)))
       = Some amag /\
       length amag = 3%nat /\
       Forall (fun v => F.ge v (Fin 0) = true) amag).
Proof.
  apply (total_magnitudes_nonnegative SciPy.savgol_filter
           (KinExample.selected_knee KinExample.walking) "RKnee"%string
           (Trc.mk 3 (Fin 30) [("RKnee"%string, KinExample.walking)]
              ["RKnee"%string] (KinExample.times 3))
           KinExample.walking [100; 101; 102]%R [200; 200; 200]%R 30%R None).
  - reflexivity.
  - reflexivity.
  - reflexivity.
  - reflexivity.
  - reflexivity.
  - reflexivity.
  - reflexivity.
  - lra.
  - reflexivity.
  - simpl. lia.
  - reflexivity.
Defined.

Lemma magnitude_of_x (a b a' : R) :
  a = a' -> b = 0%R -> (0 <= a')%R -> sqrt (a * a + b * b) = a'.
Proof.
  intros -> -> H. replace (a' * a' + 0 * 0)%R with (a' * a')%R by ring.
  apply sqrt_square. exact H.
Qed.

(** The raw speed of the stepping knee: 15 pixels per second at the two
    frames around the step, zero elsewhere. *)
Lemma stepping_speed :
  magnitude_R
    (gradient_R (map (fun a => a * 1)%R KinExample.step_x) (1 / 30))
    (gradient_R (map (fun a => a * 1)%R KinExample.flat_y) (1 / 30))
  = [0; 0; 0; 0; 15; 15; 0; 0; 0; 0; 0; 0; 0; 0; 0; 0; 0; 0; 0; 0]%R.
Proof.
  cbv [magnitude_R gradient_R KinExample.step_x KinExample.flat_y map seq
       length nth Nat.eqb Nat.sub Nat.add repeat Datatypes.app combine
       fst snd].
  repeat (apply f_equal2; [apply magnitude_of_x; [field|field|lra]|]).
  reflexivity.
Qed.

(** C1 fails as stated.  For the knee that steps one pixel to the right at
    frame 5, sampled 30 times per second, the smoothed total velocity at
    frame 10 is -180/143, which is negative. *)
Lemma smoothed_speed_negative :
  exists vtotal,
    _cache_vtotal
      (fst (_compute_kinematics SciPy.savgol_filter
              (KinExample.selected_knee KinExample.stepping)))
    = Some vtotal /\
    getitem vtotal 10 = Ok (Fin (-180 / 143)) /\
    F.ge (Fin (-180 / 143)) (Fin 0) = false.
Proof.
  destruct (compute_kinematics_velocity SciPy.savgol_filter
              (KinExample.selected_knee KinExample.stepping) "RKnee"%string
              (Trc.mk 20 (Fin 30) [("RKnee"%string, KinExample.stepping)]
                 ["RKnee"%string] (KinExample.times 20))
              KinExample.stepping KinExample.step_x KinExample.flat_y
              30%R None)
    as [_ [_ V]]; try reflexivity; try lra; try (simpl; lia).
  eexists. split; [exact V|]. split.
  - unfold unit_scale. rewrite stepping_speed.
    unfold smooth_default, smooth, SciPy.savgol_filter.
    rewrite !length_map.
    cbv [length seq map nth Nat.ltb Nat.leb Nat.sub firstn skipn].
    unfold getitem.
    cbv [length Z.of_nat Pos.of_succ_nat Pos.succ Z.ltb Z.leb Z.compare
         Pos.compare Pos.compare_cont andb Z.to_nat Pos.to_nat Pos.iter_op
         Nat.add nth_error].
    f_equal.
    change [Fin 15; Fin 0; Fin 0; Fin 0; Fin 0; Fin 0; Fin 0; Fin 0; Fin 0;
            Fin 0; Fin 0]
      with (map Fin [15; 0; 0; 0; 0; 0; 0; 0; 0; 0; 0]%R).
    rewrite dot_Fin by reflexivity. f_equal. window_arith.
  - unfold F.ge, F.le. apply Rleb_false. lra.
Qed.

(* ================================================================== *)
(** * Further properties *)

(** ** Rendering a frame *)

(** the label size that [_set_frame] works with *)
Definition effective_label (s : app) : Z * Z :=
  let (lw, lh) := label_size s in
  if ((lw <=? 0) || (lh <=? 0))%Z then (750, 480)%Z else (lw, lh).

Lemma draw_overlays_current_frame s i idx :
  _draw_overlays (set_current_frame i s) idx = _draw_overlays s idx.
Proof. reflexivity. Qed.

(** A frame that is read and drawn: what [_set_frame] leaves behind. *)
Lemma set_frame_rendered s video idx frame drawn sw sh sf :
  cap s = Some video ->
  (0 <= idx < total_frames s)%Z ->
  read_at video idx = Some frame ->
  _draw_overlays s idx = Ok drawn ->
  fit_to_label (frame_h frame) (frame_w frame)
    (fst (effective_label s)) (snd (effective_label s)) = Ok (sw, sh) ->
  F.pydiv (F.of_Z sw) (F.of_Z (frame_w frame)) = Ok sf ->
  _set_frame idx s =
  (set_slider idx
     (set_pixmap (Some drawn)
        (set_offset_y ((snd (effective_label s) - sh) / 2)
           (set_offset_x ((fst (effective_label s) - sw) / 2)
              (set_scale_factor sf (set_current_frame idx s))))),
   Ok tt).
Proof.
  intros Hcap Hidx Hread Hdraw Hfit Hsf.
  unfold _set_frame. rewrite bind_get, Hcap.
  destruct (Z.ltb_spec idx 0); [lia|].
  destruct (Z.geb_spec idx (total_frames s)); [lia|]. cbn [orb].
  rewrite bind_modify, Hread, bind_get, draw_overlays_current_frame, Hdraw,
    bind_lift_Ok.
  unfold effective_label in *. cbn [label_size set_current_frame].
  destruct (label_size s) as [lw lh].
  destruct ((lw <=? 0) || (lh <=? 0))%Z; cbn [fst snd] in *;
    rewrite Hfit, bind_lift_Ok, Hsf, bind_lift_Ok; reflexivity.
Qed.

Lemma set_frame_unreadable s video idx :
  cap s = Some video ->
  (0 <= idx < total_frames s)%Z ->
  read_at video idx = None ->
  _set_frame idx s = (set_current_frame idx s, Ok tt).
Proof.
  intros Hcap Hidx Hread. unfold _set_frame. rewrite bind_get, Hcap.
  destruct (Z.ltb_spec idx 0); [lia|].
  destruct (Z.geb_spec idx (total_frames s)); [lia|]. cbn [orb].
  rewrite bind_modify, Hread. reflexivity.
Qed.

Lemma set_frame_draw_raises s video idx frame e :
  cap s = Some video ->
  (0 <= idx < total_frames s)%Z ->
  read_at video idx = Some frame ->
  _draw_overlays s idx = Raise e ->
  _set_frame idx s = (set_current_frame idx s, Raise e).
Proof.
  intros Hcap Hidx Hread Hdraw. unfold _set_frame. rewrite bind_get, Hcap.
  destruct (Z.ltb_spec idx 0); [lia|].
  destruct (Z.geb_spec idx (total_frames s)); [lia|]. cbn [orb].
  rewrite bind_modify, Hread, bind_get, draw_overlays_current_frame, Hdraw.
  reflexivity.
Qed.

(** X1.  The frame index is assigned before the frame is read and drawn.  For
    an index in range on a loaded video: when the frame cannot be read,
    [_set_frame] returns with [current_frame] moved and nothing else changed
    (the picture, the slider and the display transform keep their old
    values); when drawing the overlays raises, the exception propagates with
    the object in that same state. *)
Theorem set_frame_index_moves_first
  (s : app) (video : VideoCapture) (idx : Z) :
  cap s = Some video ->
  (0 <= idx < total_frames s)%Z ->
  (read_at video idx = None ->
   _set_frame idx s = (set_current_frame idx s, Ok tt)) /\
  (forall frame e,
     read_at video idx = Some frame ->
     _draw_overlays s idx = Raise e ->
     _set_frame idx s = (set_current_frame idx s, Raise e)) /\
  (forall out, _seek idx s = out -> current_frame (fst out) = idx).
Proof.
  intros Hcap Hidx. split; [|split].
  - intros Hread. apply (set_frame_unreadable s video idx Hcap Hidx Hread).
  - intros frame e Hread Hdraw.
    apply (set_frame_draw_raises s video idx frame e Hcap Hidx Hread Hdraw).
  - intros out <-. unfold _seek. rewrite set_frame_current_frame, Hcap.
    destruct (Z.ltb_spec idx 0); [lia|].
    destruct (Z.geb_spec idx (total_frames s)); [lia|]. reflexivity.
Qed.

Lemma trunc_nonneg (x : R) :
  (0 <= x)%R -> (0 <= F.trunc x)%Z /\ (IZR (F.trunc x) <= x)%R.
Proof.
  intros H. unfold F.trunc. rewrite (proj2 (Rleb_true 0 x) H).
  destruct (base_Int_part x) as [A B]. split; [|exact A].
  apply le_IZR. assert (L : (-1 < IZR (Int_part x))%R) by lra.
  apply lt_IZR in L. apply IZR_le. lia.
Qed.

Lemma effective_label_positive s :
  (0 < fst (effective_label s))%Z /\ (0 < snd (effective_label s))%Z.
Proof.
  unfold effective_label. destruct (label_size s) as [lw lh].
  destruct (Z.leb_spec lw 0); cbn [orb fst snd]; [lia|].
  destruct (Z.leb_spec lh 0); cbn [fst snd]; lia.
Qed.

(** The picture scaled to fit: it fills one side of the label and does not
    exceed the other. *)
Lemma fit_to_label_fits h w lw lh :
  (0 < h)%Z -> (0 < w)%Z -> (0 < lw)%Z -> (0 < lh)%Z ->
  exists sw sh,
    fit_to_label h w lw lh = Ok (sw, sh) /\
    (0 <= sw <= lw)%Z /\ (0 <= sh <= lh)%Z /\ (sw = lw \/ sh = lh).
Proof.
  intros Hh Hw Hlw Hlh.
  assert (Rh : (0 < IZR h)%R) by (apply IZR_lt; exact Hh).
  assert (Rw : (0 < IZR w)%R) by (apply IZR_lt; exact Hw).
  assert (Rlw : (0 < IZR lw)%R) by (apply IZR_lt; exact Hlw).
  assert (Rlh : (0 < IZR lh)%R) by (apply IZR_lt; exact Hlh).
  assert (Ria : (0 < IZR w / IZR h)%R) by (apply Rdiv_lt_0_compat; lra).
  unfold fit_to_label, F.of_Z.
  rewrite (pydiv_Fin (IZR w) (IZR h)) by lra. cbn [rbind].
  rewrite (pydiv_Fin (IZR lw) (IZR lh)) by lra. cbn [rbind F.gt F.lt].
  destruct (Rltb (IZR lw / IZR lh) (IZR w / IZR h)) eqn:E.
  - apply Rltb_true in E.
    rewrite (pydiv_Fin (IZR lw) (IZR w / IZR h)) by lra.
    cbn [rbind F.to_int].
    assert (Q : (0 < IZR lw / (IZR w / IZR h))%R)
      by (apply Rdiv_lt_0_compat; lra).
    destruct (trunc_nonneg (IZR lw / (IZR w / IZR h))) as [T0 T1]; [lra|].
    eexists. eexists. split; [reflexivity|].
    split; [lia|]. split; [|left; reflexivity]. split; [exact T0|].
    apply le_IZR. apply Rle_trans with (IZR lw / (IZR w / IZR h))%R;
      [exact T1|].
    assert (X : (IZR lw * IZR h < IZR lh * IZR w)%R).
    { apply (Rmult_lt_compat_r (IZR lh * IZR h)) in E; [|nra].
      replace (IZR lw / IZR lh * (IZR lh * IZR h))%R
        with (IZR lw * IZR h)%R in E by (field; lra).
      replace (IZR w / IZR h * (IZR lh * IZR h))%R
        with (IZR lh * IZR w)%R in E by (field; lra).
      exact E. }
    replace (IZR lw / (IZR w / IZR h))%R with (IZR lw * IZR h / IZR w)%R
      by (field; lra).
    apply Rlt_le. apply (Rmult_lt_reg_r (IZR w)); [lra|].
    replace (IZR lw * IZR h / IZR w * IZR w)%R with (IZR lw * IZR h)%R
      by (field; lra).
    exact X.
  - apply Rltb_false in E. cbn [F.mul F.lift2 F.to_int rbind].
    assert (Q : (0 <= IZR lh * (IZR w / IZR h))%R) by nra.
    destruct (trunc_nonneg (IZR lh * (IZR w / IZR h))) as [T0 T1];
      [exact Q|].
    eexists. eexists. split; [reflexivity|].
    split; [|split; [lia|right; reflexivity]]. split; [exact T0|].
    apply le_IZR. apply Rle_trans with (IZR lh * (IZR w / IZR h))%R;
      [exact T1|].
    apply (Rmult_le_compat_r (IZR lh)) in E; [|lra].
    replace (IZR lw / IZR lh * IZR lh)%R with (IZR lw) in E by (field; lra).
    lra.
Qed.

Module RenderExample.

(** a capture on which no frame can be read *)
Definition broken : VideoCapture := mkCap (fun _ => None).

Definition unreadable : app :=
  mkApp None None 0 100 (Fin 30) (Some broken) None None None "px"%string
        false false (fun _ => None) None (Fin 1) 0 0 StatusOther 0 None
        (750, 480)%Z.

End RenderExample.

Lemma set_frame_index_moves_first_witness :
  _set_frame 5 RenderExample.unreadable
  = (set_current_frame 5 RenderExample.unreadable, Ok tt).
Proof.
  apply (set_frame_index_moves_first RenderExample.unreadable
           RenderExample.broken 5).
  - reflexivity.
  - simpl. lia.
  - reflexivity.
Defined.

Lemma thirty_nonzero : Fin 30 <> Fin 0.
Proof. intros H. injection H as H. lra. Qed.

(** X2.  When a frame of positive width and height is read and its overlays
    are drawn, [_set_frame] makes it current, shows the overlays, moves the
    slider, and letterboxes the picture: the scaled size fits the label,
    fills it in one direction, and both offsets are non-negative; the display
    scale is the scaled width over the frame width.  The frame rate is taken
    to be non-zero, as every load leaves it: the time label, which is not
    modelled, divides by it. *)
Theorem set_frame_letterbox
  (s : app) (video : VideoCapture) (idx : Z) (frame : Frame)
  (drawn : list prim) :
  cap s = Some video ->
  (0 <= idx < total_frames s)%Z ->
  read_at video idx = Some frame ->
  (0 < frame_h frame)%Z -> (0 < frame_w frame)%Z ->
  _draw_overlays s idx = Ok drawn ->
  fps s <> Fin 0 ->
  let lw := fst (effective_label s) in
  let lh := snd (effective_label s) in
  exists s' sw sh,
    _set_frame idx s = (s', Ok tt) /\
    current_frame s' = idx /\ slider s' = idx /\ pixmap s' = Some drawn /\
    (0 <= sw <= lw)%Z /\ (0 <= sh <= lh)%Z /\ (sw = lw \/ sh = lh) /\
    scale_factor s' = Fin (IZR sw / IZR (frame_w frame)) /\
    offset_x s' = ((lw - sw) / 2)%Z /\ offset_y s' = ((lh - sh) / 2)%Z /\
    (0 <= offset_x s')%Z /\ (0 <= offset_y s')%Z.
Proof.
  intros Hcap Hidx Hread Hh Hw Hdraw _ lw lh.
  destruct (effective_label_positive s) as [Plw Plh]. fold lw lh in Plw, Plh.
  destruct (fit_to_label_fits (frame_h frame) (frame_w frame) lw lh
              Hh Hw Plw Plh) as [sw [sh [Hfit [Bw [Bh Hfill]]]]].
  assert (Hsf : F.pydiv (F.of_Z sw) (F.of_Z (frame_w frame))
                = Ok (Fin (IZR sw / IZR (frame_w frame)))).
  { apply pydiv_Fin. apply Rgt_not_eq. apply IZR_lt. exact Hw. }
  eexists. exists sw, sh. split.
  - apply (set_frame_rendered s video idx frame drawn sw sh _
             Hcap Hidx Hread Hdraw Hfit Hsf).
  - cbn [current_frame slider pixmap scale_factor offset_x offset_y
         set_slider set_pixmap set_offset_y set_offset_x set_scale_factor
         set_current_frame].
    fold lw lh. repeat split; try reflexivity; try tauto; try lia.
    + apply Z.div_pos; lia.
    + apply Z.div_pos; lia.
Qed.

Lemma set_frame_letterbox_witness :
  let s := Examples.with_video 100 7 None in
  exists s' sw sh,
    _set_frame 42 s = (s', Ok tt) /\
    current_frame s' = 42%Z /\ slider s' = 42%Z /\ pixmap s' = Some [] /\
    (0 <= sw <= 750)%Z /\ (0 <= sh <= 480)%Z /\ (sw = 750%Z \/ sh = 480%Z) /\
    scale_factor s' = Fin (IZR sw / 640) /\
    offset_x s' = ((750 - sw) / 2)%Z /\ offset_y s' = ((480 - sh) / 2)%Z /\
    (0 <= offset_x s')%Z /\ (0 <= offset_y s')%Z.
Proof.
  apply (set_frame_letterbox (Examples.with_video 100 7 None)
           Examples.video100 42 (mkFrame 480 640) []).
  - reflexivity.
  - simpl. lia.
  - reflexivity.
  - simpl. lia.
  - simpl. lia.
  - reflexivity.
  - exact thirty_nonzero.
Defined.

Lemma set_frame_shows s video idx frame drawn :
  cap s = Some video ->
  (0 <= idx < total_frames s)%Z ->
  read_at video idx = Some frame ->
  (0 < frame_h frame)%Z -> (0 < frame_w frame)%Z ->
  _draw_overlays s idx = Ok drawn ->
  pixmap (fst (_set_frame idx s)) = Some drawn /\
  snd (_set_frame idx s) = Ok tt.
Proof.
  intros Hcap Hidx Hread Hh Hw Hdraw.
  destruct (effective_label_positive s) as [Plw Plh].
  destruct (fit_to_label_fits (frame_h frame) (frame_w frame) _ _
              Hh Hw Plw Plh) as [sw [sh [Hfit _]]].
  assert (Hsf : F.pydiv (F.of_Z sw) (F.of_Z (frame_w frame))
                = Ok (Fin (IZR sw / IZR (frame_w frame)))).
  { apply pydiv_Fin. apply Rgt_not_eq. apply IZR_lt. exact Hw. }
  rewrite (set_frame_rendered s video idx frame drawn sw sh _
             Hcap Hidx Hread Hdraw Hfit Hsf).
  split; reflexivity.
Qed.

(** ** Playback *)

Lemma ticks_last n : forall s,
  ticks (S n) s = fst (_advance_frame (ticks n s)).
Proof.
  induction n as [|n IH]; intros s; [reflexivity|].
  change (ticks (S (S n)) s) with (ticks (S n) (fst (_advance_frame s))).
  rewrite IH. reflexivity.
Qed.

Lemma ticks_advance n : forall s interval,
  timer s = Some interval -> cap s <> None ->
  (0 <= current_frame s)%Z ->
  (current_frame s + Z.of_nat n <= total_frames s - 1)%Z ->
  current_frame (ticks n s) = (current_frame s + Z.of_nat n)%Z /\
  timer (ticks n s) = Some interval /\
  total_frames (ticks n s) = total_frames s /\
  cap (ticks n s) = cap s.
Proof.
  induction n as [|n IH]; intros s interval Ht Hcap H0 Hn.
  - simpl. repeat split; try assumption. lia.
  - destruct (advance_frame_step s Hcap H0) as [Et [Ec [Hlt _]]].
    destruct Hlt as [E1 E2]; [lia|].
    destruct (IH (fst (_advance_frame s)) interval) as [A [B [C D]]].
    + rewrite E2. exact Ht.
    + rewrite Ec. exact Hcap.
    + lia.
    + rewrite E1, Et. lia.
    + cbn [ticks]. rewrite A, B, C, D, E1, Et, Ec.
      repeat split; try reflexivity. lia.
Qed.

(** X3.  Playback runs to the end and then stops.  From frame [f] of a loaded
    video with the timer running, [total_frames - 1 - f] ticks bring the last
    frame with the timer still running, and the next tick stops the timer on
    that frame. *)
Theorem playback_runs_to_end (s : app) (interval : Z) (n : nat) :
  timer s = Some interval ->
  cap s <> None ->
  (0 <= current_frame s)%Z ->
  (current_frame s + Z.of_nat n = total_frames s - 1)%Z ->
  current_frame (ticks n s) = (total_frames s - 1)%Z /\
  timer (ticks n s) = Some interval /\
  current_frame (ticks (S n) s) = (total_frames s - 1)%Z /\
  timer (ticks (S n) s) = None.
Proof.
  intros Ht Hcap H0 Hn.
  destruct (ticks_advance n s interval Ht Hcap H0) as [A [B [C D]]]; [lia|].
  assert (Hcap' : cap (ticks n s) <> None) by (rewrite D; exact Hcap).
  assert (H0' : (0 <= current_frame (ticks n s))%Z) by lia.
  destruct (advance_frame_step (ticks n s) Hcap' H0') as [_ [_ [_ Hge]]].
  destruct Hge as [E1 E2]; [lia|].
  rewrite ticks_last, E1, E2, A, B. repeat split; try reflexivity; lia.
Qed.

Lemma playback_runs_to_end_witness :
  let s := Examples.with_video 100 97 (Some 33%Z) in
  current_frame (ticks 2 s) = (total_frames s - 1)%Z /\
  timer (ticks 2 s) = Some 33%Z /\
  current_frame (ticks 3 s) = (total_frames s - 1)%Z /\
  timer (ticks 3 s) = None.
Proof.
  apply (playback_runs_to_end (Examples.with_video 100 97 (Some 33%Z))
           33 2).
  - reflexivity.
  - discriminate.
  - simpl. lia.
  - simpl. lia.
Defined.

Lemma set_timer_back s v :
  timer s = None -> set_timer None (set_timer v s) = s.
Proof. destruct s. simpl. intros ->. reflexivity. Qed.

(** X4.  The play button.  With no video loaded it does nothing.  On a loaded
    video it starts the timer with the whole number of milliseconds in
    [1000 / fps], and pressing it again stops the timer and gives back the
    object as it was before the first press: pausing moves no frame. *)
Theorem toggle_play_starts_and_stops (s : app) (rate : R) :
  timer s = None ->
  fps s = Fin rate -> rate <> 0%R ->
  (cap s = None -> _toggle_play s = (s, Ok tt)) /\
  (cap s <> None ->
   let playing := set_timer (Some (F.trunc (1000 / rate))) s in
   _toggle_play s = (playing, Ok tt) /\
   _toggle_play playing = (s, Ok tt)).
Proof.
  intros Ht Hf Hr. split.
  - intros Hc. unfold _toggle_play. rewrite bind_get, Ht, Hc. reflexivity.
  - intros Hc playing. split.
    + unfold _toggle_play. rewrite bind_get, Ht.
      destruct (cap s); [|contradiction].
      rewrite Hf, (pydiv_Fin 1000 rate Hr), bind_lift_Ok.
      cbn [F.to_int]. rewrite bind_lift_Ok. reflexivity.
    + unfold _toggle_play. rewrite bind_get. subst playing. cbn [timer set_timer].
      unfold modify. rewrite (set_timer_back s _ Ht). reflexivity.
Qed.

Lemma toggle_play_starts_and_stops_witness :
  let s := Examples.with_video 100 7 None in
  let playing := set_timer (Some (F.trunc (1000 / 30))) s in
  _toggle_play s = (playing, Ok tt) /\ _toggle_play playing = (s, Ok tt).
Proof.
  apply (toggle_play_starts_and_stops (Examples.with_video 100 7 None) 30).
  - reflexivity.
  - reflexivity.
  - lra.
  - discriminate.
Defined.

(** ** Trajectory toggles *)

Lemma set_frame_keeps_show_trajectory idx :
  keeps show_trajectory (_set_frame idx).
Proof. unfold _set_frame. keeps_tac. Qed.

Lemma set_frame_keeps_show_relative_trajectory idx :
  keeps show_relative_trajectory (_set_frame idx).
Proof. unfold _set_frame. keeps_tac. Qed.

Lemma set_frame_same_frame s :
  current_frame (fst (_set_frame (current_frame s) s)) = current_frame s.
Proof.
  rewrite set_frame_current_frame. destruct (cap s); [|reflexivity].
  destruct ((current_frame s <? 0)%Z || (current_frame s >=? total_frames s)%Z);
    reflexivity.
Qed.

Lemma toggle_trajectory_eq s :
  _toggle_trajectory s =
  _set_frame (current_frame s)
    (set_show_trajectory (negb (show_trajectory s)) s).
Proof. reflexivity. Qed.

Lemma toggle_relative_trajectory_eq s :
  _toggle_relative_trajectory s =
  _set_frame (current_frame s)
    (set_show_relative_trajectory (negb (show_relative_trajectory s)) s).
Proof. reflexivity. Qed.

(** X5.  Each trajectory button flips its own flag and nothing else of the
    view state: the other flag, the current frame, the selection and the
    calibration stay, whether or not redrawing succeeds; pressing a button
    twice restores its flag. *)
Theorem toggle_trajectory_flips (s : app) :
  let s1 := fst (_toggle_trajectory s) in
  let s2 := fst (_toggle_relative_trajectory s) in
  (show_trajectory s1 = negb (show_trajectory s) /\
   show_relative_trajectory s1 = show_relative_trajectory s /\
   current_frame s1 = current_frame s /\
   selected_joint s1 = selected_joint s /\
   px_per_unit s1 = px_per_unit s /\
   show_trajectory (fst (_toggle_trajectory s1)) = show_trajectory s) /\
  (show_relative_trajectory s2 = negb (show_relative_trajectory s) /\
   show_trajectory s2 = show_trajectory s /\
   current_frame s2 = current_frame s /\
   selected_joint s2 = selected_joint s /\
   px_per_unit s2 = px_per_unit s /\
   show_relative_trajectory (fst (_toggle_relative_trajectory s2))
   = show_relative_trajectory s).
Proof.
  cbv zeta. split.
  - assert (F1 : show_trajectory (fst (_toggle_trajectory s))
                 = negb (show_trajectory s)).
    { rewrite toggle_trajectory_eq, set_frame_keeps_show_trajectory.
      reflexivity. }
    repeat split.
    + exact F1.
    + rewrite toggle_trajectory_eq, set_frame_keeps_show_relative_trajectory.
      reflexivity.
    + rewrite toggle_trajectory_eq.
      apply (set_frame_same_frame
               (set_show_trajectory (negb (show_trajectory s)) s)).
    + rewrite toggle_trajectory_eq, set_frame_keeps_selected_joint.
      reflexivity.
    + rewrite toggle_trajectory_eq, set_frame_keeps_px_per_unit.
      reflexivity.
    + rewrite (toggle_trajectory_eq (fst (_toggle_trajectory s))),
        set_frame_keeps_show_trajectory.
      cbn [show_trajectory set_show_trajectory]. rewrite F1.
      apply negb_involutive.
  - assert (F1 : show_relative_trajectory
                   (fst (_toggle_relative_trajectory s))
                 = negb (show_relative_trajectory s)).
    { rewrite toggle_relative_trajectory_eq,
        set_frame_keeps_show_relative_trajectory.
      reflexivity. }
    repeat split.
    + exact F1.
    + rewrite toggle_relative_trajectory_eq, set_frame_keeps_show_trajectory.
      reflexivity.
    + rewrite toggle_relative_trajectory_eq.
      apply (set_frame_same_frame
               (set_show_relative_trajectory
                  (negb (show_relative_trajectory s)) s)).
    + rewrite toggle_relative_trajectory_eq, set_frame_keeps_selected_joint.
      reflexivity.
    + rewrite toggle_relative_trajectory_eq, set_frame_keeps_px_per_unit.
      reflexivity.
    + rewrite (toggle_relative_trajectory_eq
                 (fst (_toggle_relative_trajectory s))),
        set_frame_keeps_show_relative_trajectory.
      cbn [show_relative_trajectory set_show_relative_trajectory].
      rewrite F1. apply negb_involutive.
Qed.

(** X6.  A trajectory button redraws the current frame with the flag as it
    has just been set: when the current frame is readable, the picture shown
    afterwards carries the overlays drawn for the flipped flag.  The frame
    rate is taken to be non-zero, as every load leaves it. *)
Theorem toggle_trajectory_redraws
  (s : app) (video : VideoCapture) (frame : Frame) (drawn : list prim) :
  cap s = Some video ->
  (0 <= current_frame s < total_frames s)%Z ->
  read_at video (current_frame s) = Some frame ->
  (0 < frame_h frame)%Z -> (0 < frame_w frame)%Z ->
  _draw_overlays (set_show_trajectory (negb (show_trajectory s)) s)
                 (current_frame s) = Ok drawn ->
  fps s <> Fin 0 ->
  pixmap (fst (_toggle_trajectory s)) = Some drawn /\
  snd (_toggle_trajectory s) = Ok tt.
Proof.
  intros Hcap Hidx Hread Hh Hw Hdraw _. rewrite toggle_trajectory_eq.
  apply (set_frame_shows
           (set_show_trajectory (negb (show_trajectory s)) s)
           video (current_frame s) frame drawn); assumption.
Qed.

Lemma toggle_trajectory_redraws_witness :
  let s := Examples.with_video 100 7 None in
  pixmap (fst (_toggle_trajectory s)) = Some [] /\
  snd (_toggle_trajectory s) = Ok tt.
Proof.
  apply (toggle_trajectory_redraws (Examples.with_video 100 7 None)
           Examples.video100 (mkFrame 480 640) []).
  - reflexivity.
  - simpl. lia.
  - reflexivity.
  - simpl. lia.
  - simpl. lia.
  - reflexivity.
  - exact thirty_nonzero.
Defined.

(** ** Calibration, continued *)

Section CalibrationMore.

Variable savgol_filter : list float -> nat -> nat -> list float.

Lemma to_frame_zero_scale s p o :
  scale_factor s = Fin 0 -> to_frame s p o = Raise ZeroDivisionError.
Proof.
  intros Hs. unfold to_frame, F.pydiv. rewrite Hs.
  rewrite (proj2 (Reqb_true 0 0) eq_refl). reflexivity.
Qed.

Lemma zero_scale_lemma s p1 p2 answer :
  scale_factor s = Fin 0 ->
  _on_calibration_line savgol_filter p1 p2 answer s
  = (s, Raise ZeroDivisionError) /\
  forall pos,
    trc_data s <> None ->
    _on_video_click savgol_filter pos s = (s, Raise ZeroDivisionError).
Proof.
  intros Hs. split.
  - unfold _on_calibration_line.
    rewrite bind_get, (to_frame_zero_scale _ _ _ Hs). reflexivity.
  - intros pos Hd. unfold _on_video_click. rewrite bind_get.
    destruct (trc_data s); [|contradiction].
    rewrite (to_frame_zero_scale _ _ _ Hs). reflexivity.
Qed.

(** X7.  A calibration line that is long enough but whose dialog is cancelled,
    or answered with a length that is not a positive number, changes nothing
    but the status text: the prior calibration stays in force. *)
Theorem calibration_cancelled
  (s : app) (sf : R) (p1 p2 : QPoint) (val : float) (ok : bool) :
  scale_factor s = Fin sf -> sf <> 0%R ->
  (5 <= px_distance sf (offset_x s) (offset_y s) p1 p2)%R ->
  ok = false \/ F.gt val (Fin 0) = false ->
  _on_calibration_line savgol_filter p1 p2 (val, ok) s
  = (set_status_lbl CalibrationCancelled s, Ok tt).
Proof.
  intros Hs Hsf Hd Hno.
  rewrite (on_calibration_line_measured savgol_filter s sf p1 p2 _ Hs Hsf).
  rewrite (proj2 (Rltb_false _ _) Hd).
  destruct Hno as [-> | E]; [reflexivity|].
  rewrite E, andb_false_r. reflexivity.
Qed.

(** X8.  With a display scale of zero, which [_set_frame] leaves behind for a
    frame so narrow that its scaled width truncates to zero, converting a
    display point to frame pixels divides by zero: a calibration line and a
    click on loaded data both raise [ZeroDivisionError] and leave the object
    untouched. *)
Theorem zero_scale_raises
  (s : app) (p1 p2 pos : QPoint) (answer : float * bool) :
  scale_factor s = Fin 0 ->
  _on_calibration_line savgol_filter p1 p2 answer s
  = (s, Raise ZeroDivisionError) /\
  (trc_data s <> None ->
   _on_video_click savgol_filter pos s = (s, Raise ZeroDivisionError)).
Proof.
  intros Hs. destruct (zero_scale_lemma s p1 p2 answer Hs) as [A B].
  split; [exact A|]. intros Hd. apply B. exact Hd.
Qed.

(** the calibration is unset, or a positive number of pixels per unit *)
Definition calibration_valid (s : app) : Prop :=
  px_per_unit s = None \/
  exists p, px_per_unit s = Some (Fin p) /\ (0 < p)%R.

(** X9.  Once set, [px_per_unit] is positive.  Whatever the line and whatever
    the dialog's answer, [_on_calibration_line] takes an object whose
    calibration is unset or positive to one whose calibration is unset or
    positive; so does every other method, none of which assigns it. *)
Theorem calibration_stays_positive
  (s : app) (sf : R) (p1 p2 pos : QPoint) (answer : float * bool)
  (idx : Z) :
  scale_factor s = Fin sf ->
  calibration_valid s ->
  calibration_valid
    (fst (_on_calibration_line savgol_filter p1 p2 answer s)) /\
  calibration_valid (fst (_on_video_click savgol_filter pos s)) /\
  calibration_valid (fst (_compute_kinematics savgol_filter s)) /\
  calibration_valid (fst (_set_frame idx s)) /\
  calibration_valid (fst (_advance_frame s)) /\
  calibration_valid (fst (_toggle_play s)).
Proof.
  intros Hs Hv.
  assert (K : forall m : M unit, keeps px_per_unit m ->
              calibration_valid (fst (m s))).
  { intros m Hm. destruct Hv as [H|[p [H P]]];
      [left|right; exists p; split; [|exact P]]; rewrite Hm; exact H. }
  split; [|repeat split; apply K].
  - destruct (Req_dec_T sf 0) as [-> | Hsf].
    + destruct (zero_scale_lemma s p1 p2 answer Hs) as [E _].
      rewrite E. exact Hv.
    + rewrite (on_calibration_line_measured savgol_filter s sf p1 p2 _
                 Hs Hsf).
      destruct (Rltb _ 5) eqn:E5; [exact Hv|]. apply Rltb_false in E5.
      destruct answer as [val ok].
      destruct (ok && F.gt val (Fin 0)) eqn:Eok; [|exact Hv].
      apply andb_true_iff in Eok. destruct Eok as [_ Eg].
      destruct val as [|v]; [discriminate|].
      cbn [F.gt F.lt] in Eg. apply Rltb_true in Eg.
      rewrite !bind_modify.
      match goal with
      | |- calibration_valid (fst (?m ?st)) =>
          assert (E : px_per_unit (fst (m st)) = px_per_unit st)
      end.
      { apply (accepted_tail_keeps savgol_filter px_per_unit s
                 (compute_kinematics_keeps_px_per_unit savgol_filter)
                 set_frame_keeps_px_per_unit). }
      right. eexists. split.
      * rewrite E. cbn [px_per_unit set_status_lbl set_unit_name
                        set_px_per_unit].
        apply f_equal. apply div_Fin. lra.
      * apply Rdiv_lt_0_compat; lra.
  - unfold _on_video_click. keeps_tac.
    + apply compute_kinematics_keeps_px_per_unit.
    + apply set_frame_keeps_px_per_unit.
  - apply compute_kinematics_keeps_px_per_unit.
  - apply set_frame_keeps_px_per_unit.
  - unfold _advance_frame. keeps_tac. apply set_frame_keeps_px_per_unit.
  - unfold _toggle_play. keeps_tac.
Qed.

End CalibrationMore.

Lemma px_distance_horizontal (n : Z) :
  (0 <= n)%Z -> px_distance 1 0 0 (0, 0)%Z (n, 0)%Z = IZR n.
Proof.
  intros H. unfold px_distance, frame_coord. cbn [fst snd].
  replace ((IZR (n - 0) / 1 - IZR (0 - 0) / 1)
           * (IZR (n - 0) / 1 - IZR (0 - 0) / 1)
           + (IZR (0 - 0) / 1 - IZR (0 - 0) / 1)
             * (IZR (0 - 0) / 1 - IZR (0 - 0) / 1))%R
    with (IZR n * IZR n)%R
    by (rewrite !Z.sub_0_r; field).
  apply sqrt_square. apply IZR_le. exact H.
Qed.

Lemma calibration_cancelled_witness :
  _on_calibration_line SciPy.savgol_filter (0, 0)%Z (100, 0)%Z
    (Fin 2, false) Examples.fresh
  = (set_status_lbl CalibrationCancelled Examples.fresh, Ok tt).
Proof.
  apply (calibration_cancelled SciPy.savgol_filter Examples.fresh 1
           (0, 0)%Z (100, 0)%Z (Fin 2) false).
  - reflexivity.
  - lra.
  - cbn [Examples.fresh offset_x offset_y].
    rewrite (px_distance_horizontal 100) by lia. lra.
  - left. reflexivity.
Defined.

Module ScaleExample.

(** the object after a frame 1 pixel wide and 1000 pixels high was shown *)
Definition collapsed : app :=
  mkApp (Some ClickExample.trc) None 0 1 (Fin 30) (Some Examples.video100)
        None None None "px"%string false false (fun _ => None) None
        (Fin 0) 375 0 StatusOther 0 None (750, 480)%Z.

End ScaleExample.

Lemma zero_scale_raises_witness :
  _on_calibration_line SciPy.savgol_filter (0, 0)%Z (100, 0)%Z
    (Fin 2, true) ScaleExample.collapsed
  = (ScaleExample.collapsed, Raise ZeroDivisionError) /\
  _on_video_click SciPy.savgol_filter (105, 100)%Z ScaleExample.collapsed
  = (ScaleExample.collapsed, Raise ZeroDivisionError).
Proof.
  destruct (zero_scale_raises SciPy.savgol_filter ScaleExample.collapsed
              (0, 0)%Z (100, 0)%Z (105, 100)%Z (Fin 2, true)) as [A B].
  - reflexivity.
  - split; [exact A|]. apply B. discriminate.
Defined.

Lemma calibration_stays_positive_witness :
  calibration_valid
    (fst (_on_calibration_line SciPy.savgol_filter (0, 0)%Z (100, 0)%Z
            (Fin 2, true) Examples.fresh)).
Proof.
  apply (calibration_stays_positive SciPy.savgol_filter Examples.fresh 1
           (0, 0)%Z (100, 0)%Z (0, 0)%Z (Fin 2, true) 0).
  - reflexivity.
  - left. reflexivity.
Defined.

(** The display scale does collapse to zero: a frame 1 pixel wide and 1000
    high, fitted to a label of 750 by 480, gets a scaled width of 0. *)
Lemma narrow_frame_scaled_width :
  fit_to_label 1000 1 750 480 = Ok (0, 480)%Z.
Proof.
  unfold fit_to_label, F.of_Z.
  rewrite (pydiv_Fin 1 1000) by lra. cbn [rbind].
  rewrite (pydiv_Fin 750 480) by lra. cbn [rbind F.gt F.lt].
  rewrite (proj2 (Rltb_false (750 / 480) (1 / 1000))) by lra.
  cbn [F.mul F.lift2 F.to_int rbind]. do 2 f_equal.
  unfold F.trunc. rewrite (proj2 (Rleb_true 0 (480 * (1 / 1000)))) by lra.
  unfold Int_part. rewrite <- (up_tech (480 * (1 / 1000)) 0); [reflexivity| |].
  - lra.
  - simpl. lra.
Qed.

(* ------------------------------------------------------------------ *)
(** ** The trajectory loader, continued *)

Lemma rbind_Ok_inv {A B} (r : result A) (k : A -> result B) (b : B) :
  rbind r k = Ok b -> exists a, r = Ok a /\ k a = Ok b.
Proof. destruct r as [a|e]; simpl; [eauto|discriminate]. Qed.

Lemma dict_set_keys {V} (d : dict V) k v k0 :
  dict_get (dict_set d k v) k0 <> None <->
  k0 = k \/ dict_get d k0 <> None.
Proof.
  destruct (String.eqb_spec k0 k) as [->|Hne].
  - rewrite dict_get_set_same. split; [auto|discriminate].
  - rewrite dict_get_set_other by exact Hne. tauto.
Qed.

Section LoaderMore.

Variable open_read : string -> result string.
Variable float_of_string : string -> result float.
Variable int_of_string : string -> result Z.
Variable column : Type.
Variable read_csv : string -> nat -> result (list column).
Variable astype_float : column -> result (list float).

Let iloc := iloc_float column astype_float.
Let load := load_trc open_read float_of_string int_of_string column read_csv
              astype_float.

(** A marker loop that returns has read both columns of every name, and
    its dictionary holds the given keys and the names. *)
Lemma load_markers_inv data : forall names i acc d,
  load_markers column astype_float data names i acc = Ok d ->
  (forall k, (k < length names)%nat ->
     exists xs ys,
       iloc data ((i + Z.of_nat k) * 3 + 2)%Z = Ok xs /\
       iloc data ((i + Z.of_nat k) * 3 + 3)%Z = Ok ys) /\
  (forall name,
     dict_get d name <> None <-> In name names \/ dict_get acc name <> None).
Proof.
  induction names as [|n names IH]; intros i acc d H.
  - simpl in H. injection H as <-. split.
    + intros k Hk. simpl in Hk. lia.
    + intros name. simpl. tauto.
  - simpl in H. fold iloc in H.
    apply rbind_Ok_inv in H. destruct H as [xs [Hx H]].
    apply rbind_Ok_inv in H. destruct H as [ys [Hy H]].
    destruct (IH _ _ _ H) as [Hcols Hkeys]. split.
    + intros k Hk. destruct k as [|k].
      * exists xs, ys. rewrite Z.add_0_r. split; assumption.
      * destruct (Hcols k) as [xs' [ys' [A B]]]; [simpl in Hk; lia|].
        exists xs', ys'.
        replace (i + Z.of_nat (S k))%Z with (i + 1 + Z.of_nat k)%Z by lia.
        split; assumption.
    + intros name. rewrite Hkeys, dict_set_keys. simpl. split.
      * intros [X|[X|X]]; auto.
      * intros [[X|X]|X]; auto.
Qed.

(** X10.  The loader returns nothing partial.  Whenever it returns a result,
    the file was opened and had at least four lines, the third line had at
    least three tokens, the table was read, and column 1 and both columns of
    every listed marker were there and numeric; so one missing or
    non-numeric marker column, however late in the list, makes the whole load
    return [None]. *)
Theorem load_trc_nothing_partial (filepath : string) (trc : Trc.t) :
  load filepath = Some trc ->
  exists content data,
    open_read filepath = Ok content /\
    (4 <= length (readlines content))%nat /\
    (forall line2, getitem (readlines content) 2 = Ok line2 ->
       (3 <= length (split_ws line2))%nat) /\
    read_csv filepath 5 = Ok data /\
    iloc data 1 = Ok (Trc.time trc) /\
    (forall k, (k < length (Trc.marker_list trc))%nat ->
       exists xs ys,
         iloc data (2 + 3 * Z.of_nat k)%Z = Ok xs /\
         iloc data (2 + 3 * Z.of_nat k + 1)%Z = Ok ys).
Proof.
  unfold load, load_trc. intros H.
  destruct (open_read filepath) as [content|] eqn:Eo; [|discriminate].
  cbn [rbind] in H.
  destruct (getitem (readlines content) 2) as [line2|] eqn:E2;
    [|discriminate]. cbn [rbind] in H.
  destruct (getitem (split_ws line2) 0) as [tok0|] eqn:Et0;
    [|discriminate]. cbn [rbind] in H.
  destruct (float_of_string tok0) as [rate|]; [|discriminate].
  cbn [rbind] in H.
  destruct (getitem (split_ws line2) 2) as [tok2|] eqn:Et2;
    [|discriminate]. cbn [rbind] in H.
  destruct (int_of_string tok2) as [frames|]; [|discriminate].
  cbn [rbind] in H.
  destruct (getitem (readlines content) 3) as [line3|] eqn:E3;
    [|discriminate]. cbn [rbind] in H.
  destruct (read_csv filepath 5) as [data|] eqn:Ec; [|discriminate].
  cbn [rbind] in H.
  destruct (load_markers column astype_float data
              (marker_names_of (split_on "009" line3)) 0 []) as [d|] eqn:Em;
    [|discriminate]. cbn [rbind] in H.
  fold iloc in H. destruct (iloc data 1) as [time|] eqn:Et; [|discriminate].
  cbn [rbind except_None] in H. injection H as <-.
  exists content, data. cbn [Trc.time Trc.marker_list].
  split; [reflexivity|]. split; [|split; [|split; [reflexivity|split]]].
  - assert (L : (3 < len (readlines content))%Z)
      by (apply (getitem_Ok_lt _ _ line3); [lia|exact E3]).
    unfold len in L. lia.
  - intros l2 El2. rewrite E2 in El2. injection El2 as <-.
    assert (L : (2 < len (split_ws line2))%Z)
      by (apply (getitem_Ok_lt _ _ tok2); [lia|exact Et2]).
    unfold len in L. lia.
  - exact Et.
  - intros k Hk. destruct (load_markers_inv data _ _ _ _ Em) as [Hcols _].
    destruct (Hcols k Hk) as [xs [ys [A B]]]. exists xs, ys.
    replace (2 + 3 * Z.of_nat k)%Z with ((0 + Z.of_nat k) * 3 + 2)%Z by lia.
    replace ((0 + Z.of_nat k) * 3 + 2 + 1)%Z
      with ((0 + Z.of_nat k) * 3 + 3)%Z by lia.
    split; assumption.
Qed.

(** X11.  The markers dictionary has an entry for every listed marker name and
    for no other key. *)
Theorem load_trc_marker_keys (filepath : string) (trc : Trc.t) :
  load filepath = Some trc ->
  forall name,
    dict_in name (Trc.markers trc) = true <-> In name (Trc.marker_list trc).
Proof.
  unfold load, load_trc. intros H name.
  destruct (open_read filepath) as [content|]; [|discriminate].
  cbn [rbind] in H.
  destruct (getitem (readlines content) 2) as [line2|]; [|discriminate].
  cbn [rbind] in H.
  destruct (getitem (split_ws line2) 0) as [tok0|]; [|discriminate].
  cbn [rbind] in H.
  destruct (float_of_string tok0) as [rate|]; [|discriminate].
  cbn [rbind] in H.
  destruct (getitem (split_ws line2) 2) as [tok2|]; [|discriminate].
  cbn [rbind] in H.
  destruct (int_of_string tok2) as [frames|]; [|discriminate].
  cbn [rbind] in H.
  destruct (getitem (readlines content) 3) as [line3|]; [|discriminate].
  cbn [rbind] in H.
  destruct (read_csv filepath 5) as [data|]; [|discriminate].
  cbn [rbind] in H.
  destruct (load_markers column astype_float data
              (marker_names_of (split_on "009" line3)) 0 []) as [d|] eqn:Em;
    [|discriminate]. cbn [rbind] in H.
  destruct (iloc_float column astype_float data 1) as [time|];
    [|discriminate].
  cbn [rbind except_None] in H. injection H as <-.
  cbn [Trc.markers Trc.marker_list].
  destruct (load_markers_inv data _ _ _ _ Em) as [_ Hkeys].
  unfold dict_in. specialize (Hkeys name). simpl in Hkeys.
  destruct (dict_get d name); split; intros X.
  - destruct (proj1 Hkeys) as [Y|Y]; [discriminate|exact Y|].
    exfalso. apply Y. reflexivity.
  - reflexivity.
  - discriminate.
  - exfalso. apply (proj2 Hkeys); auto.
Qed.

End LoaderMore.

Module TrcExpected.

Open Scope string_scope.

(** what the loader makes of the example file *)
Definition walk : Trc.t :=
  Trc.mk 2 (Fin 30)
    [("Hip", Marker.mk [Fin 100; Fin 101] [Fin 200; Fin 200])]
    ["Hip"] [Fin 0; Fin (1 / 2)].

End TrcExpected.

Lemma trc_example_loaded :
  TrcExample.load "walk.trc" = Some TrcExpected.walk.
Proof. reflexivity. Qed.

Lemma load_trc_nothing_partial_witness :
  exists content data,
    TrcExample.open_read "walk.trc" = Ok content /\
    (4 <= length (readlines content))%nat /\
    (forall line2, getitem (readlines content) 2 = Ok line2 ->
       (3 <= length (split_ws line2))%nat) /\
    TrcExample.read_csv "walk.trc" 5 = Ok data /\
    iloc_float (list float) TrcExample.astype_float data 1
    = Ok (Trc.time TrcExpected.walk) /\
    (forall k, (k < length (Trc.marker_list TrcExpected.walk))%nat ->
       exists xs ys,
         iloc_float (list float) TrcExample.astype_float data
           (2 + 3 * Z.of_nat k)%Z = Ok xs /\
         iloc_float (list float) TrcExample.astype_float data
           (2 + 3 * Z.of_nat k + 1)%Z = Ok ys).
Proof.
  apply (load_trc_nothing_partial
           TrcExample.open_read TrcExample.float_of_string
           TrcExample.int_of_string (list float) TrcExample.read_csv
           TrcExample.astype_float "walk.trc" TrcExpected.walk).
  exact trc_example_loaded.
Defined.

Lemma load_trc_marker_keys_witness :
  dict_in "Hip" (Trc.markers TrcExpected.walk) = true
  <-> In "Hip"%string (Trc.marker_list TrcExpected.walk).
Proof.
  apply (load_trc_marker_keys
           TrcExample.open_read TrcExample.float_of_string
           TrcExample.int_of_string (list float) TrcExample.read_csv
           TrcExample.astype_float "walk.trc" TrcExpected.walk).
  exact trc_example_loaded.
Defined.

(** ** Marker names *)

Definition starts_with_space (s : string) : bool :=
  match s with
  | EmptyString => false
  | String c _ => isspace c
  end.

Fixpoint ends_with_space (s : string) : bool :=
  match s with
  | EmptyString => false
  | String c EmptyString => isspace c
  | String _ s' => ends_with_space s'
  end.

Lemma lstrip_starts s : starts_with_space (lstrip s) = false.
Proof.
  induction s as [|c s IH]; [reflexivity|]. simpl.
  destruct (isspace c) eqn:E; [exact IH|]. simpl. exact E.
Qed.

Lemma rstrip_ends s : ends_with_space (rstrip s) = false.
Proof.
  induction s as [|c s IH]; [reflexivity|]. simpl.
  destruct (rstrip s) as [|c' r] eqn:E.
  - destruct (isspace c) eqn:Ec; [reflexivity|]. simpl. exact Ec.
  - exact IH.
Qed.

Lemma lstrip_keeps_end s :
  ends_with_space s = false -> ends_with_space (lstrip s) = false.
Proof.
  induction s as [|c s IH]; [reflexivity|]. intros H. simpl.
  destruct (isspace c) eqn:E; [|exact H]. apply IH.
  destruct s as [|c' s']; [reflexivity|]. exact H.
Qed.

Lemma strip_clean s :
  starts_with_space (strip s) = false /\ ends_with_space (strip s) = false.
Proof.
  unfold strip. split; [apply lstrip_starts|].
  apply lstrip_keeps_end. apply rstrip_ends.
Qed.

(** X12.  Every marker name that the loader keeps is the stripped form of an
    entry of the header line: it is not empty, neither begins nor ends with
    white space (so the line end that closes the header line is never part
    of the last name), and is neither "Frame#" nor "Time". *)
Theorem marker_names_clean (marker_names_raw : list string) (name : string) :
  In name (marker_names_of marker_names_raw) ->
  (exists raw, In raw marker_names_raw /\ name = strip raw) /\
  nonempty name = true /\
  starts_with_space name = false /\
  ends_with_space name = false /\
  name <> "Frame#"%string /\ name <> "Time"%string.
Proof.
  unfold marker_names_of. intros H. apply in_map_iff in H.
  destruct H as [raw [<- Hraw]]. apply filter_In in Hraw.
  destruct Hraw as [Hin Hk]. apply andb_true_iff in Hk.
  destruct Hk as [Hne Hres].
  destruct (strip_clean raw) as [S E].
  split; [exists raw; auto|]. repeat split; try assumption.
  - intros X. rewrite X in Hres. discriminate.
  - intros X. rewrite X in Hres. discriminate.
Qed.

Lemma marker_names_clean_witness :
  let raw := split_on "009" (TrcExample.content_line 3) in
  (exists r, In r raw /\ "Hip"%string = strip r) /\
  nonempty "Hip" = true /\
  starts_with_space "Hip" = false /\
  ends_with_space "Hip" = false /\
  "Hip"%string <> "Frame#"%string /\ "Hip"%string <> "Time"%string.
Proof.
  apply (marker_names_clean
           (split_on "009" (TrcExample.content_line 3)) "Hip"%string).
  left. reflexivity.
Defined.

(* ------------------------------------------------------------------ *)
(** ** The angle loader *)

Lemma prefix_app needle s :
  String.prefix needle s = true <->
  exists post, s = (needle ++ post)%string.
Proof.
  revert needle. induction s as [|c' s IH]; intros [|c needle]; simpl.
  - split; [intros _; exists EmptyString; reflexivity|reflexivity].
  - split; [discriminate|]. intros [post H]. discriminate.
  - split; [intros _; exists (String c' s); reflexivity|reflexivity].
  - destruct (Ascii.ascii_dec c c') as [->|Hne].
    + rewrite IH. split; intros [post H]; exists post.
      * rewrite H. reflexivity.
      * injection H as H. exact H.
    + split; [discriminate|]. intros [post H]. injection H as H _.
      congruence.
Qed.

(** [contains] is the substring test. *)
Lemma contains_app needle s :
  contains needle s = true <->
  exists pre post, s = (pre ++ needle ++ post)%string.
Proof.
  induction s as [|c s IH].
  - cbn [contains]. rewrite orb_false_r, prefix_app. split.
    + intros [post H]. exists EmptyString, post. exact H.
    + intros [pre [post H]]. destruct pre as [|c pre]; [eauto|discriminate].
  - cbn [contains]. rewrite orb_true_iff, prefix_app, IH. split.
    + intros [[post H]|[pre [post H]]].
      * exists EmptyString, post. exact H.
      * exists (String c pre), post. rewrite H. reflexivity.
    + intros [pre [post H]]. destruct pre as [|c' pre].
      * left. exists post. exact H.
      * right. injection H as _ H. exists pre, post. exact H.
Qed.

Lemma find_start_row_from before : forall i line after,
  (forall l, In l before -> contains "endheader" l = false) ->
  contains "endheader" line = true ->
  find_start_row (before ++ line :: after) i = (i + length before + 1)%nat.
Proof.
  induction before as [|l before IH]; intros i line after Hb Hl.
  - simpl. rewrite Hl. lia.
  - simpl. rewrite (Hb l) by (left; reflexivity).
    rewrite IH; [lia| |exact Hl]. intros l' Hin. apply Hb. right. exact Hin.
Qed.

Lemma find_start_row_none lines : forall i,
  (forall l, In l lines -> contains "endheader" l = false) ->
  find_start_row lines i = 0%nat.
Proof.
  induction lines as [|l lines IH]; intros i H; [reflexivity|].
  simpl. rewrite (H l) by (left; reflexivity). apply IH.
  intros l' Hin. apply H. right. exact Hin.
Qed.

(** X13.  The angle loader skips the header up to and including the first line
    in which the text "endheader" occurs, and skips nothing when no line has
    it: the whole file then goes to the table parser. *)
Theorem start_row_after_first_endheader
  (before after : list string) (line : string) :
  (forall l, In l before -> contains "endheader" l = false) ->
  (contains "endheader" line = true ->
   find_start_row (before ++ line :: after) 0 = S (length before)) /\
  (contains "endheader" line = false ->
   (forall l, In l after -> contains "endheader" l = false) ->
   find_start_row (before ++ line :: after) 0 = 0%nat).
Proof.
  intros Hb. split.
  - intros Hl. rewrite (find_start_row_from before 0 line after Hb Hl). lia.
  - intros Hl Ha. apply find_start_row_none. intros l Hin.
    apply in_app_or in Hin. destruct Hin as [Hin|[<-|Hin]]; auto.
Qed.

Lemma start_row_after_first_endheader_witness :
  find_start_row
    (["name angles"%string; "nRows=2"%string]
       ++ "endheader"%string :: ["time"%string; "0.0"%string]) 0
  = 3%nat.
Proof.
  apply (start_row_after_first_endheader
           ["name angles"; "nRows=2"]%string ["time"; "0.0"]%string
           "endheader"%string).
  - intros l [<-|[<-|[]]]; reflexivity.
  - reflexivity.
Defined.

Lemma dict_get_NoDup {V} (d : dict V) k v :
  NoDup (map fst d) -> In (k, v) d -> dict_get d k = Some v.
Proof.
  induction d as [|[k' v'] d IH]; intros Hnd Hin; [contradiction|].
  simpl in *. inversion Hnd as [|? ? Hnot Hnd']; subst.
  destruct Hin as [E|Hin].
  - injection E as -> ->. rewrite String.eqb_refl. reflexivity.
  - destruct (String.eqb_spec k' k) as [->|Hne].
    + exfalso. apply Hnot. apply in_map_iff. exists (k, v). auto.
    + apply IH; assumption.
Qed.

Section MotLoaderFacts.

Variable open_read : string -> result string.
Variable column : Type.
Variable read_csv_header : string -> nat -> result (list (string * column)).
Variable astype_float : column -> result (list float).

Let named := named_float column astype_float.
Let load := load_mot open_read column read_csv_header astype_float.

Lemma load_angles_columns data : forall headers acc,
  NoDup headers ->
  (forall h, In h headers -> exists vs, named data h = Ok vs) ->
  exists d,
    load_angles column astype_float data headers acc = Ok d /\
    (forall h, ~ In h headers -> dict_get d h = dict_get acc h) /\
    (forall h, In h headers ->
       exists vs, named data h = Ok vs /\ dict_get d h = Some vs).
Proof.
  induction headers as [|h0 headers IH]; intros acc Hnd Hcols.
  - exists acc. repeat split; auto. intros h [].
  - inversion Hnd as [|? ? Hnot Hnd']; subst.
    destruct (Hcols h0) as [vs0 E0]; [left; reflexivity|].
    destruct (IH (dict_set acc h0 vs0) Hnd') as [d [Hd [Hout Hin]]].
    { intros h Hh. apply Hcols. right. exact Hh. }
    exists d. split; [|split].
    + simpl. fold named. rewrite E0. simpl. exact Hd.
    + intros h Hh. rewrite Hout by (intros X; apply Hh; right; exact X).
      apply dict_get_set_other. intros ->. apply Hh. left. reflexivity.
    + intros h [<-|Hh].
      * exists vs0. split; [exact E0|].
        rewrite Hout by exact Hnot. apply dict_get_set_same.
      * apply Hin. exact Hh.
Qed.

Lemma load_angles_inv data : forall headers acc d,
  load_angles column astype_float data headers acc = Ok d ->
  forall h, In h headers -> exists vs, named data h = Ok vs.
Proof.
  induction headers as [|h0 headers IH]; intros acc d H h Hin;
    [contradiction|].
  simpl in H. fold named in H. apply rbind_Ok_inv in H.
  destruct H as [vs0 [E0 H]]. destruct Hin as [<-|Hin]; [eauto|].
  apply (IH _ _ H h Hin).
Qed.

(** X14.  On an angle file whose table has a first (time) column and further
    columns under distinct names, all numeric, the loader returns the time
    series from the first column, the other column names in order as the
    angle list, and under each of those names the series of its column; the
    time column's name is not among the angles. *)
Theorem load_mot_fields
  (filepath content : string) (h0 : string) (c0 : column)
  (rest : list (string * column)) (time : list float) :
  open_read filepath = Ok content ->
  read_csv_header filepath (find_start_row (readlines content) 0)
  = Ok ((h0, c0) :: rest) ->
  NoDup (h0 :: map fst rest) ->
  astype_float c0 = Ok time ->
  (forall h c, In (h, c) rest -> exists vs, astype_float c = Ok vs) ->
  exists mot,
    load filepath = Some mot /\
    Mot.time mot = time /\
    Mot.angle_list mot = map fst rest /\
    dict_get (Mot.angles mot) h0 = None /\
    (forall h c, In (h, c) rest ->
       exists vs, astype_float c = Ok vs /\
                  dict_get (Mot.angles mot) h = Some vs).
Proof.
  intros Hopen Hcsv Hnd Htime Hcols.
  set (data := (h0, c0) :: rest).
  assert (Hdata : NoDup (map fst data)) by exact Hnd.
  assert (Hnamed : forall h c, In (h, c) data ->
            named data h = astype_float c).
  { intros h c Hin. unfold named, named_float, dict_getitem.
    rewrite (dict_get_NoDup data h c Hdata Hin). reflexivity. }
  inversion Hnd as [|? ? Hnot Hnd']; subst.
  destruct (load_angles_columns data (map fst rest) [] Hnd')
    as [d [Hd [Hout Hin]]].
  { intros h Hh. apply in_map_iff in Hh. destruct Hh as [[h' c] [<- Hc]].
    destruct (Hcols h' c Hc) as [vs E]. exists vs. cbn [fst].
    rewrite (Hnamed h' c) by (right; exact Hc). exact E. }
  exists (Mot.mk d (map fst rest) time). split; [|repeat split].
  - unfold load, load_mot. rewrite Hopen. cbn [rbind]. rewrite Hcsv.
    cbn [rbind map fst tl]. fold data. rewrite Hd. cbn [rbind].
    change (getitem (h0 :: map fst rest) 0) with (Ok h0). cbn [rbind].
    fold named. rewrite (Hnamed h0 c0) by (left; reflexivity).
    rewrite Htime. reflexivity.
  - cbn [Mot.angles]. rewrite Hout by exact Hnot. reflexivity.
  - intros h c Hc. cbn [Mot.angles].
    destruct (Hin h) as [vs [E G]].
    { apply in_map_iff. exists (h, c). auto. }
    exists vs. split; [|exact G].
    rewrite <- (Hnamed h c) by (right; exact Hc). exact E.
Qed.

(** X15.  The angle loader needs every column.  Whenever it returns a result,
    the table it read has at least one column, and every column of the
    table, time and angles alike, could be looked up and converted to
    numbers; a table without columns, or one column that is not numeric,
    makes the load return [None]. *)
Theorem load_mot_nothing_partial (filepath : string) (mot : Mot.t) :
  load filepath = Some mot ->
  exists content data,
    open_read filepath = Ok content /\
    read_csv_header filepath (find_start_row (readlines content) 0)
    = Ok data /\
    data <> [] /\
    Mot.angle_list mot = tl (map fst data) /\
    (forall h, In h (map fst data) -> exists vs, named data h = Ok vs).
Proof.
  unfold load, load_mot. intros H.
  destruct (open_read filepath) as [content|] eqn:Eo; [|discriminate].
  cbn [rbind] in H.
  destruct (read_csv_header filepath (find_start_row (readlines content) 0))
    as [data|] eqn:Ec; [|discriminate]. cbn [rbind] in H.
  destruct (load_angles column astype_float data (tl (map fst data)) [])
    as [d|] eqn:Ea; [|discriminate]. cbn [rbind] in H.
  destruct data as [|[h0 c0] rest]; [discriminate|].
  change (getitem (map fst ((h0, c0) :: rest)) 0) with (Ok h0) in H.
  cbn [rbind] in H. fold named in H.
  destruct (named ((h0, c0) :: rest) h0) as [time|] eqn:Et; [|discriminate].
  cbn [except_None] in H. injection H as <-.
  exists content, ((h0, c0) :: rest).
  split; [reflexivity|]. split; [exact Ec|]. split; [discriminate|].
  split; [reflexivity|].
  intros h [<-|Hin].
  - exists time. exact Et.
  - apply (load_angles_inv _ _ _ _ Ea h Hin).
Qed.

End MotLoaderFacts.

Module MotExample.

Open Scope string_scope.

Definition content : string :=
  "Coordinates" ++ TrcExample.nl ++
  "nRows=2" ++ TrcExample.nl ++
  "endheader" ++ TrcExample.nl ++
  "time" ++ TrcExample.tab ++ "right knee" ++ TrcExample.nl ++
  "0.0" ++ TrcExample.tab ++ "10.0" ++ TrcExample.nl ++
  "0.5" ++ TrcExample.tab ++ "12.0" ++ TrcExample.nl.

Definition open_read (path : string) : result string := Ok content.

Definition table : list (string * list float) :=
  [ ("time", [Fin 0; Fin (1 / 2)]); ("right knee", [Fin 10; Fin 12]) ].

Definition read_csv_header (path : string) (skiprows : nat)
  : result (list (string * list float)) :=
  if Nat.eqb skiprows 3 then Ok table else Raise ValueError.

Definition load (path : string) : option Mot.t :=
  load_mot open_read (list float) read_csv_header TrcExample.astype_float
           path.

Definition expected : Mot.t :=
  Mot.mk [("right knee", [Fin 10; Fin 12])] ["right knee"]
         [Fin 0; Fin (1 / 2)].

End MotExample.

Lemma mot_example_loaded :
  MotExample.load "walk.mot" = Some MotExample.expected.
Proof. reflexivity. Qed.

Lemma load_mot_fields_witness :
  exists mot,
    MotExample.load "walk.mot" = Some mot /\
    Mot.time mot = [Fin 0; Fin (1 / 2)] /\
    Mot.angle_list mot = ["right knee"%string] /\
    dict_get (Mot.angles mot) "time" = None /\
    (forall h c, In (h, c) [("right knee"%string, [Fin 10; Fin 12])] ->
       exists vs, TrcExample.astype_float c = Ok vs /\
                  dict_get (Mot.angles mot) h = Some vs).
Proof.
  apply (load_mot_fields MotExample.open_read (list float)
           MotExample.read_csv_header TrcExample.astype_float
           "walk.mot" MotExample.content "time"%string [Fin 0; Fin (1 / 2)]
           [("right knee"%string, [Fin 10; Fin 12])] [Fin 0; Fin (1 / 2)]).
  - reflexivity.
  - reflexivity.
  - constructor; [|constructor; [intros []|constructor]].
    intros [H|[]]. discriminate.
  - reflexivity.
  - intros h c _. exists c. reflexivity.
Defined.

Lemma load_mot_nothing_partial_witness :
  exists content data,
    MotExample.open_read "walk.mot" = Ok content /\
    MotExample.read_csv_header "walk.mot"
      (find_start_row (readlines content) 0) = Ok data /\
    data <> [] /\
    Mot.angle_list MotExample.expected = tl (map fst data) /\
    (forall h, In h (map fst data) ->
       exists vs,
         named_float (list float) TrcExample.astype_float data h = Ok vs).
Proof.
  apply (load_mot_nothing_partial MotExample.open_read (list float)
           MotExample.read_csv_header TrcExample.astype_float
           "walk.mot" MotExample.expected).
  exact mot_example_loaded.
Defined.

(* ------------------------------------------------------------------ *)
(** ** Overlays, continued *)

Lemma getitem_In {A} (arr : list A) (i : Z) (a : A) :
  getitem arr i = Ok a -> In a arr.
Proof.
  unfold getitem. destruct (_ && _); [|discriminate].
  destruct (nth_error arr _) as [b|] eqn:E; [|discriminate].
  intros H. injection H as <-. apply (nth_error_In _ _ E).
Qed.

Lemma dict_get_In {V} (d : dict V) k v :
  dict_get d k = Some v -> In (k, v) d.
Proof.
  induction d as [|[k' v'] d IH]; simpl; [discriminate|].
  destruct (String.eqb_spec k' k) as [->|Hne].
  - intros H. injection H as ->. left. reflexivity.
  - intros H. right. apply IH. exact H.
Qed.

Lemma for_each_total {A B} (l : list A) (body : A -> result (list B)) :
  (forall a, In a l -> exists out, body a = Ok out) ->
  exists out, for_each l body = Ok out.
Proof.
  induction l as [|a l IH]; intros H; [exists []; reflexivity|].
  destruct (H a) as [o Ho]; [left; reflexivity|].
  destruct IH as [out Hout]; [intros b Hb; apply H; right; exact Hb|].
  exists (o ++ out). simpl. rewrite Ho. simpl. rewrite Hout. reflexivity.
Qed.

Lemma for_each_length {A B} (l : list A) (body : A -> result (list B)) :
  forall out,
    for_each l body = Ok out ->
    (forall a o, In a l -> body a = Ok o -> (length o <= 1)%nat) ->
    (length out <= length l)%nat.
Proof.
  induction l as [|a l IH]; intros out H Hone.
  - simpl in H. injection H as <-. simpl. lia.
  - simpl in H. apply rbind_Ok_inv in H. destruct H as [o [Ho H]].
    apply rbind_Ok_inv in H. destruct H as [rest [Hrest H]].
    injection H as <-. rewrite length_app. simpl.
    pose proof (Hone a o (or_introl eq_refl) Ho).
    assert (length rest <= length l)%nat; [|lia].
    apply IH; [exact Hrest|]. intros b ob Hb. apply Hone. right. exact Hb.
Qed.

Lemma length_range a b : length (range a b) = Z.to_nat (b - a).
Proof. unfold range. rewrite length_map, length_seq. reflexivity. Qed.

Lemma trail_window_length idx :
  (0 <= idx)%Z ->
  length (range (Z.max 0 (idx - Z.min 60 idx)) idx)
  = Z.to_nat (Z.min 60 idx).
Proof. intros H. rewrite length_range. lia. Qed.

Ltac ok_now := eexists; reflexivity.

(** a coordinate that is a number *)
Definition is_number (v : float) : Prop := exists r, v = Fin r.

(** a marker whose two series have one length and hold numbers only *)
Definition numeric (c : Marker.t) : Prop :=
  aligned c /\ Forall is_number (Marker.x c) /\ Forall is_number (Marker.y c).

Lemma numeric_x c i :
  numeric c -> (0 <= i < len (Marker.x c))%Z ->
  exists r, getitem (Marker.x c) i = Ok (Fin r).
Proof.
  intros [_ [Hx _]] Hi. destruct (getitem_Ok (Marker.x c) i Hi) as [a [E _]].
  rewrite Forall_forall in Hx.
  destruct (Hx a (getitem_In _ _ _ E)) as [r ->]. exists r. exact E.
Qed.

Lemma numeric_y c i :
  numeric c -> (0 <= i < len (Marker.x c))%Z ->
  exists r, getitem (Marker.y c) i = Ok (Fin r).
Proof.
  intros [Hal [_ Hy]] Hi.
  assert (Hi' : (0 <= i < len (Marker.y c))%Z).
  { unfold len in *. rewrite Hal. exact Hi. }
  destruct (getitem_Ok (Marker.y c) i Hi') as [a [E _]].
  rewrite Forall_forall in Hy.
  destruct (Hy a (getitem_In _ _ _ E)) as [r ->]. exists r. exact E.
Qed.

Lemma trail_step_total c idx trail_len i :
  numeric c -> (0 <= i)%Z ->
  exists out, trail_step c idx trail_len i = Ok out.
Proof.
  intros Hn H0. unfold trail_step.
  destruct (Z.ltb_spec i (len (Marker.x c))); [|ok_now].
  destruct (Z.ltb_spec (i + 1) (len (Marker.x c))); [|ok_now]. cbn [andb].
  destruct (numeric_x c i Hn) as [x1 ->]; [lia|].
  destruct (numeric_y c i Hn) as [y1 ->]; [lia|].
  destruct (numeric_x c (i + 1) Hn) as [x2 ->]; [lia|].
  destruct (numeric_y c (i + 1) Hn) as [y2 ->]; [lia|]. cbn [rbind].
  destruct (both_present (Fin x1) (Fin x2)); [|ok_now].
  cbv zeta. unfold int_point. cbn [F.to_int rbind]. ok_now.
Qed.

Lemma relative_step_total c hip hx hy i :
  numeric c -> numeric hip -> (0 <= i)%Z ->
  exists out, relative_step c hip (Fin hx) (Fin hy) i = Ok out.
Proof.
  intros Hc Hh H0. unfold relative_step, relative_points.
  destruct (Z.geb_spec i (len (Marker.x c))); [ok_now|].
  destruct (Z.geb_spec (i + 1) (len (Marker.x c))); [ok_now|].
  destruct (Z.geb_spec i (len (Marker.x hip))); [ok_now|]. cbn [orb].
  assert (Ly : len (Marker.y hip) = len (Marker.x hip)).
  { destruct Hh as [Hal _]. unfold len. rewrite Hal. reflexivity. }
  destruct (numeric_x hip i Hh) as [hxi ->]; [lia|].
  destruct (numeric_y hip i Hh) as [hyi ->]; [lia|]. cbn [rbind].
  destruct (absent (Fin hxi)); [ok_now|].
  destruct (numeric_x c i Hc) as [cxi ->]; [lia|].
  destruct (numeric_y c i Hc) as [cyi ->]; [lia|]. cbn [rbind].
  rewrite (Z.min_l (i + 1) (len (Marker.x c) - 1)) by lia.
  destruct (numeric_x hip (Z.min (i + 1) (len (Marker.x hip) - 1)) Hh)
    as [hxj ->]; [lia|].
  rewrite Ly.
  destruct (numeric_y hip (Z.min (i + 1) (len (Marker.x hip) - 1)) Hh)
    as [hyj ->]; [lia|].
  destruct (numeric_x c (i + 1) Hc) as [cxj ->]; [lia|].
  destruct (numeric_y c (i + 1) Hc) as [cyj ->]; [lia|]. cbn [rbind].
  cbv zeta. cbn [F.sub F.add F.lift2].
  unfold int_point. cbn [F.to_int rbind]. ok_now.
Qed.

Lemma bone_step_total markers idx bone :
  (forall it, In it markers -> numeric (snd it)) -> (0 <= idx)%Z ->
  exists out, bone_step markers idx bone = Ok out.
Proof.
  intros Hall H0. destruct bone as [a b]. unfold bone_step.
  destruct (dict_get markers a) as [ma|] eqn:Ea; [|ok_now].
  destruct (dict_get markers b) as [mb|] eqn:Eb; [|ok_now].
  pose proof (Hall _ (dict_get_In _ _ _ Ea)) as Na.
  pose proof (Hall _ (dict_get_In _ _ _ Eb)) as Nb. cbn [snd] in Na, Nb.
  destruct (Z.ltb_spec idx (len (Marker.x ma))); [|ok_now].
  destruct (Z.ltb_spec idx (len (Marker.x mb))); [|ok_now]. cbn [andb].
  destruct (numeric_x ma idx Na) as [x1 ->]; [lia|].
  destruct (numeric_y ma idx Na) as [y1 ->]; [lia|].
  destruct (numeric_x mb idx Nb) as [x2 ->]; [lia|].
  destruct (numeric_y mb idx Nb) as [y2 ->]; [lia|]. cbn [rbind].
  destruct (both_present (Fin x1) (Fin x2)); [|ok_now].
  unfold int_point. cbn [F.to_int rbind]. ok_now.
Qed.

Lemma angle_text_total s idx xi yi :
  (0 <= idx)%Z -> exists out, angle_text s idx xi yi = Ok out.
Proof.
  intros H0. unfold angle_text.
  destruct (_cache_angle s) as [angle|]; [|ok_now].
  destruct (Z.ltb_spec idx (len angle)); [|ok_now].
  destruct (getitem_Ok angle idx) as [a [E _]]; [lia|]. rewrite E.
  cbn [rbind]. destruct a; ok_now.
Qed.

Lemma dot_step_total s idx item :
  numeric (snd item) -> (0 <= idx)%Z ->
  exists out, dot_step s idx item = Ok out.
Proof.
  intros Hn H0. destruct item as [name c]. cbn [snd] in Hn. unfold dot_step.
  destruct (Z.ltb_spec idx (len (Marker.x c))); [|ok_now].
  destruct (numeric_x c idx Hn) as [x ->]; [lia|].
  destruct (numeric_y c idx Hn) as [y ->]; [lia|]. cbn [rbind].
  destruct (absent (Fin x)); [ok_now|].
  unfold int_point. cbn [F.to_int rbind].
  destruct (selected_joint s) as [j|]; [|ok_now].
  destruct (String.eqb name j); [|ok_now].
  destruct (angle_text_total s idx (F.trunc x) (F.trunc y) H0) as [t ->].
  cbn [rbind]. ok_now.
Qed.

(** X16.  The renderer does not raise on well-formed numbers.  When the x and
    y series of every marker have one length and contain numbers only,
    [_draw_overlays] returns the drawing for every frame index from 0 on,
    whatever the selection, the two trajectory flags and the angle cache. *)
Theorem draw_overlays_total (s : app) (trc : Trc.t) (idx : Z) :
  trc_data s = Some trc ->
  (forall it, In it (Trc.markers trc) -> numeric (snd it)) ->
  (0 <= idx)%Z ->
  exists drawn, _draw_overlays s idx = Ok drawn.
Proof.
  intros Htrc Hall H0. unfold _draw_overlays. rewrite Htrc.
  assert (T : exists trails,
            match selected_marker s (Trc.markers trc) with
            | Some (_, c) =>
                (t1 <- (if show_trajectory s then draw_trajectory c idx
                        else Ok []) ;;
                 t2 <- (if show_relative_trajectory s
                        then draw_relative_trajectory (Trc.markers trc) c idx
                        else Ok []) ;;
                 Ok (t1 ++ t2))%result
            | None => Ok []
            end = Ok trails).
  { destruct (selected_marker s (Trc.markers trc)) as [[j c]|] eqn:Es;
      [|ok_now].
    assert (Nc : numeric c).
    { unfold selected_marker in Es.
      destruct (selected_joint s) as [j'|]; [|discriminate].
      destruct (nonempty j'); [|discriminate].
      destruct (dict_get (Trc.markers trc) j') as [c'|] eqn:Ec;
        [|discriminate].
      injection Es as _ <-. apply (Hall _ (dict_get_In _ _ _ Ec)). }
    assert (T1 : exists t1,
              (if show_trajectory s then draw_trajectory c idx else Ok [])
              = Ok t1).
    { destruct (show_trajectory s); [|ok_now]. unfold draw_trajectory.
      apply for_each_total. intros i Hi. apply in_range in Hi.
      apply trail_step_total; [exact Nc|lia]. }
    assert (T2 : exists t2,
              (if show_relative_trajectory s
               then draw_relative_trajectory (Trc.markers trc) c idx
               else Ok []) = Ok t2).
    { destruct (show_relative_trajectory s); [|ok_now].
      unfold draw_relative_trajectory.
      destruct (dict_get (Trc.markers trc) "Hip") as [hip|] eqn:Eh; [|ok_now].
      pose proof (Hall _ (dict_get_In _ _ _ Eh)) as Nh. cbn [snd] in Nh.
      destruct (Z.ltb_spec idx (len (Marker.x hip))); [|ok_now].
      destruct (numeric_x hip idx Nh) as [hx ->]; [lia|].
      destruct (numeric_y hip idx Nh) as [hy ->]; [lia|]. cbn [rbind].
      destruct (F.gt (Fin hx) (Fin 0) && negb (F.isnan (Fin hx))); [|ok_now].
      apply for_each_total. intros i Hi. apply in_range in Hi.
      apply relative_step_total; [exact Nc|exact Nh|lia]. }
    destruct T1 as [t1 ->]. destruct T2 as [t2 ->]. cbn [rbind]. ok_now. }
  destruct T as [trails ->]. cbn [rbind].
  destruct (for_each_total SKELETON_CONNECTIONS
              (bone_step (Trc.markers trc) idx)) as [bones Hb].
  { intros bone _. apply bone_step_total; assumption. }
  unfold draw_skeleton. rewrite Hb. cbn [rbind].
  destruct (for_each_total (Trc.markers trc) (dot_step s idx)) as [dots Hd].
  { intros it Hit. apply dot_step_total; [apply Hall; exact Hit|exact H0]. }
  unfold draw_dots. rewrite Hd. cbn [rbind]. ok_now.
Qed.

Lemma draw_overlays_total_witness :
  exists drawn, _draw_overlays ClickExample.loaded 0 = Ok drawn.
Proof.
  apply (draw_overlays_total ClickExample.loaded ClickExample.trc 0).
  - reflexivity.
  - intros it Hin. simpl in Hin.
    destruct Hin as [<-|[<-|[]]];
      (split; [reflexivity|]; split;
       repeat constructor; eexists; reflexivity).
  - lia.
Defined.

Lemma both_present_positive (a b : R) :
  (0 < a)%R -> (0 < b)%R -> both_present (Fin a) (Fin b) = true.
Proof.
  intros Ha Hb. unfold both_present. simpl.
  rewrite (proj2 (Rltb_true 0 a) Ha), (proj2 (Rltb_true 0 b) Hb).
  reflexivity.
Qed.

(** the segment drawn by one iteration over whole, positive pixels *)
Lemma trail_step_present (c : Marker.t) (idx trail_len i x1 y1 x2 y2 : Z) :
  (0 <= i)%Z -> (i + 1 < len (Marker.x c))%Z ->
  getitem (Marker.x c) i = Ok (Fin (IZR x1)) ->
  getitem (Marker.y c) i = Ok (Fin (IZR y1)) ->
  getitem (Marker.x c) (i + 1) = Ok (Fin (IZR x2)) ->
  getitem (Marker.y c) (i + 1) = Ok (Fin (IZR y2)) ->
  (0 < x1)%Z -> (0 < x2)%Z ->
  trail_step c idx trail_len i
  = Ok [Line (x1, y1) (x2, y2) (trail_colour idx trail_len i) 2%Z].
Proof.
  intros H0 H1 E1 E2 E3 E4 P1 P2. unfold trail_step.
  destruct (Z.ltb_spec i (len (Marker.x c))); [|lia].
  destruct (Z.ltb_spec (i + 1) (len (Marker.x c))); [|lia]. cbn [andb].
  rewrite E1, E2, E3, E4. cbn [rbind].
  rewrite both_present_positive by (apply IZR_lt; assumption).
  cbv zeta. unfold int_point. cbn [F.to_int rbind].
  rewrite !trunc_IZR. reflexivity.
Qed.

Lemma trail_step_line (c : Marker.t) (idx trail_len i : Z) p1 p2 clr t :
  trail_step c idx trail_len i = Ok [Line p1 p2 clr t] ->
  clr = trail_colour idx trail_len i /\ t = 2%Z.
Proof.
  unfold trail_step. destruct (_ && _); [|discriminate].
  destruct (getitem (Marker.x c) i) as [x1|]; [|discriminate].
  destruct (getitem (Marker.y c) i) as [y1|]; [|discriminate].
  destruct (getitem (Marker.x c) (i + 1)) as [x2|]; [|discriminate].
  destruct (getitem (Marker.y c) (i + 1)) as [y2|]; [|discriminate].
  cbn [rbind]. destruct (both_present x1 x2); [|discriminate]. cbv zeta.
  destruct (int_point x1 y1) as [q1|]; [|discriminate].
  destruct (int_point x2 y2) as [q2|]; [|discriminate]. cbn [rbind].
  intros H. injection H as _ _ <- <-. split; reflexivity.
Qed.

Lemma trail_step_short (c : Marker.t) (idx trail_len i : Z) out :
  trail_step c idx trail_len i = Ok out -> (length out <= 1)%nat.
Proof.
  unfold trail_step. destruct (_ && _); [|intros H; injection H as <-; simpl; lia].
  destruct (getitem (Marker.x c) i) as [x1|]; [|discriminate].
  destruct (getitem (Marker.y c) i) as [y1|]; [|discriminate].
  destruct (getitem (Marker.x c) (i + 1)) as [x2|]; [|discriminate].
  destruct (getitem (Marker.y c) (i + 1)) as [y2|]; [|discriminate].
  cbn [rbind].
  destruct (both_present x1 x2); [|intros H; injection H as <-; simpl; lia].
  cbv zeta.
  destruct (int_point x1 y1) as [q1|]; [|discriminate].
  destruct (int_point x2 y2) as [q2|]; [|discriminate]. cbn [rbind].
  intros H. injection H as <-. simpl. lia.
Qed.

Lemma relative_step_short (c hip : Marker.t) (hx hy : float) (i : Z) out :
  relative_step c hip hx hy i = Ok out -> (length out <= 1)%nat.
Proof.
  unfold relative_step.
  destruct (relative_points c hip hx hy i) as [[[[a b] [d e]]|]|];
    [| |discriminate]; cbn [rbind].
  - destruct (int_point a b) as [q1|]; [|discriminate].
    destruct (int_point d e) as [q2|]; [|discriminate]. cbn [rbind].
    intros H. injection H as <-. simpl. lia.
  - intros H. injection H as <-. simpl. lia.
Qed.

(** X17.  Neither trail is longer than sixty segments.  At frame [idx] the
    absolute trail and the trail relative to "Hip" each draw at most
    [min 60 idx] primitives, one per frame of the trailing window at most,
    whatever the marker data. *)
Theorem trails_bounded (markers : dict Marker.t) (c : Marker.t) (idx : Z)
  (out : list prim) :
  (0 <= idx)%Z ->
  draw_trajectory c idx = Ok out \/
  draw_relative_trajectory markers c idx = Ok out ->
  (length out <= Z.to_nat (Z.min 60 idx))%nat /\ (length out <= 60)%nat.
Proof.
  intros H0 H.
  assert (B : (length out <= Z.to_nat (Z.min 60 idx))%nat); [|split; lia].
  destruct H as [H|H].
  - unfold draw_trajectory in H. cbv zeta in H.
    rewrite <- (trail_window_length idx H0).
    apply (for_each_length _ _ out H).
    intros a o _. apply trail_step_short.
  - unfold draw_relative_trajectory in H.
    destruct (dict_get markers "Hip") as [hip|];
      [|injection H as <-; simpl; lia].
    destruct (idx <? len (Marker.x hip))%Z;
      [|injection H as <-; simpl; lia].
    destruct (getitem (Marker.x hip) idx) as [hx|]; [|discriminate].
    destruct (getitem (Marker.y hip) idx) as [hy|]; [|discriminate].
    cbn [rbind] in H.
    destruct (F.gt hx (Fin 0) && negb (F.isnan hx));
      [|injection H as <-; simpl; lia].
    cbv zeta in H. rewrite <- (trail_window_length idx H0).
    apply (for_each_length _ _ out H).
    intros a o _. apply relative_step_short.
Qed.

Lemma trail_example_drawn :
  draw_trajectory TrailExample.knee 2
  = Ok [Line (10, 20)%Z (11, 20)%Z (0, 200, 80)%Z 2%Z;
        Line (11, 20)%Z (12, 20)%Z (127, 200, 80)%Z 2%Z].
Proof.
  unfold draw_trajectory. cbv zeta.
  change (range (Z.max 0 (2 - Z.min 60 2)) 2) with [0%Z; 1%Z].
  change (Z.min 60 2) with 2%Z. cbn [for_each].
  rewrite (trail_step_present TrailExample.knee 2 2 0 10 20 11 20);
    [|lia|unfold len; simpl; lia|reflexivity|reflexivity|reflexivity
     |reflexivity|lia|lia].
  rewrite (trail_step_present TrailExample.knee 2 2 1 11 20 12 20);
    [|lia|unfold len; simpl; lia|reflexivity|reflexivity|reflexivity
     |reflexivity|lia|lia].
  reflexivity.
Qed.

Lemma trails_bounded_witness :
  (length [Line (10, 20)%Z (11, 20)%Z (0, 200, 80)%Z 2%Z;
           Line (11, 20)%Z (12, 20)%Z (127, 200, 80)%Z 2%Z]
   <= Z.to_nat (Z.min 60 2))%nat /\
  (length [Line (10, 20)%Z (11, 20)%Z (0, 200, 80)%Z 2%Z;
           Line (11, 20)%Z (12, 20)%Z (127, 200, 80)%Z 2%Z] <= 60)%nat.
Proof.
  apply (trails_bounded [] TrailExample.knee 2).
  - lia.
  - left. exact trail_example_drawn.
Defined.

(** X18.  The absolute trail fades with age.  Of two segments drawn at frame
    [idx], the older one (smaller frame) never has the larger first colour
    channel; the channel lies in [0, 255), so the clamp to 255 never acts;
    the other two channels are 200 and 80 and the thickness is 2. *)
Theorem trail_fades_with_age (c : Marker.t) (idx i j : Z)
  (p1 p2 q1 q2 : Z * Z) (ci cj : color) (ti tj : Z) :
  (Z.max 0 (idx - Z.min 60 idx) <= i)%Z -> (i <= j)%Z -> (j < idx)%Z ->
  trail_step c idx (Z.min 60 idx) i = Ok [Line p1 p2 ci ti] ->
  trail_step c idx (Z.min 60 idx) j = Ok [Line q1 q2 cj tj] ->
  (0 <= fst (fst ci) <= fst (fst cj))%Z /\ (fst (fst cj) < 255)%Z /\
  snd (fst ci) = 200%Z /\ snd (fst cj) = 200%Z /\
  snd ci = 80%Z /\ snd cj = 80%Z /\ ti = 2%Z /\ tj = 2%Z.
Proof.
  intros Hlo Hij Hhi Ei Ej.
  apply trail_step_line in Ei. destruct Ei as [-> ->].
  apply trail_step_line in Ej. destruct Ej as [-> ->].
  unfold trail_colour. cbn [fst snd].
  assert (Hl : (1 <= Z.min 60 idx)%Z) by lia.
  rewrite (Z.max_l (Z.min 60 idx) 1) by lia.
  set (tl := Z.min 60 idx) in *.
  assert (Ki : (0 <= 255 * (i - (idx - tl)))%Z) by lia.
  assert (Kij : (255 * (i - (idx - tl)) <= 255 * (j - (idx - tl)))%Z) by lia.
  assert (Qi : (0 <= Z.quot (255 * (i - (idx - tl))) tl)%Z)
    by (apply Z.quot_pos; lia).
  assert (Qij : (Z.quot (255 * (i - (idx - tl))) tl
                 <= Z.quot (255 * (j - (idx - tl))) tl)%Z)
    by (apply Z.quot_le_mono; lia).
  assert (Qj : (Z.quot (255 * (j - (idx - tl))) tl < 255)%Z)
    by (apply Z.quot_lt_upper_bound; lia).
  repeat split; try reflexivity; lia.
Qed.

Lemma trail_fades_with_age_witness :
  (0 <= fst (fst (0, 200, 80)%Z) <= fst (fst (127, 200, 80)%Z))%Z /\
  (fst (fst (127, 200, 80)%Z) < 255)%Z /\
  snd (fst (0, 200, 80)%Z) = 200%Z /\ snd (fst (127, 200, 80)%Z) = 200%Z /\
  snd (0, 200, 80)%Z = 80%Z /\ snd (127, 200, 80)%Z = 80%Z /\
  2%Z = 2%Z /\ 2%Z = 2%Z.
Proof.
  apply (trail_fades_with_age TrailExample.knee 2 0 1
           (10, 20)%Z (11, 20)%Z (11, 20)%Z (12, 20)%Z).
  - simpl. lia.
  - lia.
  - lia.
  - apply (trail_step_present TrailExample.knee 2 2 0 10 20 11 20);
      [lia|unfold len; simpl; lia|reflexivity|reflexivity|reflexivity
      |reflexivity|lia|lia].
  - apply (trail_step_present TrailExample.knee 2 2 1 11 20 12 20);
      [lia|unfold len; simpl; lia|reflexivity|reflexivity|reflexivity
      |reflexivity|lia|lia].
Defined.

(** X19.  The relative trail needs its reference marker in view.  When the
    data has no marker named "Hip", or the frame lies beyond the series of
    "Hip", or the x coordinate of "Hip" at the frame is not positive or not
    a number, the relative trail draws nothing and does not raise, whatever
    the selected marker holds. *)
Theorem relative_trail_needs_reference (markers : dict Marker.t)
  (c : Marker.t) (idx : Z) :
  (0 <= idx)%Z ->
  dict_get markers "Hip" = None \/
  (exists hip, dict_get markers "Hip" = Some hip /\ aligned hip /\
     ((len (Marker.x hip) <= idx)%Z \/
      exists hx, getitem (Marker.x hip) idx = Ok hx /\ absent hx = true)) ->
  draw_relative_trajectory markers c idx = Ok [].
Proof.
  intros H0 H. unfold draw_relative_trajectory.
  destruct H as [->|[hip [-> [Hal H]]]]; [reflexivity|].
  destruct (Z.ltb_spec idx (len (Marker.x hip))) as [Hlt|Hge].
  - destruct H as [H|[hx [Ex Hx]]]; [lia|]. rewrite Ex.
    assert (Hy : (0 <= idx < len (Marker.y hip))%Z).
    { unfold aligned in Hal. unfold len in *. lia. }
    destruct (getitem_Ok (Marker.y hip) idx Hy) as [hy [-> _]].
    cbn [rbind].
    assert (G : F.gt hx (Fin 0) && negb (F.isnan hx) = false).
    { unfold absent in Hx. destruct hx as [|r]; [reflexivity|].
      simpl in Hx |- *. rewrite orb_false_r in Hx. apply Rleb_true in Hx.
      rewrite (proj2 (Rltb_false 0 r) Hx). reflexivity. }
    rewrite G. reflexivity.
  - reflexivity.
Qed.

Lemma relative_trail_needs_reference_witness :
  draw_relative_trajectory
    [("Hip"%string, Marker.mk [Fin 50; Fin 0; Fin 50] [Fin 60; Fin 0; Fin 60]);
     ("RKnee"%string, TrailExample.knee)]
    TrailExample.knee 1 = Ok [].
Proof.
  apply relative_trail_needs_reference; [lia|].
  right. eexists. split; [reflexivity|]. split; [reflexivity|].
  right. exists (Fin 0). split; [reflexivity|].
  apply absent_negative. lra.
Defined.

(* ------------------------------------------------------------------ *)
(** ** Kinematics, continued *)

Lemma gradient_Ok (f : list float) (dt : float) :
  (2 <= length f)%nat ->
  exists g, Np.gradient f dt = Ok g /\ length g = length f.
Proof.
  intros H. unfold Np.gradient.
  destruct (Nat.ltb_spec (length f) 2); [lia|].
  eexists. split; [reflexivity|]. rewrite length_map, length_seq.
  reflexivity.
Qed.

Lemma gradient_too_short (f : list float) (dt : float) :
  (length f < 2)%nat -> Np.gradient f dt = Raise ValueError.
Proof.
  intros H. unfold Np.gradient.
  destruct (Nat.ltb_spec (length f) 2); [reflexivity|lia].
Qed.

Lemma magnitude_Ok (u v : list float) :
  length u = length v ->
  exists m, Np.magnitude u v = Ok m /\ length m = length u.
Proof.
  intros H. unfold Np.magnitude, zip_with. rewrite H, Nat.eqb_refl.
  eexists. split; [reflexivity|]. rewrite length_map, length_combine. lia.
Qed.

Lemma pydiv_Ok (a b : float) :
  b <> Fin 0 -> exists d, F.pydiv a b = Ok d.
Proof.
  intros H. destruct b as [|y]; [eexists; reflexivity|]. unfold F.pydiv.
  destruct (Reqb y 0) eqn:E; [|eexists; reflexivity].
  apply Reqb_true in E. subst y. contradiction.
Qed.

Lemma pydiv_zero (a : float) : F.pydiv a (Fin 0) = Raise ZeroDivisionError.
Proof.
  unfold F.pydiv. rewrite (proj2 (Reqb_true 0 0) eq_refl). reflexivity.
Qed.

(** the angle column of a joint and its series, as [_compute_kinematics]
    looks them up *)
Definition angle_series (s : app) (joint : string)
  : option (string * list float) :=
  match dict_get MARKER_TO_ANGLE joint, mot_data s with
  | Some col, Some mot =>
      match (if nonempty col then dict_get (Mot.angles mot) col else None) with
      | Some raw => Some (col, raw)
      | None => None
      end
  | _, _ => None
  end.

(** a cached series that is set and has [n] samples *)
Definition has_length (o : option (list float)) (n : nat) : Prop :=
  exists l, o = Some l /\ length l = n.

Section KinematicsMore.

Variable savgol_filter : list float -> nat -> nat -> list float.

(** SciPy's filter returns an array of the shape of its input. *)
Hypothesis filter_length :
  forall arr w p, length (savgol_filter arr w p) = length arr.

Open Scope method_scope.

Lemma smooth_default_length (arr : list float) :
  length (smooth_default savgol_filter arr) = length arr.
Proof.
  unfold smooth_default, smooth.
  destruct (11 <? length arr)%nat; [apply filter_length|reflexivity].
Qed.

Variables (s : app) (joint : string) (trc : Trc.t) (c : Marker.t).

Hypothesis selected : selected_joint s = Some joint.
Hypothesis selected_named : nonempty joint = true.
Hypothesis loaded : trc_data s = Some trc.

(** X20.  A recomputation that cannot start leaves every cache as it was.
    With a selected joint that is not among the markers of the loaded data
    the call raises KeyError, and with a sample rate of 0 in the data it
    raises ZeroDivisionError; in both cases the object is unchanged, so the
    cached series are those of the previous selection. *)
Theorem compute_kinematics_refused :
  dict_get (Trc.markers trc) joint = None \/ Trc.data_rate trc = Fin 0 ->
  fst (_compute_kinematics savgol_filter s) = s /\
  snd (_compute_kinematics savgol_filter s)
  = match dict_get (Trc.markers trc) joint with
    | None => Raise KeyError
    | Some _ => Raise ZeroDivisionError
    end.
Proof.
  intros H. unfold _compute_kinematics.
  rewrite bind_get, selected, loaded, selected_named. cbn [negb].
  unfold dict_getitem.
  destruct (dict_get (Trc.markers trc) joint) as [c'|] eqn:Ec.
  - destruct H as [H|H]; [discriminate|].
    rewrite bind_lift_Ok, H, pydiv_zero, bind_lift_Raise. split; reflexivity.
  - rewrite bind_lift_Raise. split; reflexivity.
Qed.

Hypothesis tracked : dict_get (Trc.markers trc) joint = Some c.
Hypothesis rate_nonzero : Trc.data_rate trc <> Fin 0.

(** X21.  A marker with fewer than two samples cannot be differentiated.  The
    call raises ValueError from [np.gradient]; by then the time cache has
    been replaced by the time column of the data, and nothing else of the
    object has changed. *)
Theorem compute_kinematics_too_short :
  (length (Marker.x c) < 2)%nat ->
  _compute_kinematics savgol_filter s
  = (assign_cache k_time (Some (Trc.time trc)) s, Raise ValueError).
Proof.
  intros H. destruct (pydiv_Ok (Fin 1) _ rate_nonzero) as [dt Edt].
  unfold _compute_kinematics.
  rewrite bind_get, selected, loaded, selected_named. cbn [negb].
  unfold dict_getitem. rewrite tracked, bind_lift_Ok, Edt, bind_lift_Ok.
  rewrite bind_modify. cbv beta zeta.
  rewrite gradient_too_short by (rewrite length_map; exact H).
  rewrite bind_lift_Raise. reflexivity.
Qed.

Hypothesis series_aligned : aligned c.
Hypothesis two_samples : (2 <= length (Marker.x c))%nat.

Ltac run_linear :=
  let dt := fresh "dt" in
  let Edt := fresh "Edt" in
  destruct (pydiv_Ok (Fin 1) _ rate_nonzero) as [dt Edt];
  unfold _compute_kinematics;
  rewrite bind_get, selected, loaded, selected_named; cbn [negb];
  unfold dict_getitem; rewrite tracked, bind_lift_Ok, Edt, bind_lift_Ok;
  rewrite bind_modify; cbv beta zeta;
  set (sc := match calibrated s with
             | Some p => (Fin 1 / p)%float
             | None => Fin 1
             end);
  assert (Ly : length (Marker.y c) = length (Marker.x c))
    by exact series_aligned;
  destruct (gradient_Ok (map (fun a => (a * sc)%float) (Marker.x c)) dt)
    as [vx [Evx Lvx]]; [rewrite length_map; exact two_samples|];
  destruct (gradient_Ok (map (fun a => (a * sc)%float) (Marker.y c)) dt)
    as [vy [Evy Lvy]]; [rewrite length_map, Ly; exact two_samples|];
  rewrite length_map in Lvx, Lvy;
  rewrite Evx, bind_lift_Ok, Evy, bind_lift_Ok, !bind_modify;
  destruct (magnitude_Ok vx vy) as [vm [Evm Lvm]]; [lia|];
  rewrite Evm, bind_lift_Ok, bind_modify;
  destruct (gradient_Ok (smooth_default savgol_filter vx) dt)
    as [ax [Eax Lax]]; [rewrite smooth_default_length; lia|];
  destruct (gradient_Ok (smooth_default savgol_filter vy) dt)
    as [ay [Eay Lay]]; [rewrite smooth_default_length; lia|];
  rewrite smooth_default_length in Lax, Lay;
  rewrite Eax, bind_lift_Ok, Eay, bind_lift_Ok, !bind_modify;
  destruct (magnitude_Ok ax ay) as [am [Eam Lam]]; [lia|];
  rewrite Eam, bind_lift_Ok, bind_modify.

Ltac cached :=
  unfold has_length; eexists;
  split; [reflexivity|rewrite ?smooth_default_length; lia].

(** X22.  Every kinematic series has the length of the marker series.  For a
    selected marker with at least two samples, x and y of one length, and a
    non-zero sample rate, a recomputation without an angle series returns
    normally whatever the samples hold (missing values included); it caches
    the time column, six series of the length of the marker series, and
    clears the angle name and the three angle series. *)
Theorem compute_kinematics_series :
  angle_series s joint = None ->
  let r := _compute_kinematics savgol_filter s in
  snd r = Ok tt /\
  _cache (fst r) k_time = Some (Trc.time trc) /\
  has_length (_cache_vx (fst r)) (length (Marker.x c)) /\
  has_length (_cache_vy (fst r)) (length (Marker.x c)) /\
  has_length (_cache_vtotal (fst r)) (length (Marker.x c)) /\
  has_length (_cache_ax (fst r)) (length (Marker.x c)) /\
  has_length (_cache_ay (fst r)) (length (Marker.x c)) /\
  has_length (_cache_atotal (fst r)) (length (Marker.x c)) /\
  _cache_angle_name (fst r) = None /\
  _cache_angle (fst r) = None /\
  _cache_ang_vel (fst r) = None /\
  _cache_ang_acc (fst r) = None.
Proof.
  intros Hang. cbv zeta. run_linear. unfold angle_series in Hang.
  destruct (dict_get MARKER_TO_ANGLE joint) as [col|];
    destruct (mot_data s) as [mot|];
    try destruct (if nonempty col then dict_get (Mot.angles mot) col
                  else None);
    try discriminate Hang;
    (split; [reflexivity|]; split; [reflexivity|];
     split; [cached|]; split; [cached|]; split; [cached|];
     split; [cached|]; split; [cached|]; split; [cached|];
     repeat split).
Qed.

(** X23.  The angle series is cut to the length of the time column.  When the
    selected joint has an angle column in the loaded angle data, a
    recomputation caches the column name and the first
    [min (len time) (len raw)] samples of the column; with at least two such
    samples it returns normally, and the angular velocity and acceleration
    have that many samples too. *)
Theorem compute_kinematics_angle (col : string) (raw : list float) :
  angle_series s joint = Some (col, raw) ->
  let n := Z.to_nat (Z.min (len (Trc.time trc)) (len raw)) in
  let r := _compute_kinematics savgol_filter s in
  _cache_angle_name (fst r) = Some col /\
  _cache_angle (fst r) = Some (firstn n raw) /\
  ((2 <= n)%nat ->
   snd r = Ok tt /\
   has_length (_cache_angle (fst r)) n /\
   has_length (_cache_ang_vel (fst r)) n /\
   has_length (_cache_ang_acc (fst r)) n) /\
  ((n < 2)%nat -> snd r = Raise ValueError).
Proof.
  intros Hang. cbv zeta. run_linear. unfold angle_series in Hang.
  destruct (dict_get MARKER_TO_ANGLE joint) as [col'|]; [|discriminate].
  destruct (mot_data s) as [mot|]; [|discriminate].
  destruct (if nonempty col' then dict_get (Mot.angles mot) col' else None)
    as [raw'|]; [|discriminate].
  injection Hang as -> ->.
  rewrite !bind_modify.
  set (n := Z.to_nat (Z.min (len (Trc.time trc)) (len raw))).
  assert (Ln : length (firstn n raw) = n).
  { rewrite length_firstn. unfold n, len. lia. }
  destruct (Nat.lt_ge_cases n 2) as [Hs|Hs].
  - rewrite gradient_too_short by lia. rewrite bind_lift_Raise.
    split; [reflexivity|]. split; [reflexivity|].
    split; [intros; lia|]. intros _. reflexivity.
  - destruct (gradient_Ok (firstn n raw) dt) as [av [Eav Lav]]; [lia|].
    rewrite Eav, bind_lift_Ok, bind_modify.
    destruct (gradient_Ok (smooth_default savgol_filter av) dt)
      as [aa [Eaa Laa]]; [rewrite smooth_default_length; lia|].
    rewrite smooth_default_length in Laa.
    rewrite Eaa, bind_lift_Ok.
    split; [reflexivity|]. split; [reflexivity|].
    split; [|intros; lia]. intros _.
    split; [reflexivity|].
    split; [cached|]. split; cached.
Qed.

End KinematicsMore.

Lemma savgol_filter_length (arr : list float) (w p : nat) :
  length (SciPy.savgol_filter arr w p) = length arr.
Proof.
  unfold SciPy.savgol_filter. rewrite length_map, length_seq. reflexivity.
Qed.

Module KinMore.

Open Scope string_scope.

(** "RKnee" tracked over three frames, with another joint selected *)
Definition stale : app :=
  set_selected_joint (Some "LKnee")
    (KinExample.selected_knee KinExample.walking).

(** a marker seen in a single frame *)
Definition glimpse : Marker.t := Marker.mk [Fin 100] [Fin 200].

(** four samples of the knee angle beside three frames of markers *)
Definition knee_angle : list float := [Fin 10; Fin 20; Fin 30; Fin 40].

Definition with_angles : app :=
  set_mot_data
    (Some (Mot.mk [("right knee", knee_angle)] ["right knee"]
             (KinExample.times 4)))
    (KinExample.selected_knee KinExample.walking).

End KinMore.

Lemma compute_kinematics_refused_witness :
  fst (_compute_kinematics SciPy.savgol_filter KinMore.stale) = KinMore.stale
  /\ snd (_compute_kinematics SciPy.savgol_filter KinMore.stale)
     = Raise KeyError.
Proof.
  apply (compute_kinematics_refused SciPy.savgol_filter KinMore.stale
           "LKnee"
           (Trc.mk (len (Marker.x KinExample.walking)) (Fin 30)
              [("RKnee"%string, KinExample.walking)] ["RKnee"%string]
              (KinExample.times (length (Marker.x KinExample.walking))))).
  - reflexivity.
  - reflexivity.
  - reflexivity.
  - left. reflexivity.
Defined.

Lemma compute_kinematics_too_short_witness :
  _compute_kinematics SciPy.savgol_filter
    (KinExample.selected_knee KinMore.glimpse)
  = (assign_cache k_time (Some (KinExample.times 1))
       (KinExample.selected_knee KinMore.glimpse),
     Raise ValueError).
Proof.
  apply (compute_kinematics_too_short SciPy.savgol_filter
           (KinExample.selected_knee KinMore.glimpse) "RKnee"
           (Trc.mk (len (Marker.x KinMore.glimpse)) (Fin 30)
              [("RKnee"%string, KinMore.glimpse)] ["RKnee"%string]
              (KinExample.times (length (Marker.x KinMore.glimpse))))
           KinMore.glimpse).
  - reflexivity.
  - reflexivity.
  - reflexivity.
  - reflexivity.
  - exact thirty_nonzero.
  - simpl. lia.
Defined.

Lemma compute_kinematics_series_witness :
  snd (_compute_kinematics SciPy.savgol_filter
         (KinExample.selected_knee KinExample.walking)) = Ok tt /\
  has_length
    (_cache_vtotal
       (fst (_compute_kinematics SciPy.savgol_filter
               (KinExample.selected_knee KinExample.walking)))) 3 /\
  _cache_angle
    (fst (_compute_kinematics SciPy.savgol_filter
            (KinExample.selected_knee KinExample.walking))) = None.
Proof.
  pose proof (compute_kinematics_series SciPy.savgol_filter
                savgol_filter_length
                (KinExample.selected_knee KinExample.walking) "RKnee"
                (Trc.mk (len (Marker.x KinExample.walking)) (Fin 30)
                   [("RKnee"%string, KinExample.walking)] ["RKnee"%string]
                   (KinExample.times
                      (length (Marker.x KinExample.walking))))
                KinExample.walking
                eq_refl eq_refl eq_refl eq_refl thirty_nonzero eq_refl
                (le_S 2 2 (le_n 2)) eq_refl) as H.
  cbv zeta in H.
  destruct H as (H1 & _ & _ & _ & H5 & _ & _ & _ & _ & H10 & _).
  split; [exact H1|]. split; [exact H5|exact H10].
Defined.

Lemma compute_kinematics_angle_witness :
  _cache_angle_name
    (fst (_compute_kinematics SciPy.savgol_filter KinMore.with_angles))
  = Some "right knee"%string /\
  _cache_angle
    (fst (_compute_kinematics SciPy.savgol_filter KinMore.with_angles))
  = Some [Fin 10; Fin 20; Fin 30].
Proof.
  pose proof (compute_kinematics_angle SciPy.savgol_filter
                savgol_filter_length KinMore.with_angles "RKnee"
                (Trc.mk (len (Marker.x KinExample.walking)) (Fin 30)
                   [("RKnee"%string, KinExample.walking)] ["RKnee"%string]
                   (KinExample.times
                      (length (Marker.x KinExample.walking))))
                KinExample.walking
                eq_refl eq_refl eq_refl eq_refl thirty_nonzero eq_refl
                (le_S 2 2 (le_n 2))
                "right knee"%string KinMore.knee_angle eq_refl) as H.
  cbv zeta in H. destruct H as (H1 & H2 & _).
  split; [exact H1|exact H2].
Defined.

(* ------------------------------------------------------------------ *)
(** ** Smoothing of polynomial motion *)

(** a cubic polynomial in the sample index *)
Definition cubic (a b c d t : R) : R :=
  (a + b * t + c * t * t + d * t * t * t)%R.

(** the samples of a function at the indices 0, 1, ... *)
Definition samples (g : R -> R) (n : nat) : list R :=
  map (fun k => g (INR k)) (seq 0 n).

(** eleven successive values of a function *)
Definition window_at (g : R -> R) (m : R) : list R :=
  [g m; g (m + 1); g (m + 2); g (m + 3); g (m + 4); g (m + 5); g (m + 6);
   g (m + 7); g (m + 8); g (m + 9); g (m + 10)]%R.

Lemma firstn_seq_min k a n : firstn k (seq a n) = seq a (Nat.min k n).
Proof.
  revert a n. induction k as [|k IH]; intros a [|n]; simpl; try reflexivity.
  rewrite IH. reflexivity.
Qed.

Lemma skipn_seq_shift k a n : skipn k (seq a n) = seq (a + k) (n - k).
Proof.
  revert a n. induction k as [|k IH]; intros a [|n]; simpl.
  - reflexivity.
  - rewrite Nat.add_0_r. reflexivity.
  - reflexivity.
  - rewrite IH. f_equal. lia.
Qed.

Lemma window_samples (g : R -> R) (m : nat) :
  map (fun k => g (INR k)) (seq m 11) = window_at g (INR m).
Proof.
  cbn [seq map]. unfold window_at.
  repeat (apply f_equal2; [f_equal; rewrite ?S_INR; lra|]). reflexivity.
Qed.

(** The least-squares cubic through eleven samples of a cubic is that
    cubic. *)
Lemma fit_cubic a b c d (m : R) (p : nat) :
  fit_R (window_at (cubic a b c d) m) p = cubic a b c d (m + INR p).
Proof.
  rewrite INR_IZR_INZ. unfold fit_R, dot_R, window_at, SciPy.positions.
  cbn [seq map combine fold_right fst snd].
  unfold SciPy.basis, SciPy.norm2. cbv beta iota zeta.
  cbn [Z.of_nat Pos.of_succ_nat Pos.succ]. unfold cubic. field.
Qed.

Lemma centre_cubic a b c d (m : R) :
  dot_R SciPy.coeffs (window_at (cubic a b c d) m)
  = cubic a b c d (m + 5).
Proof. unfold window_at, cubic. window_arith. Qed.

Lemma length_samples (g : R -> R) (n : nat) : length (samples g n) = n.
Proof. unfold samples. rewrite length_map, length_seq. reflexivity. Qed.

Lemma savgol_cubic a b c d (n : nat) :
  (11 <= n)%nat ->
  SciPy.savgol_filter (map Fin (samples (cubic a b c d) n)) 11 3
  = map Fin (samples (cubic a b c d) n).
Proof.
  intros Hn. set (g := cubic a b c d).
  assert (Ln : length (map Fin (samples g n)) = n).
  { rewrite length_map. apply length_samples. }
  assert (R : map Fin (samples g n)
              = map (fun i => Fin (g (INR i))) (seq 0 n)).
  { unfold samples. rewrite map_map. reflexivity. }
  rewrite R at 2. unfold SciPy.savgol_filter. cbv zeta. rewrite Ln.
  apply map_ext_in. intros i Hi.
  apply in_seq in Hi.
  destruct (Nat.ltb_spec i 5) as [H5|H5].
  - rewrite firstn_map.
    rewrite polyfit_Fin
      by (unfold samples; rewrite firstn_map, length_map, firstn_seq_min,
          length_seq; lia).
    f_equal. unfold samples.
    rewrite firstn_map, firstn_seq_min, (Nat.min_l 11 n) by lia.
    rewrite window_samples. unfold g. rewrite fit_cubic.
    f_equal. simpl. lra.
  - destruct (Nat.leb_spec (n - 5) i) as [H6|H6].
    + rewrite skipn_map.
      rewrite polyfit_Fin
        by (unfold samples; rewrite skipn_map, length_map, skipn_seq_shift,
            length_seq; lia).
      f_equal. unfold samples.
      rewrite skipn_map, skipn_seq_shift.
      replace (n - (n - 11))%nat with 11%nat by lia.
      rewrite window_samples. unfold g. rewrite fit_cubic.
      f_equal. rewrite <- plus_INR. f_equal. lia.
    + rewrite skipn_map, firstn_map.
      assert (W : firstn 11 (skipn (i - 5) (samples g n))
                  = window_at g (INR (i - 5))).
      { unfold samples.
        rewrite skipn_map, firstn_map, skipn_seq_shift, firstn_seq_min.
        rewrite (Nat.min_l 11 (n - (i - 5))) by lia.
        apply window_samples. }
      rewrite W. rewrite dot_Fin by reflexivity.
      f_equal. unfold g. rewrite centre_cubic.
      f_equal. rewrite minus_INR by lia. simpl. lra.
Qed.

(** X24.  Smoothing does not distort polynomial motion.  With SciPy's filter
    (window 11, degree 3, end windows fitted by a cubic), [smooth] returns a
    series sampled from a polynomial of degree at most 3 unchanged, whatever
    its length: positions under constant velocity or constant acceleration
    pass through as they are. *)
Theorem smooth_exact_on_cubics (a b c d : R) (n : nat) :
  smooth_default SciPy.savgol_filter (map Fin (samples (cubic a b c d) n))
  = map Fin (samples (cubic a b c d) n).
Proof.
  unfold smooth_default, smooth.
  destruct (Nat.ltb_spec 11
              (length (map Fin (samples (cubic a b c d) n)))) as [H|H];
    [|reflexivity].
  apply savgol_cubic. rewrite length_map, length_samples in H. lia.
Qed.

Lemma smooth_samples a b c d (n : nat) :
  smooth_default SciPy.savgol_filter (map Fin (samples (cubic a b c d) n))
  = map Fin (samples (cubic a b c d) n).
Proof.
  unfold smooth_default, smooth.
  destruct (Nat.ltb_spec 11
              (length (map Fin (samples (cubic a b c d) n)))) as [H|H];
    [|reflexivity].
  apply savgol_cubic. rewrite length_map, length_samples in H. lia.
Qed.

Lemma nth_samples (g : R -> R) (n k : nat) :
  (k < n)%nat -> nth k (samples g n) 0%R = g (INR k).
Proof.
  intros H. unfold samples.
  rewrite (nth_indep _ 0%R (g (INR 0)))
    by (rewrite length_map, length_seq; exact H).
  rewrite (map_nth (fun k => g (INR k))), seq_nth by exact H. reflexivity.
Qed.

Lemma samples_const (v : R) (n : nat) :
  samples (cubic v 0 0 0) n = repeat v n.
Proof.
  unfold samples.
  transitivity (map (fun _ : nat => v) (seq 0 n)).
  - apply map_ext. intros k. unfold cubic. ring.
  - rewrite map_const, length_seq. reflexivity.
Qed.

Lemma scale_samples (a b sc : R) (n : nat) :
  map (fun v => (v * sc)%R) (samples (cubic a b 0 0) n)
  = samples (cubic (a * sc) (b * sc) 0 0) n.
Proof.
  unfold samples. rewrite map_map. apply map_ext. intros k.
  unfold cubic. ring.
Qed.

(** [np.gradient] of positions under constant velocity is that velocity at
    every sample, the two ends included. *)
Lemma gradient_linear (a b dt : R) (n : nat) :
  (2 <= n)%nat -> dt <> 0%R ->
  gradient_R (samples (cubic a b 0 0) n) dt
  = samples (cubic (b / dt) 0 0 0) n.
Proof.
  intros Hn Hdt. unfold gradient_R. rewrite length_samples.
  change (samples (cubic (b / dt) 0 0 0) n)
    with (map (fun k => cubic (b / dt) 0 0 0 (INR k)) (seq 0 n)).
  apply map_ext_in. intros i Hi. apply in_seq in Hi.
  destruct (Nat.eqb_spec i 0) as [E0|E0].
  - rewrite !nth_samples by lia. unfold cubic. simpl INR. field. exact Hdt.
  - destruct (Nat.eqb_spec i (n - 1)) as [E1|E1].
    + rewrite !nth_samples by lia. unfold cubic.
      rewrite !minus_INR by lia. simpl INR. field. exact Hdt.
    + rewrite !nth_samples by lia. unfold cubic.
      rewrite plus_INR, minus_INR by lia. simpl INR. field. exact Hdt.
Qed.

Lemma magnitude_const (a b : R) (n : nat) :
  magnitude_R (samples (cubic a 0 0 0) n) (samples (cubic b 0 0 0) n)
  = samples (cubic (sqrt (a * a + b * b)) 0 0 0) n.
Proof.
  rewrite !samples_const. unfold magnitude_R.
  induction n as [|n IH]; [reflexivity|]. simpl. rewrite IH. reflexivity.
Qed.

Module Glide.

Open Scope string_scope.

(** thirty frames of uniform motion: two pixels per frame to the right *)
Definition knee : Marker.t :=
  Marker.mk (map Fin (samples (cubic 100 2 0 0) 30))
            (map Fin (samples (cubic 200 0 0 0) 30)).

End Glide.

Section UniformMotion.

Open Scope method_scope.

Variables (s : app) (joint : string) (trc : Trc.t) (c : Marker.t).
Variables (x0 y0 u w rate : R) (ppu : option R) (n : nat).

Hypothesis selected : selected_joint s = Some joint.
Hypothesis selected_named : nonempty joint = true.
Hypothesis loaded : trc_data s = Some trc.
Hypothesis tracked : dict_get (Trc.markers trc) joint = Some c.
Hypothesis x_uniform : Marker.x c = map Fin (samples (cubic x0 u 0 0) n).
Hypothesis y_uniform : Marker.y c = map Fin (samples (cubic y0 w 0 0) n).
Hypothesis rate_number : Trc.data_rate trc = Fin rate.
Hypothesis rate_nonzero : rate <> 0%R.
Hypothesis scale_number : calibrated s = option_map Fin ppu.
Hypothesis two_samples : (2 <= n)%nat.

Let sc : R := unit_scale ppu.
Let dt : R := (1 / rate)%R.

Lemma uniform_dt_nonzero : dt <> 0%R.
Proof.
  unfold dt, Rdiv. rewrite Rmult_1_l. apply Rinv_neq_0_compat.
  exact rate_nonzero.
Qed.

(** X25.  Uniform motion gives constant velocity and zero acceleration.  For
    a selected marker that moves by [(u, w)] pixels per frame over at least
    two frames, with SciPy's filter, every sample of the cached velocity is
    [u * scale * rate] in x and [w * scale * rate] in y, where [scale] is
    [1 / px_per_unit] when calibrated and 1 otherwise; the total velocity is
    the length of that vector, and the three acceleration series are 0
    throughout, for a series of any length, the ends included. *)
Theorem uniform_motion_kinematics :
  let s' := fst (_compute_kinematics SciPy.savgol_filter s) in
  let k := (unit_scale ppu * rate)%R in
  _cache_vx s' = Some (map Fin (repeat (u * k)%R n)) /\
  _cache_vy s' = Some (map Fin (repeat (w * k)%R n)) /\
  _cache_vtotal s'
  = Some (map Fin (repeat (sqrt (u * k * (u * k) + w * k * (w * k))) n)) /\
  _cache_ax s' = Some (map Fin (repeat 0%R n)) /\
  _cache_ay s' = Some (map Fin (repeat 0%R n)) /\
  _cache_atotal s' = Some (map Fin (repeat 0%R n)).
Proof.
  cbv zeta. pose proof uniform_dt_nonzero as Hdt.
  assert (Ex : (u * sc / dt = u * (unit_scale ppu * rate))%R).
  { unfold dt, sc. field. exact rate_nonzero. }
  assert (Ey : (w * sc / dt = w * (unit_scale ppu * rate))%R).
  { unfold dt, sc. field. exact rate_nonzero. }
  assert (Ez : (0 / dt = 0)%R) by (field; exact Hdt).
  unfold _compute_kinematics.
  rewrite bind_get, selected, loaded, selected_named. cbn [negb].
  unfold dict_getitem. rewrite tracked, bind_lift_Ok.
  rewrite rate_number, (pydiv_Fin 1 rate rate_nonzero), bind_lift_Ok,
    bind_modify.
  rewrite (calibrated_scale s ppu scale_number), x_uniform, y_uniform,
    !scale_Fin.
  fold sc. fold dt. rewrite !scale_samples.
  rewrite gradient_Fin, bind_lift_Ok by (rewrite ?length_samples; assumption).
  rewrite gradient_Fin, bind_lift_Ok by (rewrite ?length_samples; assumption).
  rewrite !gradient_linear by assumption.
  rewrite !bind_modify.
  rewrite magnitude_Fin, bind_lift_Ok by (rewrite !length_samples; reflexivity).
  rewrite bind_modify, magnitude_const, !smooth_samples.
  rewrite gradient_Fin, bind_lift_Ok by (rewrite ?length_samples; assumption).
  rewrite gradient_Fin, bind_lift_Ok by (rewrite ?length_samples; assumption).
  rewrite !gradient_linear by assumption.
  rewrite !bind_modify.
  rewrite magnitude_Fin, bind_lift_Ok by (rewrite !length_samples; reflexivity).
  rewrite bind_modify, magnitude_const, !smooth_samples.
  match goal with
  | |- _ (fst (?m ?st)) = _ /\ _ =>
      assert (K : forall k, k = k_vx \/ k = k_vy \/ k = k_vtotal \/
                            k = k_ax \/ k = k_ay \/ k = k_atotal ->
                   keeps (fun a => _cache a k) m)
  end.
  { intros k [->|[->|[->|[->|[->| ->]]]]]; keeps_tac. }
  unfold _cache_vx, _cache_vy, _cache_vtotal, _cache_ax, _cache_ay,
    _cache_atotal.
  rewrite (K k_vx), (K k_vy), (K k_vtotal), (K k_ax), (K k_ay), (K k_atotal)
    by tauto.
  cbn [_cache assign_cache set_cache cache_key_eqb].
  rewrite !samples_const, Ex, Ey, Ez.
  replace (sqrt (0 * 0 + 0 * 0)) with 0%R
    by (replace (0 * 0 + 0 * 0)%R with 0%R by ring; symmetry; apply sqrt_0).
  repeat split.
Qed.

End UniformMotion.

Lemma uniform_motion_kinematics_witness :
  _cache_vx
    (fst (_compute_kinematics SciPy.savgol_filter
            (KinExample.selected_knee Glide.knee)))
  = Some (map Fin (repeat (2 * (1 * 30))%R 30)) /\
  _cache_atotal
    (fst (_compute_kinematics SciPy.savgol_filter
            (KinExample.selected_knee Glide.knee)))
  = Some (map Fin (repeat 0%R 30)).
Proof.
  assert (R30 : 30%R <> 0%R) by lra.
  assert (N : (2 <= 30)%nat) by lia.
  pose proof (uniform_motion_kinematics
                (KinExample.selected_knee Glide.knee) "RKnee"
                (Trc.mk (len (Marker.x Glide.knee)) (Fin 30)
                   [("RKnee"%string, Glide.knee)] ["RKnee"%string]
                   (KinExample.times (length (Marker.x Glide.knee))))
                Glide.knee 100 200 2 0 30 None 30
                eq_refl eq_refl eq_refl eq_refl eq_refl eq_refl eq_refl
                R30 eq_refl N) as H.
  cbv zeta in H. destruct H as (H1 & _ & _ & _ & _ & H6).
  split; [exact H1|exact H6].
Defined.

(* ------------------------------------------------------------------ *)
(** ** Loading a video, and the slots of the window *)

Lemma dict_get_key {V} (d : dict V) k v :
  In (k, v) d -> exists v', dict_get d k = Some v'.
Proof.
  induction d as [|[k' w] d IH]; simpl; [intros []|].
  intros [E|Hin].
  - injection E as -> ->. rewrite String.eqb_refl. eauto.
  - destruct (String.eqb k' k); [eauto|]. apply IH. exact Hin.
Qed.

Lemma click_step_name frame vx vy acc name c acc' :
  click_step frame vx vy acc (name, c) = Ok acc' ->
  fst acc' = fst acc \/ fst acc' = Some name.
Proof.
  unfold click_step. destruct acc as [best bd].
  destruct (frame <? len (Marker.x c))%Z;
    [|intros H; injection H as <-; left; reflexivity].
  destruct (getitem (Marker.x c) frame) as [mx|]; [|discriminate].
  destruct (getitem (Marker.y c) frame) as [my|]; [|discriminate].
  cbn [rbind].
  destruct (absent mx); [intros H; injection H as <-; left; reflexivity|].
  cbv zeta. destruct (F.lt _ bd); intros H; injection H as <-;
    [right|left]; reflexivity.
Qed.

(** The name that the scan of a click returns is the key of a marker. *)
Lemma click_scan_name (all : dict Marker.t) frame vx vy :
  forall rest acc found,
    click_scan rest frame vx vy acc = Ok found ->
    (forall it, In it rest -> In it all) ->
    (forall b, fst acc = Some b -> exists c, dict_get all b = Some c) ->
    forall b, fst found = Some b -> exists c, dict_get all b = Some c.
Proof.
  induction rest as [|[name c] rest IH]; intros acc found H Hin Hacc b Hb.
  - simpl in H. injection H as <-. apply Hacc. exact Hb.
  - cbn [click_scan] in H. apply rbind_Ok_inv in H.
    destruct H as [acc' [Hstep Hrest]].
    apply (IH acc' found Hrest); [intros it Hit; apply Hin; right; exact Hit
                                 | |exact Hb].
    intros b' Hb'. destruct (click_step_name _ _ _ _ _ _ _ Hstep) as [E|E].
    + apply Hacc. rewrite <- E. exact Hb'.
    + rewrite E in Hb'. injection Hb' as <-.
      apply (dict_get_key all name c). apply Hin. left. reflexivity.
Qed.

(** the selected joint is one of the markers of the loaded data *)
Definition selection_tracked (s : app) : Prop :=
  forall j, selected_joint s = Some j ->
    exists trc c,
      trc_data s = Some trc /\ dict_get (Trc.markers trc) j = Some c.

Lemma selection_tracked_keeps (m : M unit) (s : app) :
  keeps selected_joint m -> keeps trc_data m ->
  selection_tracked s -> selection_tracked (fst (m s)).
Proof.
  intros K1 K2 H j Hj. rewrite K1 in Hj. rewrite K2. apply H. exact Hj.
Qed.

Lemma set_frame_keeps_trc_data idx : keeps trc_data (_set_frame idx).
Proof. unfold _set_frame. keeps_tac. Qed.

Lemma set_frame_keeps_mot_data idx : keeps mot_data (_set_frame idx).
Proof. unfold _set_frame. keeps_tac. Qed.

Lemma set_frame_keeps_fps idx : keeps fps (_set_frame idx).
Proof. unfold _set_frame. keeps_tac. Qed.

Lemma set_frame_keeps_cache_angle_name idx :
  keeps _cache_angle_name (_set_frame idx).
Proof. unfold _set_frame. keeps_tac. Qed.

Section SlotFacts.

Variable VideoCapture_open : string -> VideoCapture.
Variable get_frame_count : VideoCapture -> float.
Variable get_fps : VideoCapture -> float.
Variable basename : string -> string.
Variable dirname : string -> string.
Variable splitext_root : string -> string.
Variable join : string -> string -> string.
Variable exists_ : string -> bool.
Variable load_trc_file : string -> option Trc.t.
Variable load_mot_file : string -> option Mot.t.
Variable slider_value_after_setMaximum : Z -> Z -> Z.
Variable savgol_filter : list float -> nat -> nat -> list float.

Open Scope method_scope.

Let load_video_from_path : string -> M unit :=
  _load_video_from_path VideoCapture_open get_frame_count get_fps basename
    dirname splitext_root join exists_ load_trc_file load_mot_file
    slider_value_after_setMaximum.

Let handle_slot : slot -> M unit :=
  handle VideoCapture_open get_frame_count get_fps basename dirname
    splitext_root join exists_ load_trc_file load_mot_file
    slider_value_after_setMaximum savgol_filter.

(** the folder of results beside a video, and the two files in it *)
Let analysis_of (path : string) : string :=
  join (dirname path) (splitext_root (basename path) ++ "_Sports2D")%string.
Let trc_of (path : string) : string :=
  join (analysis_of path)
    (splitext_root (basename path) ++ "_Sports2D_px_person00.trc")%string.
Let mot_of (path : string) : string :=
  join (analysis_of path)
    (splitext_root (basename path) ++ "_Sports2D_angles_person00.mot")%string.

(** X26.  Loading a video keeps the calibration, the cached series, the flags
    and the timer.  Whatever the file, and whether the call returns or
    raises, [_load_video_from_path] leaves [px_per_unit], the unit name, the
    ten cached series and the cached angle name, the two trajectory flags
    and the playback timer as they were: a calibration made on one video
    and the graphs of its last selection carry over to the next. *)
Theorem load_video_keeps (path : string) (s : app) :
  let s' := fst (load_video_from_path path s) in
  px_per_unit s' = px_per_unit s /\
  unit_name s' = unit_name s /\
  _cache s' = _cache s /\
  _cache_angle_name s' = _cache_angle_name s /\
  show_trajectory s' = show_trajectory s /\
  show_relative_trajectory s' = show_relative_trajectory s /\
  timer s' = timer s.
Proof.
  cbv zeta.
  assert (K : forall X (f : app -> X),
             (forall v a, f (set_cap v a) = f a) ->
             (forall v a, f (set_total_frames v a) = f a) ->
             (forall v a, f (set_fps v a) = f a) ->
             (forall v a, f (set_slider v a) = f a) ->
             (forall v a, f (set_trc_data v a) = f a) ->
             (forall v a, f (set_mot_data v a) = f a) ->
             (forall v a, f (set_selected_joint v a) = f a) ->
             (forall v a, f (set_status_lbl v a) = f a) ->
             keeps f (_set_frame 0) ->
             keeps f (load_video_from_path path)).
  { intros X f H1 H2 H3 H4 H5 H6 H7 H8 H9.
    unfold load_video_from_path, _load_video_from_path. cbv zeta.
    repeat first
      [ exact H9
      | apply keeps_bind; [|intros ?]
      | apply keeps_ret
      | apply keeps_get
      | apply keeps_lift
      | apply keeps_modify; intros ?;
        first [apply H1|apply H2|apply H3|apply H4|apply H5|apply H6
              |apply H7|apply H8]
      | match goal with
        | |- keeps _ (if ?b then _ else _) => destruct b
        end ]. }
  repeat split; apply K; try (intros; reflexivity).
  - apply set_frame_keeps_px_per_unit.
  - apply set_frame_keeps_unit_name.
  - apply set_frame_keeps_cache.
  - apply set_frame_keeps_cache_angle_name.
  - apply set_frame_keeps_show_trajectory.
  - apply set_frame_keeps_show_relative_trajectory.
  - apply set_frame_keeps_timer.
Qed.

(** X27.  Loading a video starts from a clean selection.  When the frame
    count of the opened file is a number, [_load_video_from_path] leaves
    the new capture, that frame count, the file's frame rate or 30 when it
    reports 0, no selected joint, and the marker and angle data of the
    result files beside the video, or none where the folder or a file is
    missing.  With at least one frame the current frame is 0, even when
    rendering it raises; with none the call returns and the frame index of
    the previous video stays. *)
Theorem load_video_resets (path : string) (s : app) (frames : Z) :
  F.to_int (get_frame_count (VideoCapture_open path)) = Ok frames ->
  let s' := fst (load_video_from_path path s) in
  cap s' = Some (VideoCapture_open path) /\
  total_frames s' = frames /\
  fps s' = (if F.truthy (get_fps (VideoCapture_open path))
            then get_fps (VideoCapture_open path) else Fin 30) /\
  selected_joint s' = None /\
  trc_data s' = (if exists_ (analysis_of path) && exists_ (trc_of path)
                 then load_trc_file (trc_of path) else None) /\
  mot_data s' = (if exists_ (analysis_of path) && exists_ (mot_of path)
                 then load_mot_file (mot_of path) else None) /\
  ((1 <= frames)%Z -> current_frame s' = 0%Z) /\
  ((frames <= 0)%Z ->
   current_frame s' = current_frame s /\
   snd (load_video_from_path path s) = Ok tt).
Proof.
  intros Hn. cbv zeta.
  unfold load_video_from_path, _load_video_from_path. cbv zeta.
  rewrite bind_modify, Hn, bind_lift_Ok, !bind_modify, bind_get,
    !bind_modify.
  fold (analysis_of path). fold (trc_of path). fold (mot_of path).
  match goal with
  | |- context [bind ?blk (fun _ => _set_frame 0) ?st] =>
      set (block := blk); set (st0 := st)
  end.
  assert (E : exists st1,
             block st0 = (st1, Ok tt) /\
             cap st1 = Some (VideoCapture_open path) /\
             total_frames st1 = frames /\
             fps st1 = (if F.truthy (get_fps (VideoCapture_open path))
                        then get_fps (VideoCapture_open path) else Fin 30) /\
             selected_joint st1 = None /\
             trc_data st1
             = (if exists_ (analysis_of path) && exists_ (trc_of path)
                then load_trc_file (trc_of path) else None) /\
             mot_data st1
             = (if exists_ (analysis_of path) && exists_ (mot_of path)
                then load_mot_file (mot_of path) else None) /\
             current_frame st1 = current_frame s).
  { unfold block, st0.
    destruct (exists_ (analysis_of path)); cbn [andb];
      [destruct (exists_ (trc_of path)); destruct (exists_ (mot_of path))|];
      (eexists; split; [reflexivity|repeat split]). }
  destruct E as (st1 & Eb & Hc & Ht & Hf & Hs & Htr & Hm & Hcur).
  assert (R : bind block (fun _ => _set_frame 0) st0 = _set_frame 0 st1).
  { unfold bind. rewrite Eb. reflexivity. }
  rewrite R.
  rewrite (set_frame_keeps_cap 0 st1), (set_frame_keeps_total_frames 0 st1),
    (set_frame_keeps_fps 0 st1), (set_frame_keeps_selected_joint 0 st1),
    (set_frame_keeps_trc_data 0 st1), (set_frame_keeps_mot_data 0 st1).
  repeat (split; [assumption|]).
  rewrite set_frame_current_frame, Hc, Ht. cbn [Z.ltb Z.compare orb].
  split.
  - intros H1. destruct (Z.geb_spec 0 frames); [lia|reflexivity].
  - intros H0. destruct (Z.geb_spec 0 frames) as [_|G]; [|lia].
    split; [exact Hcur|].
    unfold _set_frame. rewrite bind_get, Hc, Ht. cbn [Z.ltb Z.compare orb].
    destruct (Z.geb_spec 0 frames); [reflexivity|lia].
Qed.

(** X28.  The selection is always a tracked marker.  Whichever of the slots
    [handle] dispatches runs, and whether it returns or raises, an object
    whose selected joint (if any) is a key of the markers of its loaded data
    is taken to such an object; the object that [__init__] builds has no
    selection, so through these slots the lookup of the selected joint in
    [_compute_kinematics] does not fail. *)
Theorem selection_stays_tracked (e : slot) (s : app) :
  selection_tracked s -> selection_tracked (fst (handle_slot e s)).
Proof.
  intros Hinv. unfold handle_slot. destruct e as [pos|p1 p2 ans| | |v| | | |path];
    cbn [handle].
  - unfold _on_video_click. rewrite bind_get.
    destruct (trc_data s) as [trc|] eqn:Et; [|exact Hinv].
    destruct (to_frame s (fst pos) (offset_x s)) as [vx|e1];
      [rewrite bind_lift_Ok|exact Hinv].
    destruct (to_frame s (snd pos) (offset_y s)) as [vy|e2];
      [rewrite bind_lift_Ok|exact Hinv].
    destruct (click_scan (Trc.markers trc) (current_frame s) vx vy
                (None, Fin 50)) as [[best bd]|e3] eqn:Es;
      [rewrite bind_lift_Ok|exact Hinv].
    cbn [fst]. destruct best as [b|]; [|exact Hinv].
    destruct (nonempty b); [|exact Hinv]. rewrite bind_modify.
    match goal with
    | |- selection_tracked (fst (?m ?st)) =>
        assert (K1 : keeps selected_joint m)
          by (unfold _compute_kinematics, _set_frame; keeps_tac);
        assert (K2 : keeps trc_data m)
          by (unfold _compute_kinematics, _set_frame; keeps_tac)
    end.
    intros j Hj. rewrite K1 in Hj. rewrite K2.
    cbn [selected_joint trc_data set_selected_joint] in Hj |- *.
    injection Hj as <-. rewrite Et.
    assert (Hnone : forall b', fst (@None string, Fin 50) = Some b' ->
                      exists c, dict_get (Trc.markers trc) b' = Some c)
      by (intros b' H; discriminate H).
    destruct (click_scan_name (Trc.markers trc) _ _ _ _ _ _ Es
                (fun it H => H) Hnone b eq_refl) as [c Hc].
    exists trc, c. split; [reflexivity|exact Hc].
  - apply selection_tracked_keeps; [| |exact Hinv];
      unfold _on_calibration_line, _compute_kinematics, _set_frame;
      keeps_tac.
  - apply selection_tracked_keeps; [| |exact Hinv];
      unfold _toggle_play; keeps_tac.
  - apply selection_tracked_keeps; [| |exact Hinv];
      unfold _advance_frame, _set_frame; keeps_tac.
  - apply selection_tracked_keeps; [| |exact Hinv];
      unfold _seek, _set_frame; keeps_tac.
  - apply selection_tracked_keeps; [| |exact Hinv]; keeps_tac.
  - apply selection_tracked_keeps; [| |exact Hinv];
      unfold _toggle_trajectory, _set_frame; keeps_tac.
  - apply selection_tracked_keeps; [| |exact Hinv];
      unfold _toggle_relative_trajectory, _set_frame; keeps_tac.
  - unfold _load_video. destruct (nonempty path); [|exact Hinv].
    unfold _load_video_from_path. cbv zeta. rewrite bind_modify.
    destruct (F.to_int (get_frame_count (VideoCapture_open path)))
      as [frames|e1]; [rewrite bind_lift_Ok|exact Hinv].
    rewrite !bind_modify, bind_get, !bind_modify.
    match goal with
    | |- selection_tracked (fst (?m ?st)) =>
        assert (K1 : keeps selected_joint m)
          by (unfold _set_frame; keeps_tac)
    end.
    intros j Hj. rewrite K1 in Hj. discriminate Hj.
Qed.

End SlotFacts.

Module Desk.

Open Scope string_scope.

(** a video of 100 readable frames that reports no frame rate, on a file
    system that holds the folder of results and the marker file, but no
    angle file *)
Definition VideoCapture_open (_ : string) : VideoCapture := Examples.video100.
Definition get_frame_count (_ : VideoCapture) : float := Fin 100.
Definition get_fps (_ : VideoCapture) : float := Fin 0.
Definition basename (p : string) : string := p.
Definition dirname (_ : string) : string := "".
Definition splitext_root (p : string) : string := p.
Definition join (a b : string) : string := b.
Definition exists_ (p : string) : bool :=
  negb (String.eqb p "run_Sports2D_angles_person00.mot").
Definition load_trc_file (_ : string) : option Trc.t := Some ClickExample.trc.
Definition load_mot_file (_ : string) : option Mot.t := None.
Definition slider_value_after_setMaximum (m v : Z) : Z := Z.min v m.

Definition load (path : string) : M unit :=
  _load_video_from_path VideoCapture_open get_frame_count get_fps basename
    dirname splitext_root join exists_ load_trc_file load_mot_file
    slider_value_after_setMaximum path.

End Desk.

Lemma load_video_resets_witness :
  total_frames (fst (Desk.load "run" (Examples.with_video 50 49 None)))
  = 100%Z /\
  selected_joint (fst (Desk.load "run" (Examples.with_video 50 49 None)))
  = None /\
  trc_data (fst (Desk.load "run" (Examples.with_video 50 49 None)))
  = Some ClickExample.trc /\
  mot_data (fst (Desk.load "run" (Examples.with_video 50 49 None)))
  = None /\
  current_frame (fst (Desk.load "run" (Examples.with_video 50 49 None)))
  = 0%Z.
Proof.
  assert (E : F.to_int (Desk.get_frame_count (Desk.VideoCapture_open "run"))
              = Ok 100%Z).
  { unfold Desk.get_frame_count, F.to_int. f_equal. apply trunc_IZR. }
  pose proof (load_video_resets Desk.VideoCapture_open Desk.get_frame_count
                Desk.get_fps Desk.basename Desk.dirname Desk.splitext_root
                Desk.join Desk.exists_ Desk.load_trc_file Desk.load_mot_file
                Desk.slider_value_after_setMaximum "run"
                (Examples.with_video 50 49 None) 100 E) as H.
  cbv zeta in H.
  destruct H as (_ & H2 & _ & H4 & H5 & H6 & H7 & _).
  split; [exact H2|]. split; [exact H4|]. split; [exact H5|].
  split; [exact H6|]. apply H7. lia.
Defined.

Lemma selection_stays_tracked_witness :
  selection_tracked
    (fst (handle Desk.VideoCapture_open Desk.get_frame_count Desk.get_fps
            Desk.basename Desk.dirname Desk.splitext_root Desk.join
            Desk.exists_ Desk.load_trc_file Desk.load_mot_file
            Desk.slider_value_after_setMaximum SciPy.savgol_filter
            (VideoClicked (105, 100)%Z) ClickExample.loaded)).
Proof.
  apply selection_stays_tracked. intros j Hj. discriminate Hj.
Defined.
